(** * Interleaved A/B benchmark runner: sampler, aggregator and ranker

    A shallow embedding of [scripts/interleaved_btree_benchmark.py].

    Conventions of the embedding:
    - a Python [dict] is an association list in insertion order with first-match
      lookup (iteration order and the stability of [sorted] depend on it);
    - a measurement document is a dictionary of dictionaries down to its
      latencies, any of whose keys may be missing; JSON numbers are exact
      rationals ([Q]); the value of [statistics.stdev] is the real square root
      of the exact sample variance;
    - an f-string is kept as its template together with its arguments
      ([VFormat]); the decimal rendering of numbers and the blank lines
      between messages are not modelled;
    - [print], [subprocess.run] and file writes act on an explicit [world];
      [sys.exit] and uncaught exceptions are the [Raise] outcome. *)

From Stdlib Require Import List String Ascii ZArith QArith Reals Psatz Bool.
From Stdlib Require Import Permutation Sorted DecimalString.
From Stdlib Require Import Qreals.
Import ListNotations.

Set Warnings "-register-all".

Local Open Scope string_scope.
Local Open Scope list_scope.
Local Open Scope Z_scope.

(** ** Python values *)

Section Dict.
Context {V : Type}.

Definition dict := list (string * V).

(** [d[k]] and [k in d]: the first binding of [k]. *)
Fixpoint get (k : string) (d : dict) : option V :=
  match d with
  | [] => None
  | (k', v) :: rest => if String.eqb k' k then Some v else get k rest
  end.

(** [d[k] = v]: overwrite in place, or insert at the end. *)
Fixpoint setitem (k : string) (v : V) (d : dict) : dict :=
  match d with
  | [] => [(k, v)]
  | (k', v') :: rest =>
      if String.eqb k' k then (k', v) :: rest else (k', v') :: setitem k v rest
  end.

Definition keys (d : dict) : list string := map fst d.

(** The representation invariant of a dictionary: no key occurs twice. *)
Definition dict_wf (d : dict) : Prop := NoDup (keys d).
End Dict.
Arguments dict : clear implicits.

(** The latency percentiles of one operation, the ["performance"] section of a
    measurement document, and the document itself. *)
Definition percentiles := dict Q.
Definition performance := dict percentiles.
Definition document := dict performance.

Inductive value : Type :=
| VInt (z : Z)
| VNum (q : Q)
| VReal (r : R)
| VStr (s : string)
| VList (l : list Q)
| VPerf (p : performance)
| VKeys (ks : list string)
| VDict (d : list (string * value))
| VFormat (template : string) (args : list value).

(** The per-configuration dictionary built by [aggregate_results]. *)
Definition stats_dict := dict value.

(** ** Outcomes and the world *)

Inductive exn : Type :=
| SystemExit (code : Z)
| KeyError (key : string)
| IndexError
| TypeError
| ValueError
| StatisticsError.

Inductive outcome (A : Type) : Type :=
| Ok (a : A)
| Raise (e : exn).
Arguments Ok {A} a.
Arguments Raise {A} e.

(** What [subprocess.run(..., capture_output=True, text=True)] hands back. *)
Record CompletedProcess : Type := {
  returncode : Z;
  stdout : string;
  stderr : string
}.

Inductive file : Type :=
| Csv (rows : list (list value))
| Json (results : dict (list document)).

Record world : Type := {
  spawned : list (list string * CompletedProcess);
  printed : list value;
  files : dict file
}.

Definition M (A : Type) : Type := world -> outcome A * world.

Definition ret {A} (a : A) : M A := fun w => (Ok a, w).

Definition bind {A B} (m : M A) (f : A -> M B) : M B :=
  fun w => match m w with
           | (Ok a, w') => f a w'
           | (Raise e, w') => (Raise e, w')
           end.

Definition raise {A} (e : exn) : M A := fun w => (Raise e, w).

Definition lift {A} (o : outcome A) : M A := fun w => (o, w).

Definition sys_exit {A} (code : Z) : M A := raise (SystemExit code).

Definition print (v : value) : M unit :=
  fun w => (Ok tt, {| spawned := spawned w;
                      printed := printed w ++ [v];
                      files := files w |}).

Declare Scope py_scope.
Delimit Scope py_scope with py.
Notation "x <- m ;; k" := (bind m (fun x => k))
  (at level 61, m at next level, right associativity) : py_scope.
Notation "m ;; k" := (bind m (fun _ => k))
  (at level 61, right associativity) : py_scope.
Local Open Scope py_scope.

(** The pure fragment: lookups and statistics that may raise. *)
Definition obind {A B} (o : outcome A) (f : A -> outcome B) : outcome B :=
  match o with
  | Ok a => f a
  | Raise e => Raise e
  end.

Definition getitem {V} (d : dict V) (k : string) : outcome V :=
  match get k d with
  | Some v => Ok v
  | None => Raise (KeyError k)
  end.

Fixpoint mapM {A B} (f : A -> outcome B) (l : list A) : outcome (list B) :=
  match l with
  | [] => Ok []
  | x :: rest =>
      obind (f x) (fun y => obind (mapM f rest) (fun ys => Ok (y :: ys)))
  end.

(** [for x in l: s = body x s] with exceptions propagating out of the loop. *)
Fixpoint for_each {A S} (l : list A) (body : A -> S -> M S) (s : S) : M S :=
  match l with
  | [] => ret s
  | x :: rest => s' <- body x s ;; for_each rest body s'
  end.

(** [range(a, b)] *)
Definition range (a b : Z) : list Z :=
  map (fun i => a + Z.of_nat i) (seq 0 (Z.to_nat (b - a))).

(** [str(n)] for an integer. *)
Definition str (n : Z) : string := NilZero.string_of_int (Z.to_int n).

(** [sep.join(l)] *)
Definition join (sep : string) (l : list string) : string := String.concat sep l.

(** [s * n] *)
Fixpoint string_repeat (s : string) (n : nat) : string :=
  match n with
  | O => ""
  | S n' => (s ++ string_repeat s n')%string
  end.

(** [s.upper()], [s.lower()] and [s.capitalize()] on ASCII letters. *)
Definition upper_ascii (c : ascii) : ascii :=
  let n := nat_of_ascii c in
  if (Nat.leb 97 n && Nat.leb n 122)%bool then ascii_of_nat (n - 32) else c.

Definition lower_ascii (c : ascii) : ascii :=
  let n := nat_of_ascii c in
  if (Nat.leb 65 n && Nat.leb n 90)%bool then ascii_of_nat (n + 32) else c.

Fixpoint string_map (f : ascii -> ascii) (s : string) : string :=
  match s with
  | EmptyString => EmptyString
  | String c rest => String (f c) (string_map f rest)
  end.

Definition upper (s : string) : string := string_map upper_ascii s.

Definition capitalize (s : string) : string :=
  match s with
  | EmptyString => EmptyString
  | String c rest => String (upper_ascii c) (string_map lower_ascii rest)
  end.

(** The numeric reading of a value: sort keys and table arithmetic are exact
    rationals; a standard deviation is read as a real. *)
Definition number (v : value) : outcome Q :=
  match v with
  | VInt z => Ok (inject_Z z)
  | VNum q => Ok q
  | _ => Raise TypeError
  end.

Definition real (v : value) : outcome R :=
  match v with
  | VInt z => Ok (IZR z)
  | VNum q => Ok (Q2R q)
  | VReal r => Ok r
  | _ => Raise TypeError
  end.

(** ** The library functions the script calls

    [sorted], [min], [max] and the [statistics] module are Python's own; they
    are modelled after their documented behaviour on exact numbers. *)

Section StableSort.
Context {A : Type} (key : A -> Q).

(** [x] comes from an earlier input position than every element of [l], so it
    is placed in front of the first element whose key is not smaller. *)
Fixpoint insert_by (x : A) (l : list A) : list A :=
  match l with
  | [] => [x]
  | y :: rest =>
      if Qle_bool (key x) (key y) then x :: y :: rest
      else y :: insert_by x rest
  end.

(** The stable ascending sort of [l] by [key]. *)
Fixpoint sort_by (l : list A) : list A :=
  match l with
  | [] => []
  | x :: rest => insert_by x (sort_by rest)
  end.
End StableSort.

(** [sorted(items, key=f)]: the keys are computed first, one call per item in
    input order, so a failing key function raises before anything is ordered. *)
Definition sorted {A} (key : A -> outcome Q) (items : list A) : outcome (list A) :=
  obind (mapM (fun x => obind (key x) (fun k => Ok (k, x))) items)
        (fun decorated => Ok (map snd (sort_by fst decorated))).

(** [min(l)] and [max(l)]: the first smallest, respectively largest, element. *)
Definition py_min (l : list Q) : outcome Q :=
  match l with
  | [] => Raise ValueError
  | x :: rest =>
      Ok (fold_left (fun m y => match y ?= m with Lt => y | _ => m end)%Q rest x)
  end.

Definition py_max (l : list Q) : outcome Q :=
  match l with
  | [] => Raise ValueError
  | x :: rest =>
      Ok (fold_left (fun m y => match y ?= m with Gt => y | _ => m end)%Q rest x)
  end.

(** [statistics.median]: the middle element of the sorted data, or the mean of
    the two middle elements when their number is even. *)
Definition median (data : list Q) : outcome Q :=
  let data := sort_by (fun x => x) data in
  let n := List.length data in
  if Nat.eqb n 0 then Raise StatisticsError
  else if Nat.eqb (n mod 2) 1 then
    match nth_error data (n / 2)%nat with
    | Some x => Ok x
    | None => Raise IndexError
    end
  else
    let i := (n / 2)%nat in
    match nth_error data (i - 1), nth_error data i with
    | Some a, Some b => Ok ((a + b) / 2)%Q
    | _, _ => Raise IndexError
    end.

Definition Qsum (l : list Q) : Q := fold_right Qplus 0%Q l.

Definition mean (data : list Q) : Q :=
  (Qsum data / inject_Z (Z.of_nat (List.length data)))%Q.

(** The sample variance: squared deviations from the mean over [n - 1]. *)
Definition variance (data : list Q) : Q :=
  let m := mean data in
  (Qsum (map (fun x => (x - m) * (x - m)) data)
   / inject_Z (Z.of_nat (List.length data) - 1))%Q.

(** [statistics.stdev]: needs two data points. *)
Definition stdev (data : list Q) : outcome R :=
  if Nat.ltb (List.length data) 2 then Raise StatisticsError
  else Ok (sqrt (Q2R (variance data))).

(** ** The script *)

Section Script.
(** The collaborators: the external measurement process (its answer may
    depend on everything spawned before), [json.loads] on its standard output
    ([None] is [JSONDecodeError]) and [Path.exists]. *)
Variable subprocess_run :
  list (list string * CompletedProcess) -> list string -> CompletedProcess.
Variable json_loads : string -> option document.
Variable path_exists : string -> bool.

Definition spawn (cmd : list string) : M CompletedProcess :=
  fun w =>
    let p := subprocess_run (spawned w) cmd in
    (Ok p, {| spawned := spawned w ++ [(cmd, p)];
              printed := printed w;
              files := files w |}).

(** The command line assembled by [run_benchmark]. *)
Definition command (binary config : string) (iterations tree_size batches
    batch_size : Z) (record_rampup : bool) (seed taskset_core : Z)
    : list string :=
  (if taskset_core >=? 0 then ["taskset"; "-c"; str taskset_core] else [])
  ++ [binary; "-j"; "-i"; str iterations; "-t"; str tree_size;
      "-b"; str batches; "-s"; str batch_size; "-d"; str seed; config]
  ++ (if record_rampup then [] else ["-r"; "false"]).

Definition run_benchmark (binary config : string) (iterations tree_size
    batches batch_size : Z) (record_rampup : bool) (seed taskset_core : Z)
    : M document :=
  let cmd := command binary config iterations tree_size batches batch_size
                     record_rampup seed taskset_core in
  print (VFormat "  Running: {}..." [VStr config]) ;;
  result <- spawn cmd ;;
  if negb (returncode result =? 0) then
    (* except subprocess.CalledProcessError *)
    print (VFormat " ✗ (exit code {})" [VInt (returncode result)]) ;;
    print (VFormat "Error output: {}" [VStr (stderr result)]) ;;
    sys_exit 1
  else
    match json_loads (stdout result) with
    | Some data =>
        print (VStr " ✓") ;;
        ret data
    | None =>
        (* except json.JSONDecodeError *)
        print (VStr " ✗ (invalid JSON)") ;;
        print (VFormat "Output: {}" [VStr (substring 0 200 (stdout result))]) ;;
        sys_exit 1
    end.

(** [results[config].append(result)] on a [defaultdict(list)]. *)
Fixpoint append_result (config : string) (result : document)
    (results : dict (list document)) : dict (list document) :=
  match results with
  | [] => [(config, [result])]
  | (k, l) :: rest =>
      if String.eqb k config then (k, l ++ [result]) :: rest
      else (k, l) :: append_result config result rest
  end.

Definition interleaved_benchmark (binary : string) (configs : list string)
    (num_passes iterations tree_size batches batch_size : Z)
    (record_rampup : bool) (seed taskset_core : Z)
    : M (dict (list document)) :=
  for_each (range 1 (num_passes + 1))
    (fun pass_num results =>
       order <-
         (if pass_num mod 2 =? 1 then
            print (VFormat "Pass {}/{} (forward: {})"
                     [VInt pass_num; VInt num_passes;
                      VStr (join " → " configs)]) ;;
            ret configs
          else
            print (VFormat "Pass {}/{} (reverse: {})"
                     [VInt pass_num; VInt num_passes;
                      VStr (join " → " (rev configs))]) ;;
            ret (rev configs)) ;;
       for_each order
         (fun config results =>
            result <- run_benchmark binary config iterations tree_size
                        batches batch_size record_rampup seed taskset_core ;;
            ret (append_result config result results))
         results)
    [].

(** [[r["performance"][op][pct] for r in pass_results]] *)
Definition column (op pct : string) (pass_results : list document)
    : outcome (list Q) :=
  mapM (fun r => obind (getitem r "performance") (fun perf =>
                 obind (getitem perf op) (fun o => getitem o pct)))
       pass_results.

(** The five entries the dictionary literal holds for one tracked metric;
    the source writes them out for each of the six metrics. *)
Definition metric_entries (prefix : string) (values : list Q)
    : outcome stats_dict :=
  obind (median values) (fun med =>
  obind (py_min values) (fun lo =>
  obind (py_max values) (fun hi =>
  obind (if Nat.ltb 1 (List.length values)
         then obind (stdev values) (fun sd => Ok (VReal sd))
         else Ok (VInt 0)) (fun sd =>
  Ok [(prefix ++ "_median", VNum med)%string;
      (prefix ++ "_min", VNum lo)%string;
      (prefix ++ "_max", VNum hi)%string;
      (prefix ++ "_stdev", sd)%string;
      (prefix ++ "_values", VList values)%string])))).

(** The value sequences extracted inside the [try] block, in its order. *)
Record tracked_values : Type := {
  insert_p99_9_values : list Q;
  find_p99_9_values : list Q;
  erase_p99_9_values : list Q;
  insert_p50_values : list Q;
  find_p50_values : list Q;
  erase_p50_values : list Q
}.

Definition extract_values (pass_results : list document)
    : outcome tracked_values :=
  obind (column "insert" "p99_9" pass_results) (fun i999 =>
  obind (column "find" "p99_9" pass_results) (fun f999 =>
  obind (column "erase" "p99_9" pass_results) (fun e999 =>
  obind (column "insert" "p50" pass_results) (fun i50 =>
  obind (column "find" "p50" pass_results) (fun f50 =>
  obind (column "erase" "p50" pass_results) (fun e50 =>
  Ok {| insert_p99_9_values := i999; find_p99_9_values := f999;
        erase_p99_9_values := e999; insert_p50_values := i50;
        find_p50_values := f50; erase_p50_values := e50 |})))))).

(** The dictionary literal assigned to [aggregated[config]]. *)
Definition aggregate_record (pass_results : list document)
    (v : tracked_values) : outcome stats_dict :=
  obind (metric_entries "insert_p99_9" (insert_p99_9_values v)) (fun i999 =>
  obind (metric_entries "insert_p50" (insert_p50_values v)) (fun i50 =>
  obind (metric_entries "find_p99_9" (find_p99_9_values v)) (fun f999 =>
  obind (metric_entries "find_p50" (find_p50_values v)) (fun f50 =>
  obind (metric_entries "erase_p99_9" (erase_p99_9_values v)) (fun e999 =>
  obind (metric_entries "erase_p50" (erase_p50_values v)) (fun e50 =>
  obind (match nth_error pass_results (List.length pass_results / 2)%nat with
         | Some r => getitem r "performance"
         | None => Raise IndexError
         end) (fun median_run =>
  Ok ([("passes", VInt (Z.of_nat (List.length pass_results)))]
      ++ i999 ++ i50 ++ f999 ++ f50 ++ e999 ++ e50
      ++ [("median_run", VPerf median_run)])))))))).

Definition aggregate_results (results : dict (list document))
    : M (dict stats_dict) :=
  for_each results
    (fun '(config, pass_results) aggregated =>
       match pass_results with
       | [] =>
           print (VFormat "WARNING: No results collected for config '{}'"
                    [VStr config]) ;;
           ret aggregated
       | first :: _ =>
           match extract_values pass_results with
           | Ok v =>
               record <- lift (aggregate_record pass_results v) ;;
               ret (setitem config record aggregated)
           | Raise (KeyError e) =>
               print (VFormat
                        "ERROR: Missing key {} in performance data for config '{}'"
                        [VStr e; VStr config]) ;;
               print (VFormat "Sample result keys: {}" [VKeys (keys first)]) ;;
               sys_exit 1
           | Raise e => raise e
           end
       end)
    [].

Definition rule : value := VStr (string_repeat "=" 100).
Definition dashes : value := VStr (string_repeat "-" 100).

Definition median_of (key : string) (item : string * stats_dict) : outcome Q :=
  obind (getitem (snd item) key) number.

Definition print_comparison_table (aggregated : dict stats_dict)
    (title metric_key metric_label : string) (show_variance : bool)
    : M unit :=
  print rule ;;
  print (VStr title) ;;
  print rule ;;
  (* Sort by metric median (best to worst) *)
  let median_key := (metric_key ++ "_median")%string in
  sorted_configs <- lift (sorted (median_of median_key) aggregated) ;;
  (* Find baseline (first config) *)
  match sorted_configs with
  | [] => print (VFormat "ERROR: No configs to compare for {}" [VStr title])
  | (winner_config, winner_stats) :: _ =>
      baseline <- lift (median_of median_key (winner_config, winner_stats)) ;;
      if Qeq_bool baseline 0 then
        print (VFormat "ERROR: Baseline is zero for metric '{}'"
                 [VStr metric_key]) ;;
        print (VFormat "  Winner config: {}" [VStr winner_config]) ;;
        print (VFormat "  Winner stats: {}" [VDict winner_stats]) ;;
        sys_exit 1
      else
        (if show_variance then
           print (VFormat
                    "{:<30} {:<8} {:<14} {:<10} {:<10} {:<10} {:<10}"
                    [VStr "Config"; VStr "Passes"; VStr metric_label;
                     VStr "Min"; VStr "Max"; VStr "StdDev"; VStr "vs Best"])
         else
           print (VFormat "{:<30} {:<14} {:<10} {:<10}"
                    [VStr "Config"; VStr metric_label; VStr "StdDev";
                     VStr "vs Best"])) ;;
        print dashes ;;
        for_each sorted_configs
          (fun '(config, stats) _ =>
             median_val <- lift (getitem stats median_key) ;;
             stdev_val <- lift (getitem stats (metric_key ++ "_stdev")%string) ;;
             (* Calculate percentage difference from baseline *)
             m <- lift (number median_val) ;;
             let diff_pct :=
               if negb (Qeq_bool baseline 0)
               then VNum ((m - baseline) / baseline * 100)%Q
               else if Qeq_bool m 0 then VNum 0%Q else VStr "inf" in
             (* Mark winner *)
             let marker :=
               if String.eqb config winner_config then "⭐" else "  " in
             let diff_str :=
               if String.eqb config winner_config then VStr "baseline"
               else if Qeq_bool baseline 0 then VStr "N/A"
               else VFormat "{:+.2f}%" [diff_pct] in
             if show_variance then
               min_val <- lift (getitem stats (metric_key ++ "_min")%string) ;;
               max_val <- lift (getitem stats (metric_key ++ "_max")%string) ;;
               passes <- lift (getitem stats "passes") ;;
               print (VFormat
                        "{} {:<28} {:<8} {:<14.1f} {:<10.1f} {:<10.1f} {:<10.2f} {:<10}"
                        [VStr marker; VStr config; passes; median_val;
                         min_val; max_val; stdev_val; diff_str])
             else
               print (VFormat "{} {:<28} {:<14.1f} {:<10.2f} {:<10}"
                        [VStr marker; VStr config; median_val; stdev_val;
                         diff_str]))
          tt ;;
        print rule ;;
        (* Variance analysis for winner (if requested) *)
        if show_variance then
          print (VFormat "🏆 Winner: {}" [VStr winner_config]) ;;
          print (VStr "Variance analysis:") ;;
          min_val <- lift (obind (getitem winner_stats (metric_key ++ "_min")%string) number) ;;
          max_val <- lift (obind (getitem winner_stats (metric_key ++ "_max")%string) number) ;;
          median_val <- lift (obind (getitem winner_stats median_key) number) ;;
          stdev_val <- lift (obind (getitem winner_stats (metric_key ++ "_stdev")%string) real) ;;
          print (VFormat "  Range: {:.1f} ns ({:.2f}%)"
                   [VNum (max_val - min_val)%Q;
                    VNum ((max_val - min_val) / median_val * 100)%Q]) ;;
          print (VFormat "  StdDev: {:.2f} ns ({:.2f}%)"
                   [VReal stdev_val;
                    VReal (stdev_val / Q2R median_val * 100)%R])
        else ret tt
  end.

Definition print_detailed_percentiles (aggregated : dict stats_dict)
    (operation : string) : M unit :=
  (* Find winner by operation P99.9 *)
  let metric_key := (operation ++ "_p99_9_median")%string in
  sorted_configs <- lift (sorted (median_of metric_key) aggregated) ;;
  match sorted_configs with
  | [] => raise IndexError
  | (winner_config, winner_stats) :: _ =>
      print rule ;;
      print (VFormat "DETAILED PERCENTILES - {} (P99.9 Winner for {})"
               [VStr winner_config; VStr (upper operation)]) ;;
      print rule ;;
      run <- lift (getitem winner_stats "median_run") ;;
      match run with
      | VPerf perf =>
          median_run <- lift (getitem perf operation) ;;
          print (VFormat "{} latencies (from median run):"
                   [VStr (capitalize operation)]) ;;
          p0 <- lift (getitem median_run "p0") ;;
          print (VFormat "  P0:     {:>10.2f} ns" [VNum p0]) ;;
          p50 <- lift (getitem median_run "p50") ;;
          print (VFormat "  P50:    {:>10.2f} ns" [VNum p50]) ;;
          p95 <- lift (getitem median_run "p95") ;;
          print (VFormat "  P95:    {:>10.2f} ns" [VNum p95]) ;;
          p99 <- lift (getitem median_run "p99") ;;
          print (VFormat "  P99:    {:>10.2f} ns" [VNum p99]) ;;
          p99_9 <- lift (getitem median_run "p99_9") ;;
          print (VFormat "  P99.9:  {:>10.2f} ns" [VNum p99_9]) ;;
          p99_99 <- lift (getitem median_run "p99_99") ;;
          print (VFormat "  P99.99: {:>10.2f} ns" [VNum p99_99]) ;;
          print rule
      | _ => raise TypeError
      end
  end.

(** [output_file.open('w')] creates or truncates the file; [writerow]
    appends one row to it. *)
Definition open_csv (path : string) : M unit :=
  fun w => (Ok tt, {| spawned := spawned w;
                      printed := printed w;
                      files := setitem path (Csv []) (files w) |}).

Definition writerow (path : string) (row : list value) : M unit :=
  fun w =>
    let rows := match get path (files w) with
                | Some (Csv rows) => rows
                | _ => []
                end in
    (Ok tt, {| spawned := spawned w;
               printed := printed w;
               files := setitem path (Csv (rows ++ [row])) (files w) |}).

Definition csv_header : list string :=
  ["config"; "passes";
   "insert_p99_9_median"; "insert_p99_9_min"; "insert_p99_9_max"; "insert_p99_9_stdev";
   "find_p99_9_median"; "find_p99_9_min"; "find_p99_9_max"; "find_p99_9_stdev";
   "erase_p99_9_median"; "erase_p99_9_min"; "erase_p99_9_max"; "erase_p99_9_stdev"].

Definition export_csv (aggregated : dict stats_dict) (output_file : string)
    : M unit :=
  open_csv output_file ;;
  (* Header *)
  writerow output_file (map VStr csv_header) ;;
  (* Data rows *)
  rows <- lift (sorted (median_of "insert_p99_9_median") aggregated) ;;
  for_each rows
    (fun '(config, stats) _ =>
       cells <- lift (mapM (getitem stats)
                  ["passes";
                   "insert_p99_9_median"; "insert_p99_9_min";
                   "insert_p99_9_max"; "insert_p99_9_stdev";
                   "find_p99_9_median"; "find_p99_9_min";
                   "find_p99_9_max"; "find_p99_9_stdev";
                   "erase_p99_9_median"; "erase_p99_9_min";
                   "erase_p99_9_max"; "erase_p99_9_stdev"]) ;;
       writerow output_file (VStr config :: cells))
    tt ;;
  print (VFormat "✓ Exported CSV to {}" [VStr output_file]).

Definition export_json (results : dict (list document)) (output_file : string)
    : M unit :=
  (fun w => (Ok tt, {| spawned := spawned w;
                       printed := printed w;
                       files := setitem output_file (Json results) (files w) |})) ;;
  print (VFormat "✓ Exported raw JSON to {}" [VStr output_file]).

(** The namespace returned by [parser.parse_args()]. *)
Record arguments : Type := {
  arg_binary : string;
  arg_configs : list string;
  arg_passes : Z;
  arg_iterations : Z;
  arg_tree_size : Z;
  arg_batches : Z;
  arg_batch_size : Z;
  arg_no_record_rampup : bool;
  arg_seed : Z;
  arg_taskset : Z;
  arg_csv : option string;
  arg_json : option string
}.

(** Everything [main] does on the three result tables and reports. *)
Definition report (aggregated : dict stats_dict) : M unit :=
  print rule ;;
  print (VStr "INTERLEAVED BENCHMARK RESULTS") ;;
  print rule ;;
  print_comparison_table aggregated "INSERT P99.9 LATENCY COMPARISON"
    "insert_p99_9" "P99.9 Median (ns)" true ;;
  print_comparison_table aggregated "INSERT P50 (MEDIAN) LATENCY COMPARISON"
    "insert_p50" "P50 Median (ns)" true ;;
  print_comparison_table aggregated "FIND P99.9 LATENCY COMPARISON"
    "find_p99_9" "P99.9 Median (ns)" true ;;
  print_comparison_table aggregated "FIND P50 (MEDIAN) LATENCY COMPARISON"
    "find_p50" "P50 Median (ns)" true ;;
  print_comparison_table aggregated "ERASE P99.9 LATENCY COMPARISON"
    "erase_p99_9" "P99.9 Median (ns)" true ;;
  print_comparison_table aggregated "ERASE P50 (MEDIAN) LATENCY COMPARISON"
    "erase_p50" "P50 Median (ns)" true ;;
  print_detailed_percentiles aggregated "insert" ;;
  print_detailed_percentiles aggregated "find" ;;
  print_detailed_percentiles aggregated "erase".

Definition main (args : arguments) : M unit :=
  (* Validate inputs *)
  if negb (path_exists (arg_binary args)) then
    print (VFormat "Error: Binary not found: {}" [VStr (arg_binary args)]) ;;
    sys_exit 1
  else if arg_passes args <? 2 then
    print (VStr "Error: Need at least 2 passes for interleaved testing") ;;
    sys_exit 1
  else
    (* Print configuration *)
    print rule ;;
    print (VStr "INTERLEAVED BENCHMARK CONFIGURATION") ;;
    print rule ;;
    print (VFormat "Binary:       {}" [VStr (arg_binary args)]) ;;
    print (VFormat "Configs:      {}" [VStr (join ", " (arg_configs args))]) ;;
    print (VFormat "Passes:       {}" [VInt (arg_passes args)]) ;;
    print (VFormat "Iterations:   {}" [VInt (arg_iterations args)]) ;;
    print (VFormat "Tree size:    {:,}" [VInt (arg_tree_size args)]) ;;
    print (VFormat "Batches:      {}" [VInt (arg_batches args)]) ;;
    print (VFormat "Batch size:   {}" [VInt (arg_batch_size args)]) ;;
    print (VFormat "Seed:         {}" [VInt (arg_seed args)]) ;;
    (if arg_taskset args >=? 0 then
       print (VFormat "CPU core:     {} (pinned with taskset)"
                [VInt (arg_taskset args)])
     else ret tt) ;;
    print rule ;;
    (* Run interleaved benchmarks *)
    results <- interleaved_benchmark (arg_binary args) (arg_configs args)
                 (arg_passes args) (arg_iterations args) (arg_tree_size args)
                 (arg_batches args) (arg_batch_size args)
                 (negb (arg_no_record_rampup args)) (arg_seed args)
                 (arg_taskset args) ;;
    (* Aggregate results *)
    aggregated <- aggregate_results results ;;
    (* Print comparison tables and detailed percentiles *)
    report aggregated ;;
    (* Export if requested *)
    match arg_csv args with
    | Some path => export_csv aggregated path
    | None => ret tt
    end ;;
    match arg_json args with
    | Some path => export_json results path
    | None => ret tt
    end ;;
    print (VStr "✓ Benchmark complete!").
End Script.

(** * Specification vocabulary *)

(** ** Ranking keys *)

(** The order of a ranking: by key, ascending. *)
Definition key_le {A} (key : A -> Q) (a b : A) : Prop := (key a <= key b)%Q.

(** The key a successful key function assigns. *)
Definition key_of {A} (key : A -> outcome Q) (x : A) : Q :=
  match key x with
  | Ok q => q
  | Raise _ => 0%Q
  end.

(** ** Worlds *)

Definition empty_world : world := {| spawned := []; printed := []; files := [] |}.

Definition add_lines (w : world) (lines : list value) : world :=
  {| spawned := spawned w; printed := printed w ++ lines; files := files w |}.

Definition spawn_world (w : world) (cmd : list string) (p : CompletedProcess)
    : world :=
  {| spawned := spawned w ++ [(cmd, p)]; printed := printed w; files := files w |}.

Definition with_csv (w : world) (path : string) (rows : list (list value))
    : world :=
  {| spawned := spawned w;
     printed := printed w;
     files := setitem path (Csv rows) (files w) |}.

(** A computation that starts no process. *)
Definition quiet {A} (m : M A) : Prop :=
  forall w, spawned (snd (m w)) = spawned w.

(** ** Aggregation *)

(** The tracked metrics: three operations, two percentiles each. *)
Definition operations : list string := ["insert"; "find"; "erase"].
Definition tracked_percentiles : list string := ["p50"; "p99_9"].
Definition metric_prefix (op pct : string) : string := (op ++ "_" ++ pct)%string.

(** The value stored under [<metric>_stdev]. *)
Definition stdev_entry (values : list Q) : value :=
  if Nat.ltb 1 (List.length values)
  then VReal (sqrt (Q2R (variance values)))
  else VInt 0.

(** The body of the loop of [aggregate_results]. *)
Definition aggregate_config
    : string * list document -> dict stats_dict -> M (dict stats_dict) :=
  fun '(config, pass_results) aggregated =>
  match pass_results with
  | [] =>
      print (VFormat "WARNING: No results collected for config '{}'"
               [VStr config]) ;;
      ret aggregated
  | first :: _ =>
      match extract_values pass_results with
      | Ok v =>
          record <- lift (aggregate_record pass_results v) ;;
          ret (setitem config record aggregated)
      | Raise (KeyError e) =>
          print (VFormat
                   "ERROR: Missing key {} in performance data for config '{}'"
                   [VStr e; VStr config]) ;;
          print (VFormat "Sample result keys: {}" [VKeys (keys first)]) ;;
          sys_exit 1
      | Raise e => raise e
      end
  end.

(** The six sequences of [extract_values], by operation and percentile. *)
Definition values_of (v : tracked_values) (op pct : string) : list Q :=
  if String.eqb op "insert" then
    if String.eqb pct "p50" then insert_p50_values v else insert_p99_9_values v
  else if String.eqb op "find" then
    if String.eqb pct "p50" then find_p50_values v else find_p99_9_values v
  else
    if String.eqb pct "p50" then erase_p50_values v else erase_p99_9_values v.

(** A document with all six tracked fields. *)
Definition complete (r : document) : Prop :=
  forall op pct, In op operations -> In pct tracked_percentiles ->
    exists q, column op pct [r] = Ok [q].

(** [q] is the value of the metric in document [r]. *)
Definition metric_value (op pct : string) (r : document) (q : Q) : Prop :=
  exists perf o,
    get "performance" r = Some perf /\ get op perf = Some o /\ get pct o = Some q.

(** The four statistics of a metric. *)
Definition statistics : list string := ["median"; "min"; "max"; "stdev"].

Definition metric_columns (pct : string) : list string :=
  flat_map (fun op => map (fun stat => (metric_prefix op pct ++ "_" ++ stat)%string)
                          statistics)
           operations.

(** ** Ranking and reports *)

(** The stored value of a key that is present. *)
Definition field (k : string) (s : stats_dict) : value :=
  match get k s with
  | Some v => v
  | None => VStr ""
  end.

(** The median a dictionary stores for the key the table is ranked by. *)
Definition median_at (median_key : string) (item : string * stats_dict) : Q :=
  key_of (median_of median_key) item.

(** What [print_comparison_table] needs of a dictionary: the statistics of the
    metric, with a rational median, and the pass count. *)
Definition has_metric (metric_key : string) (s : stats_dict) : Prop :=
  exists med lo hi sd sdr passes,
    get (metric_key ++ "_median")%string s = Some (VNum med)
    /\ get (metric_key ++ "_min")%string s = Some (VNum lo)
    /\ get (metric_key ++ "_max")%string s = Some (VNum hi)
    /\ get (metric_key ++ "_stdev")%string s = Some sd
    /\ real sd = Ok sdr
    /\ get "passes" s = Some passes.

(** One line of the table, given its marker and its "vs Best" cell. *)
Definition table_row (metric_key : string) (show_variance : bool)
    (marker : string) (diff_str : value) (item : string * stats_dict) : value :=
  let '(config, stats) := item in
  if show_variance then
    VFormat "{} {:<28} {:<8} {:<14.1f} {:<10.1f} {:<10.1f} {:<10.2f} {:<10}"
      [VStr marker; VStr config; field "passes" stats;
       field (metric_key ++ "_median")%string stats;
       field (metric_key ++ "_min")%string stats;
       field (metric_key ++ "_max")%string stats;
       field (metric_key ++ "_stdev")%string stats; diff_str]
  else
    VFormat "{} {:<28} {:<14.1f} {:<10.2f} {:<10}"
      [VStr marker; VStr config;
       field (metric_key ++ "_median")%string stats;
       field (metric_key ++ "_stdev")%string stats; diff_str].

Definition table_header (metric_label : string) (show_variance : bool) : value :=
  if show_variance then
    VFormat "{:<30} {:<8} {:<14} {:<10} {:<10} {:<10} {:<10}"
      [VStr "Config"; VStr "Passes"; VStr metric_label;
       VStr "Min"; VStr "Max"; VStr "StdDev"; VStr "vs Best"]
  else
    VFormat "{:<30} {:<14} {:<10} {:<10}"
      [VStr "Config"; VStr metric_label; VStr "StdDev"; VStr "vs Best"].

(** The signed percentage of a median against the baseline. *)
Definition deviation (baseline m : Q) : value :=
  VFormat "{:+.2f}%" [VNum ((m - baseline) / baseline * 100)%Q].

(** The body of the row loop of [print_comparison_table] and its closing
    variance analysis. *)
Definition table_line (metric_key : string) (show_variance : bool)
    (winner_config : string) (baseline : Q)
    : string * stats_dict -> unit -> M unit :=
  fun '(config, stats) _ =>
    median_val <- lift (getitem stats (metric_key ++ "_median")%string) ;;
    stdev_val <- lift (getitem stats (metric_key ++ "_stdev")%string) ;;
    m <- lift (number median_val) ;;
    let diff_pct :=
      if negb (Qeq_bool baseline 0)
      then VNum ((m - baseline) / baseline * 100)%Q
      else if Qeq_bool m 0 then VNum 0%Q else VStr "inf" in
    let marker := if String.eqb config winner_config then "⭐" else "  " in
    let diff_str :=
      if String.eqb config winner_config then VStr "baseline"
      else if Qeq_bool baseline 0 then VStr "N/A"
      else VFormat "{:+.2f}%" [diff_pct] in
    if show_variance then
      min_val <- lift (getitem stats (metric_key ++ "_min")%string) ;;
      max_val <- lift (getitem stats (metric_key ++ "_max")%string) ;;
      passes <- lift (getitem stats "passes") ;;
      print (VFormat
               "{} {:<28} {:<8} {:<14.1f} {:<10.1f} {:<10.1f} {:<10.2f} {:<10}"
               [VStr marker; VStr config; passes; median_val;
                min_val; max_val; stdev_val; diff_str])
    else
      print (VFormat "{} {:<28} {:<14.1f} {:<10.2f} {:<10}"
               [VStr marker; VStr config; median_val; stdev_val; diff_str]).

Definition variance_analysis (metric_key winner_config : string)
    (winner_stats : stats_dict) : M unit :=
  print (VFormat "🏆 Winner: {}" [VStr winner_config]) ;;
  print (VStr "Variance analysis:") ;;
  min_val <- lift (obind (getitem winner_stats (metric_key ++ "_min")%string) number) ;;
  max_val <- lift (obind (getitem winner_stats (metric_key ++ "_max")%string) number) ;;
  median_val <- lift (obind (getitem winner_stats (metric_key ++ "_median")%string) number) ;;
  stdev_val <- lift (obind (getitem winner_stats (metric_key ++ "_stdev")%string) real) ;;
  print (VFormat "  Range: {:.1f} ns ({:.2f}%)"
           [VNum (max_val - min_val)%Q;
            VNum ((max_val - min_val) / median_val * 100)%Q]) ;;
  print (VFormat "  StdDev: {:.2f} ns ({:.2f}%)"
           [VReal stdev_val;
            VReal (stdev_val / Q2R median_val * 100)%R]).

Definition zero_baseline_report (metric_key winner_config : string)
    (winner_stats : stats_dict) : list value :=
  [VFormat "ERROR: Baseline is zero for metric '{}'" [VStr metric_key];
   VFormat "  Winner config: {}" [VStr winner_config];
   VFormat "  Winner stats: {}" [VDict winner_stats]].

(** The six percentiles printed for the winner. *)
Definition ladder_lines (p0 p50 p95 p99 p99_9 p99_99 : Q) : list value :=
  [VFormat "  P0:     {:>10.2f} ns" [VNum p0];
   VFormat "  P50:    {:>10.2f} ns" [VNum p50];
   VFormat "  P95:    {:>10.2f} ns" [VNum p95];
   VFormat "  P99:    {:>10.2f} ns" [VNum p99];
   VFormat "  P99.9:  {:>10.2f} ns" [VNum p99_9];
   VFormat "  P99.99: {:>10.2f} ns" [VNum p99_99]].

(** The stored representative run has the whole ladder of the operation. *)
Definition has_ladder (operation : string) (s : stats_dict)
    (p0 p50 p95 p99 p99_9 p99_99 : Q) : Prop :=
  exists perf median_run,
    get "median_run" s = Some (VPerf perf)
    /\ get operation perf = Some median_run
    /\ get "p0" median_run = Some p0
    /\ get "p50" median_run = Some p50
    /\ get "p95" median_run = Some p95
    /\ get "p99" median_run = Some p99
    /\ get "p99_9" median_run = Some p99_9
    /\ get "p99_99" median_run = Some p99_99.

(** ** CSV export *)

(** The statistics columns of the CSV file, after the configuration name. *)
Definition csv_stat_keys : list string :=
  ["passes";
   "insert_p99_9_median"; "insert_p99_9_min";
   "insert_p99_9_max"; "insert_p99_9_stdev";
   "find_p99_9_median"; "find_p99_9_min";
   "find_p99_9_max"; "find_p99_9_stdev";
   "erase_p99_9_median"; "erase_p99_9_min";
   "erase_p99_9_max"; "erase_p99_9_stdev"].

Definition csv_row (item : string * stats_dict) : list value :=
  VStr (fst item) :: map (fun k => field k (snd item)) csv_stat_keys.

Definition csv_line (output_file : string)
    : string * stats_dict -> unit -> M unit :=
  fun '(config, stats) _ =>
    cells <- lift (mapM (getitem stats) csv_stat_keys) ;;
    writerow output_file (VStr config :: cells).

Definition has_csv_fields (s : stats_dict) : Prop :=
  forall k, In k csv_stat_keys -> get k s <> None.

(** The columns the export would need for both tracked percentiles. *)
Definition both_percentile_columns : list string :=
  "config" :: "passes" :: metric_columns "p99_9" ++ metric_columns "p50".

(** ** The interleaved sampler *)

(** The visiting order of a pass and the passes of a run. *)
Definition pass_order (pass_num : Z) (configs : list string) : list string :=
  if pass_num mod 2 =? 1 then configs else rev configs.

Definition schedule (num_passes : Z) (configs : list string)
    : list (list string) :=
  map (fun pass_num => pass_order pass_num configs) (range 1 (num_passes + 1)).

(** The visits of a run, each with the number of its pass. *)
Definition schedule_visits (num_passes : Z) (configs : list string)
    : list (Z * string) :=
  flat_map (fun pass_num => map (pair pass_num) (pass_order pass_num configs))
           (range 1 (num_passes + 1)).

(** The document an invocation delivered, if it delivered one. *)
Definition parsed (json_loads : string -> option document)
    (p : CompletedProcess) : option document :=
  if returncode p =? 0 then json_loads (stdout p) else None.

(** The two lines printed for a failed invocation. *)
Definition failure_report (p : CompletedProcess) : list value :=
  if negb (returncode p =? 0) then
    [VFormat " ✗ (exit code {})" [VInt (returncode p)];
     VFormat "Error output: {}" [VStr (stderr p)]]
  else
    [VStr " ✗ (invalid JSON)";
     VFormat "Output: {}" [VStr (substring 0 200 (stdout p))]].

Definition running_line (config : string) : value :=
  VFormat "  Running: {}..." [VStr config].

(** The documents appended to [results], in order of arrival. *)
Definition collect (arrivals : list (string * document))
    (results : dict (list document)) : dict (list document) :=
  fold_left (fun acc cd => append_result (fst cd) (snd cd) acc) arrivals results.

(** [results[config]] on the [defaultdict(list)]: a missing key reads as the
    empty list. *)
Definition result_sequence (config : string) (results : dict (list document))
    : list document :=
  match get config results with
  | Some l => l
  | None => []
  end.

(** The documents that arrived for a configuration, in order of arrival. *)
Definition arrivals_for (config : string) (arrivals : list (string * document))
    : list document :=
  map snd (filter (fun cd => String.eqb (fst cd) config) arrivals).

Section SamplerSteps.
Variable subprocess_run :
  list (list string * CompletedProcess) -> list string -> CompletedProcess.
Variable json_loads : string -> option document.
Variables (binary : string) (iterations tree_size batches batch_size : Z)
          (record_rampup : bool) (seed taskset_core : Z).

Definition command_for (config : string) : list string :=
  command binary config iterations tree_size batches batch_size
          record_rampup seed taskset_core.

(** The body of the inner loop of [interleaved_benchmark]. *)
Definition visit (config : string) (results : dict (list document))
    : M (dict (list document)) :=
  result <- run_benchmark subprocess_run json_loads binary config iterations
              tree_size batches batch_size record_rampup seed taskset_core ;;
  ret (append_result config result results).

(** The body of its outer loop. *)
Definition run_pass (configs : list string) (num_passes pass_num : Z)
    (results : dict (list document)) : M (dict (list document)) :=
  order <-
    (if pass_num mod 2 =? 1 then
       print (VFormat "Pass {}/{} (forward: {})"
                [VInt pass_num; VInt num_passes;
                 VStr (join " → " configs)]) ;;
       ret configs
     else
       print (VFormat "Pass {}/{} (reverse: {})"
                [VInt pass_num; VInt num_passes;
                 VStr (join " → " (rev configs))]) ;;
       ret (rev configs)) ;;
  for_each order visit results.

(** What a sequence of visits leaves behind: the invocations made, and
    either the results with one more document per visit, or exit status 1
    with the failed invocation last. *)
Definition visits_spec (order : list string) (results : dict (list document))
    (w : world) (r : outcome (dict (list document))) (w' : world) : Prop :=
  files w' = files w
  /\ exists tr,
       spawned w' = spawned w ++ tr
       /\ match r with
          | Ok results' =>
              exists docs,
                map fst tr = map command_for order
                /\ map (fun e => parsed json_loads (snd e)) tr = map Some docs
                /\ results' = collect (combine order docs) results
          | Raise e =>
              e = SystemExit 1
              /\ exists tr0 config p visited rest shown,
                   tr = tr0 ++ [(command_for config, p)]
                   /\ Forall (fun e => parsed json_loads (snd e) <> None) tr0
                   /\ parsed json_loads p = None
                   /\ order = visited ++ config :: rest
                   /\ map fst tr0 = map command_for visited
                   /\ printed w'
                      = shown ++ running_line config :: failure_report p
          end.
End SamplerSteps.

Definition command_dec : forall x y : list string, {x = y} + {x <> y} :=
  list_eq_dec string_dec.

(** ** Worked scenarios

    Two configurations, two passes: the measurement process answers its
    [n]-th invocation with the [n]-th document of [scenario_table]. Further
    runs: one with an idle configuration of zero latency, one whose third
    invocation crashes. *)

Definition ladder (x : Z) : dict Q :=
  [("p0", inject_Z (x / 2)); ("p50", inject_Z x); ("p95", inject_Z (x + 5));
   ("p99", inject_Z (x + 9)); ("p99_9", inject_Z (x + 20));
   ("p99_99", inject_Z (x + 50))].

Definition measurement (x : Z) : document :=
  [("performance",
    [("insert", ladder x); ("find", ladder (x + 1)); ("erase", ladder (x + 2))])].

Definition scenario_table : dict document :=
  [("0", measurement 100); ("1", measurement 110);
   ("2", measurement 108); ("3", measurement 104)].

Definition scenario_process (history : list (list string * CompletedProcess))
    (cmd : list string) : CompletedProcess :=
  {| returncode := 0;
     stdout := str (Z.of_nat (List.length history));
     stderr := "" |}.

Definition scenario_loads (s : string) : option document := get s scenario_table.

Definition scenario_results : dict (list document) :=
  [("A", [measurement 100; measurement 104]);
   ("B", [measurement 110; measurement 108])].

Definition scenario_aggregated : dict stats_dict :=
  match fst (aggregate_results scenario_results empty_world) with
  | Ok aggregated => aggregated
  | Raise _ => []
  end.

Definition idle_results : dict (list document) :=
  [("idle", [measurement 0]); ("busy", [measurement 7])].

Definition idle_aggregated : dict stats_dict :=
  match fst (aggregate_results idle_results empty_world) with
  | Ok aggregated => aggregated
  | Raise _ => []
  end.

Definition scenario_run : outcome (dict (list document)) * world :=
  interleaved_benchmark scenario_process scenario_loads "bin" ["A"; "B"] 2
    1 1000 100 1000 false 42 (-1) empty_world.

(** A run whose third invocation crashes. *)
Definition crashing_process (history : list (list string * CompletedProcess))
    (cmd : list string) : CompletedProcess :=
  if Nat.ltb (List.length history) 2 then scenario_process history cmd
  else {| returncode := 3; stdout := ""; stderr := "Segmentation fault" |}.

Definition scenario_args : arguments :=
  {| arg_binary := "bin";
     arg_configs := ["A"; "B"];
     arg_passes := 2;
     arg_iterations := 1;
     arg_tree_size := 1000;
     arg_batches := 100;
     arg_batch_size := 1000;
     arg_no_record_rampup := true;
     arg_seed := 42;
     arg_taskset := -1;
     arg_csv := Some "results.csv";
     arg_json := None |}.

Definition crashing_run : outcome unit * world :=
  main crashing_process scenario_loads (fun _ => true) scenario_args empty_world.

Definition crashing_invocation : list string * CompletedProcess :=
  nth 2 (spawned (snd crashing_run))
      ([], {| returncode := 0; stdout := ""; stderr := "" |}).

(** A run whose process prints the JSON object [{}] every time: valid JSON,
    but not a measurement document. *)
Definition hollow_process (history : list (list string * CompletedProcess))
    (cmd : list string) : CompletedProcess :=
  {| returncode := 0; stdout := "{}"; stderr := "" |}.

Definition hollow_loads (s : string) : option document :=
  if String.eqb s "{}" then Some [] else None.

Definition hollow_run : outcome (dict (list document)) * world :=
  interleaved_benchmark hollow_process hollow_loads "bin" ["A"; "B"] 2
    1 1000 100 1000 false 42 (-1) empty_world.

(** ** Further vocabulary *)

(** A result sequence with at least one document. *)
Definition has_results (item : string * list document) : bool :=
  match snd item with
  | [] => false
  | _ :: _ => true
  end.

(** The warning printed for each configuration without results. *)
Definition empty_warnings (results : dict (list document)) : list value :=
  map (fun item =>
         VFormat "WARNING: No results collected for config '{}'"
           [VStr (fst item)])
      (filter (fun item => negb (has_results item)) results).

(** The two lines printed when a tracked field is missing. *)
Definition missing_key_report (key config : string)
    (pass_results : list document) : list value :=
  [VFormat "ERROR: Missing key {} in performance data for config '{}'"
     [VStr key; VStr config];
   VFormat "Sample result keys: {}"
     [VKeys (keys (hd [] pass_results))]].

(** The keys a tracked lookup can miss. *)
Definition tracked_keys : list string :=
  "performance" :: operations ++ tracked_percentiles.


(** An aggregated dictionary from which one configuration got no results. *)
Definition sparse_results : dict (list document) :=
  [("A", [measurement 100]); ("idle", []); ("B", [measurement 110])].

Definition sparse_aggregated : dict stats_dict :=
  match fst (aggregate_results sparse_results empty_world) with
  | Ok aggregated => aggregated
  | Raise _ => []
  end.


(** The sampler alone on the run whose third invocation crashes. *)
Definition crashing_sampling : outcome (dict (list document)) * world :=
  interleaved_benchmark crashing_process scenario_loads "bin" ["A"; "B"] 2
    1 1000 100 1000 false 42 (-1) empty_world.

(** A computation that leaves a view of the file system as it was: all of it
    ([keeps_files]), or the file at one path ([leaves_file]). *)
Definition preserves {T A} (view : dict file -> T) (m : M A) : Prop :=
  forall w, view (files (snd (m w))) = view (files w).

Definition keeps_files {A} (m : M A) : Prop := preserves (fun fs => fs) m.

Definition leaves_file {A} (path : string) (m : M A) : Prop :=
  preserves (get path) m.

(** The banner of a pass, and everything a completed sampler run prints. *)
Definition pass_banner (configs : list string) (num_passes pass_num : Z)
    : value :=
  if pass_num mod 2 =? 1 then
    VFormat "Pass {}/{} (forward: {})"
      [VInt pass_num; VInt num_passes; VStr (join " → " configs)]
  else
    VFormat "Pass {}/{} (reverse: {})"
      [VInt pass_num; VInt num_passes; VStr (join " → " (rev configs))].

Definition visit_lines (config : string) : list value :=
  [running_line config; VStr " ✓"].

Definition progress_log (configs : list string) (num_passes : Z)
    : list value :=
  flat_map (fun pass_num =>
              pass_banner configs num_passes pass_num
              :: flat_map visit_lines (pass_order pass_num configs))
           (range 1 (num_passes + 1)).

(** The four lines that close a table printed with [show_variance]. *)
Definition variance_lines (winner_config : string) (med lo hi : Q) (sd : R)
    : list value :=
  [VFormat "🏆 Winner: {}" [VStr winner_config];
   VStr "Variance analysis:";
   VFormat "  Range: {:.1f} ns ({:.2f}%)"
     [VNum (hi - lo)%Q; VNum ((hi - lo) / med * 100)%Q];
   VFormat "  StdDev: {:.2f} ns ({:.2f}%)"
     [VReal sd; VReal (sd / Q2R med * 100)%R]].

(** A world with a file of its own. *)
Definition stocked_world : world :=
  {| spawned := [];
     printed := [];
     files := [("notes.txt", Csv [[VStr "kept"]])] |}.

(** Arguments of a complete run of [main] with both exports. *)
Definition export_args : arguments :=
  {| arg_binary := "bin";
     arg_configs := ["A"; "B"];
     arg_passes := 2;
     arg_iterations := 1;
     arg_tree_size := 1000;
     arg_batches := 100;
     arg_batch_size := 1000;
     arg_no_record_rampup := true;
     arg_seed := 42;
     arg_taskset := 3;
     arg_csv := Some "results.csv";
     arg_json := Some "raw.json" |}.

(** Documents with the two tracked percentiles of each operation and nothing
    else: enough for the aggregation, not for the detailed report. *)
Definition bare_ladder (x : Z) : dict Q :=
  [("p50", inject_Z x); ("p99_9", inject_Z (x + 20))].

Definition bare_measurement (x : Z) : document :=
  [("performance",
    [("insert", bare_ladder x); ("find", bare_ladder (x + 1));
     ("erase", bare_ladder (x + 2))])].

Definition bare_results : dict (list document) :=
  [("A", [bare_measurement 100; bare_measurement 104]);
   ("B", [bare_measurement 110; bare_measurement 108])].

Definition bare_aggregated : dict stats_dict :=
  match fst (aggregate_results bare_results empty_world) with
  | Ok aggregated => aggregated
  | Raise _ => []
  end.

(** * Properties *)

(** ** Dictionaries *)

Lemma get_In {V} (k : string) (v : V) (d : dict V) :
  get k d = Some v -> In (k, v) d.
Proof.
  induction d as [|[k' v'] d IH]; simpl; [discriminate|].
  destruct (String.eqb_spec k' k) as [->|Hne].
  - intros [= ->]. now left.
  - intros H. right. auto.
Qed.

Lemma In_get {V} (k : string) (v : V) (d : dict V) :
  dict_wf d -> In (k, v) d -> get k d = Some v.
Proof.
  unfold dict_wf, keys.
  induction d as [|[k' v'] d IH]; simpl; [contradiction|].
  intros Hwf [Heq|Hin].
  - injection Heq as -> ->. now rewrite String.eqb_refl.
  - inversion Hwf as [|? ? Hnotin Hwf']; subst.
    destruct (String.eqb_spec k' k) as [->|Hne]; [|auto].
    exfalso. apply Hnotin. change k with (fst (k, v)). now apply in_map.
Qed.

Lemma get_None_keys {V} (k : string) (d : dict V) :
  get k d = None <-> ~ In k (keys d).
Proof.
  unfold keys. induction d as [|[k' v'] d IH]; simpl.
  - tauto.
  - destruct (String.eqb_spec k' k) as [->|Hne].
    + split; [discriminate|]. intros H. exfalso. apply H. now left.
    + rewrite IH. split; [intros H [Heq|Hin]; [congruence|tauto] | tauto].
Qed.

Lemma get_app {V} (k : string) (d1 d2 : dict V) :
  get k (d1 ++ d2) = match get k d1 with Some v => Some v | None => get k d2 end.
Proof.
  induction d1 as [|[k' v'] d1 IH]; simpl; [reflexivity|].
  now destruct (String.eqb k' k).
Qed.

Lemma keys_setitem_new {V} (k : string) (v : V) (d : dict V) :
  ~ In k (keys d) -> setitem k v d = d ++ [(k, v)].
Proof.
  unfold keys. induction d as [|[k' v'] d IH]; simpl; [reflexivity|].
  intros Hnotin. destruct (String.eqb_spec k' k) as [->|Hne].
  - exfalso. apply Hnotin. now left.
  - f_equal. apply IH. tauto.
Qed.

(** ** The stable sort *)

Section StableSortFacts.
Context {A : Type} (key : A -> Q).

Lemma insert_by_perm (x : A) (l : list A) :
  Permutation (insert_by key x l) (x :: l).
Proof.
  induction l as [|y l IH]; simpl; [reflexivity|].
  destruct (Qle_bool (key x) (key y)); [reflexivity|].
  rewrite IH. apply perm_swap.
Qed.

Lemma sort_by_perm (l : list A) : Permutation (sort_by key l) l.
Proof.
  induction l as [|x l IH]; simpl; [reflexivity|].
  rewrite insert_by_perm. now constructor.
Qed.

Lemma sort_by_length (l : list A) :
  List.length (sort_by key l) = List.length l.
Proof. apply Permutation_length, sort_by_perm. Qed.

Lemma sort_by_In (x : A) (l : list A) : In x (sort_by key l) <-> In x l.
Proof.
  split; apply Permutation_in; [|symmetry]; apply sort_by_perm.
Qed.

Lemma insert_by_sorted (x : A) (l : list A) :
  StronglySorted (key_le key) l ->
  StronglySorted (key_le key) (insert_by key x l).
Proof.
  induction 1 as [|y l Hs IH Hall]; simpl.
  - repeat constructor.
  - destruct (Qle_bool (key x) (key y)) eqn:Hxy.
    + apply Qle_bool_iff in Hxy.
      constructor; [now constructor|].
      constructor; [exact Hxy|].
      eapply Forall_impl; [|exact Hall].
      intros z Hz. unfold key_le in *. now apply Qle_trans with (key y).
    + assert (Hyx : key_le key y x).
      { unfold key_le. apply Qlt_le_weak, Qnot_le_lt.
        intros Hle. apply Qle_bool_iff in Hle. congruence. }
      constructor; [exact IH|].
      eapply Permutation_Forall.
      * symmetry. apply insert_by_perm.
      * now constructor.
Qed.

Lemma sort_by_sorted (l : list A) :
  StronglySorted (key_le key) (sort_by key l).
Proof.
  induction l as [|x l IH]; simpl; [constructor|].
  now apply insert_by_sorted.
Qed.

(** Stability: elements with equal keys keep their input order. *)
Lemma insert_by_filter (q : Q) (x : A) (l : list A) :
  filter (fun y => Qeq_bool (key y) q) (insert_by key x l)
  = filter (fun y => Qeq_bool (key y) q) (x :: l).
Proof.
  induction l as [|y l IH]; [reflexivity|].
  cbn [insert_by].
  destruct (Qle_bool (key x) (key y)) eqn:Hxy; [reflexivity|].
  cbn [filter] in *. rewrite IH.
  destruct (Qeq_bool (key x) q) eqn:Hx; [|reflexivity].
  destruct (Qeq_bool (key y) q) eqn:Hy; [|reflexivity].
  exfalso. apply Qeq_bool_iff in Hx, Hy.
  assert (Hle : (key x <= key y)%Q) by (rewrite Hx, Hy; apply Qle_refl).
  apply Qle_bool_iff in Hle. congruence.
Qed.

Lemma sort_by_stable (q : Q) (l : list A) :
  filter (fun y => Qeq_bool (key y) q) (sort_by key l)
  = filter (fun y => Qeq_bool (key y) q) l.
Proof.
  induction l as [|x l IH]; [reflexivity|].
  cbn [sort_by]. rewrite insert_by_filter. cbn [filter]. now rewrite IH.
Qed.

(** The head of the sorted list has the least key. *)
Lemma sort_by_head_least (x : A) (rest l : list A) :
  sort_by key l = x :: rest -> forall y, In y l -> (key x <= key y)%Q.
Proof.
  intros Hs y Hy. apply sort_by_In in Hy. rewrite Hs in Hy.
  pose proof (sort_by_sorted l) as Hsorted. rewrite Hs in Hsorted.
  inversion Hsorted as [|? ? _ Hall]; subst.
  destruct Hy as [->|Hy]; [apply Qle_refl|].
  rewrite Forall_forall in Hall. now apply Hall.
Qed.
End StableSortFacts.

(** ** [mapM] and [sorted] *)

Lemma mapM_Ok_inv {A B} (f : A -> outcome B) (l : list A) (ys : list B) :
  mapM f l = Ok ys -> Forall2 (fun x y => f x = Ok y) l ys.
Proof.
  revert ys. induction l as [|x l IH]; simpl; intros ys H.
  - injection H as <-. constructor.
  - destruct (f x) as [y|] eqn:Hx; simpl in H; [|discriminate].
    destruct (mapM f l) as [ys'|]; simpl in H; [|discriminate].
    injection H as <-. constructor; auto.
Qed.

Lemma mapM_Ok {A B} (f : A -> outcome B) (l : list A) (ys : list B) :
  Forall2 (fun x y => f x = Ok y) l ys -> mapM f l = Ok ys.
Proof.
  induction 1 as [|x y l ys Hx _ IH]; simpl; [reflexivity|].
  now rewrite Hx, IH.
Qed.

Lemma mapM_map {A B} (f : A -> outcome B) (g : A -> B) (l : list A) :
  (forall x, In x l -> f x = Ok (g x)) -> mapM f l = Ok (map g l).
Proof.
  induction l as [|x l IH]; simpl; intros H; [reflexivity|].
  rewrite (H x) by now left. simpl. rewrite IH by auto. reflexivity.
Qed.

Lemma sort_by_decorated {A} (kf : A -> Q) (l : list A) :
  map snd (sort_by fst (map (fun x => (kf x, x)) l)) = sort_by kf l.
Proof.
  assert (Hins : forall x l',
    insert_by fst (kf x, x) (map (fun x => (kf x, x)) l')
    = map (fun x => (kf x, x)) (insert_by kf x l')).
  { intros x l'. induction l' as [|y l' IH]; simpl; [reflexivity|].
    destruct (Qle_bool (kf x) (kf y)); simpl; [reflexivity|].
    now rewrite IH. }
  assert (Hs : sort_by fst (map (fun x => (kf x, x)) l)
               = map (fun x => (kf x, x)) (sort_by kf l)).
  { induction l as [|x l IH]; simpl; [reflexivity|].
    now rewrite IH, Hins. }
  rewrite Hs, map_map. simpl. apply map_id.
Qed.

Lemma sorted_sort_by {A} (key : A -> outcome Q) (kf : A -> Q) (items : list A) :
  (forall x, In x items -> key x = Ok (kf x)) ->
  sorted key items = Ok (sort_by kf items).
Proof.
  intros H. unfold sorted.
  rewrite (mapM_map _ (fun x => (kf x, x))).
  - simpl. now rewrite sort_by_decorated.
  - intros x Hx. now rewrite (H x Hx).
Qed.

Lemma sorted_inv {A} (key : A -> outcome Q) (items r : list A) :
  sorted key items = Ok r ->
  (forall x, In x items -> key x = Ok (key_of key x))
  /\ r = sort_by (key_of key) items.
Proof.
  intros H.
  assert (Hk : forall x, In x items -> key x = Ok (key_of key x)).
  { unfold sorted in H.
    destruct (mapM _ items) as [dec|] eqn:Hm; [|discriminate].
    apply mapM_Ok_inv in Hm. clear H.
    induction Hm as [|x y l ys Hx _ IH]; intros z Hz; [contradiction|].
    destruct Hz as [->|Hz]; [|auto].
    unfold key_of. destruct (key z); [reflexivity|discriminate]. }
  split; [exact Hk|].
  rewrite (sorted_sort_by key (key_of key)) in H by exact Hk.
  now injection H.
Qed.

(** ** Minimum, maximum and median *)

Lemma py_min_spec (l : list Q) (m : Q) :
  py_min l = Ok m -> In m l /\ Forall (fun x => (m <= x)%Q) l.
Proof.
  destruct l as [|x rest]; [discriminate|]. simpl. intros [= <-].
  set (f := fun m y : Q => match (y ?= m)%Q with Lt => y | _ => m end).
  assert (H : forall rest x,
    (In (fold_left f rest x) (x :: rest))
    /\ (fold_left f rest x <= x)%Q
    /\ Forall (fun y => (fold_left f rest x <= y)%Q) rest).
  { clear. intros rest. induction rest as [|y rest IH]; intros x; simpl.
    - split; [now left|]. split; [apply Qle_refl|constructor].
    - destruct (IH (f x y)) as (Hin & Hle & Hall).
      assert (Hf : (f x y <= x)%Q /\ (f x y <= y)%Q /\ (f x y = x \/ f x y = y)).
      { unfold f. destruct (y ?= x)%Q eqn:Hc.
        - apply Qeq_alt in Hc. repeat split; [apply Qle_refl| |now left].
          rewrite Hc. apply Qle_refl.
        - apply Qlt_alt in Hc. repeat split; [now apply Qlt_le_weak|apply Qle_refl|now right].
        - apply Qgt_alt in Hc. repeat split; [apply Qle_refl|now apply Qlt_le_weak|now left]. }
      destruct Hf as (Hfx & Hfy & Hfe).
      split; [|split].
      + destruct Hin as [Hin|Hin]; [|now right; right].
        rewrite <- Hin. destruct Hfe as [->| ->]; [now left|now right; left].
      + now apply Qle_trans with (f x y).
      + constructor; [now apply Qle_trans with (f x y)|exact Hall]. }
  destruct (H rest x) as (Hin & Hle & Hall).
  split; [exact Hin|]. now constructor.
Qed.

Lemma py_max_spec (l : list Q) (m : Q) :
  py_max l = Ok m -> In m l /\ Forall (fun x => (x <= m)%Q) l.
Proof.
  destruct l as [|x rest]; [discriminate|]. simpl. intros [= <-].
  set (f := fun m y : Q => match (y ?= m)%Q with Gt => y | _ => m end).
  assert (H : forall rest x,
    (In (fold_left f rest x) (x :: rest))
    /\ (x <= fold_left f rest x)%Q
    /\ Forall (fun y => (y <= fold_left f rest x)%Q) rest).
  { clear. intros rest. induction rest as [|y rest IH]; intros x; simpl.
    - split; [now left|]. split; [apply Qle_refl|constructor].
    - destruct (IH (f x y)) as (Hin & Hle & Hall).
      assert (Hf : (x <= f x y)%Q /\ (y <= f x y)%Q /\ (f x y = x \/ f x y = y)).
      { unfold f. destruct (y ?= x)%Q eqn:Hc.
        - apply Qeq_alt in Hc. repeat split; [apply Qle_refl| |now left].
          rewrite Hc. apply Qle_refl.
        - apply Qlt_alt in Hc. repeat split; [apply Qle_refl|now apply Qlt_le_weak|now left].
        - apply Qgt_alt in Hc. repeat split; [now apply Qlt_le_weak|apply Qle_refl|now right]. }
      destruct Hf as (Hfx & Hfy & Hfe).
      split; [|split].
      + destruct Hin as [Hin|Hin]; [|now right; right].
        rewrite <- Hin. destruct Hfe as [->| ->]; [now left|now right; left].
      + now apply Qle_trans with (f x y).
      + constructor; [now apply Qle_trans with (f x y)|exact Hall]. }
  destruct (H rest x) as (Hin & Hle & Hall).
  split; [exact Hin|]. now constructor.
Qed.

Lemma py_min_total (l : list Q) : l <> [] -> exists m, py_min l = Ok m.
Proof. destruct l; [congruence|]. intros _. simpl. eauto. Qed.

Lemma py_max_total (l : list Q) : l <> [] -> exists m, py_max l = Ok m.
Proof. destruct l; [congruence|]. intros _. simpl. eauto. Qed.

(** The median is the middle of the sorted data: one of the data for an odd
    count, the mean of two of them for an even count. *)
Lemma median_cases (l : list Q) (m : Q) :
  median l = Ok m ->
  In m l \/ exists a b, In a l /\ In b l /\ m = ((a + b) / 2)%Q.
Proof.
  unfold median.
  destruct (Nat.eqb _ 0); [discriminate|].
  destruct (Nat.eqb _ 1).
  - destruct (nth_error _ _) as [x|] eqn:Hx; [|discriminate].
    intros [= <-]. left. apply nth_error_In in Hx. now apply sort_by_In in Hx.
  - destruct (nth_error _ (_ - 1)) as [a|] eqn:Ha; [|discriminate].
    destruct (nth_error _ (_ / 2)) as [b|] eqn:Hb; [|discriminate].
    intros [= <-]. right. exists a, b.
    apply nth_error_In in Ha, Hb. apply sort_by_In in Ha, Hb. auto.
Qed.

Lemma median_total (l : list Q) : l <> [] -> exists m, median l = Ok m.
Proof.
  intros Hne. unfold median. rewrite sort_by_length.
  assert (Hlen : (0 < List.length l)%nat).
  { destruct l; [congruence|simpl; lia]. }
  destruct (Nat.eqb_spec (List.length l) 0) as [H0|_]; [lia|].
  pose proof (Nat.div_mod_eq (List.length l) 2) as Hdm.
  pose proof (Nat.mod_upper_bound (List.length l) 2 ltac:(lia)) as Hmod.
  destruct (Nat.eqb_spec (List.length l mod 2) 1) as [H1|H1].
  - destruct (nth_error _ _) as [x|] eqn:Hx; [eauto|].
    apply nth_error_None in Hx. rewrite sort_by_length in Hx. lia.
  - destruct (nth_error _ (_ - 1)) as [a|] eqn:Ha.
    + destruct (nth_error _ (_ / 2)) as [b|] eqn:Hb; [eauto|].
      apply nth_error_None in Hb. rewrite sort_by_length in Hb. lia.
    + apply nth_error_None in Ha. rewrite sort_by_length in Ha. lia.
Qed.

Lemma median_between (l : list Q) (m lo hi : Q) :
  median l = Ok m ->
  Forall (fun x => (lo <= x)%Q) l -> Forall (fun x => (x <= hi)%Q) l ->
  (lo <= m <= hi)%Q.
Proof.
  intros Hm Hlo Hhi. rewrite Forall_forall in Hlo, Hhi.
  destruct (median_cases l m Hm) as [Hin|(a & b & Ha & Hb & ->)].
  - split; auto.
  - pose proof (Hlo a Ha). pose proof (Hlo b Hb).
    pose proof (Hhi a Ha). pose proof (Hhi b Hb).
    split.
    + apply Qle_shift_div_l; [reflexivity|]. lra.
    + apply Qle_shift_div_r; [reflexivity|]. lra.
Qed.

(** ** Standard deviation *)

Lemma stdev_sqrt_variance (l : list Q) :
  (2 <= List.length l)%nat -> stdev l = Ok (sqrt (Q2R (variance l))).
Proof.
  intros H. unfold stdev.
  destruct (Nat.ltb_spec (List.length l) 2); [lia|reflexivity].
Qed.

Lemma stdev_of_square (l : list Q) (s : Q) :
  (2 <= List.length l)%nat -> (0 <= s)%Q -> (variance l == s * s)%Q ->
  stdev l = Ok (Q2R s).
Proof.
  intros Hlen Hs Hv. rewrite stdev_sqrt_variance by exact Hlen.
  f_equal. rewrite (Qeq_eqR _ _ Hv), Q2R_mult.
  apply sqrt_square. replace 0%R with (Q2R 0) by (unfold Q2R; simpl; lra).
  now apply Qle_Rle.
Qed.

Example stdev_100_100_100_400 :
  mean [100; 100; 100; 400]%Q == 175
  /\ stdev [100; 100; 100; 400]%Q = Ok 150%R.
Proof.
  split; [reflexivity|].
  rewrite (stdev_of_square _ 150%Q).
  - f_equal. unfold Q2R. simpl. lra.
  - simpl. lia.
  - discriminate.
  - reflexivity.
Qed.

(** ** Aggregation *)

Lemma aggregate_results_unfold (results : dict (list document)) :
  aggregate_results results = for_each results aggregate_config [].
Proof. reflexivity. Qed.

Lemma get_setitem_same {V} (k : string) (v : V) (d : dict V) :
  get k (setitem k v d) = Some v.
Proof.
  induction d as [|[k' v'] d IH]; simpl.
  - now rewrite String.eqb_refl.
  - destruct (String.eqb k' k) eqn:E; simpl; now rewrite E.
Qed.

Lemma get_setitem_other {V} (k k' : string) (v : V) (d : dict V) :
  k <> k' -> get k (setitem k' v d) = get k d.
Proof.
  intros Hne. induction d as [|[k0 v0] d IH]; simpl.
  - destruct (String.eqb_spec k' k); [congruence|reflexivity].
  - destruct (String.eqb_spec k0 k') as [->|Hne']; simpl.
    + destruct (String.eqb_spec k' k); [congruence|reflexivity].
    + now rewrite IH.
Qed.

Lemma mapM_length {A B} (f : A -> outcome B) (l : list A) (ys : list B) :
  mapM f l = Ok ys -> List.length ys = List.length l.
Proof.
  intros H. apply mapM_Ok_inv in H. symmetry. eapply Forall2_length; eauto.
Qed.

Lemma metric_entries_inv (prefix : string) (values : list Q) (e : stats_dict) :
  metric_entries prefix values = Ok e ->
  exists med lo hi,
    median values = Ok med /\ py_min values = Ok lo /\ py_max values = Ok hi
    /\ e = [((prefix ++ "_median")%string, VNum med);
            ((prefix ++ "_min")%string, VNum lo);
            ((prefix ++ "_max")%string, VNum hi);
            ((prefix ++ "_stdev")%string, stdev_entry values);
            ((prefix ++ "_values")%string, VList values)].
Proof.
  unfold metric_entries, stdev_entry.
  destruct (median values) as [med|]; simpl; [|discriminate].
  destruct (py_min values) as [lo|]; simpl; [|discriminate].
  destruct (py_max values) as [hi|]; simpl; [|discriminate].
  destruct (Nat.ltb 1 (List.length values)) eqn:Hlen.
  - apply Nat.ltb_lt in Hlen.
    rewrite stdev_sqrt_variance by lia. simpl.
    intros [= <-]. now exists med, lo, hi.
  - simpl. intros [= <-]. now exists med, lo, hi.
Qed.

Lemma metric_entries_total (prefix : string) (values : list Q) :
  values <> [] -> exists e, metric_entries prefix values = Ok e.
Proof.
  intros Hne. unfold metric_entries.
  destruct (median_total values Hne) as [med ->].
  destruct (py_min_total values Hne) as [lo ->].
  destruct (py_max_total values Hne) as [hi ->]. simpl.
  destruct (Nat.ltb 1 (List.length values)) eqn:Hlen; simpl; [|eauto].
  apply Nat.ltb_lt in Hlen. rewrite stdev_sqrt_variance by lia. simpl. eauto.
Qed.

Lemma extract_values_inv (pass_results : list document) (v : tracked_values) :
  extract_values pass_results = Ok v ->
  forall op pct, In op operations -> In pct tracked_percentiles ->
    column op pct pass_results = Ok (values_of v op pct).
Proof.
  unfold extract_values. intros H.
  destruct (column "insert" "p99_9" _) as [i999|] eqn:E1; simpl in H; [|discriminate].
  destruct (column "find" "p99_9" _) as [f999|] eqn:E2; simpl in H; [|discriminate].
  destruct (column "erase" "p99_9" _) as [e999|] eqn:E3; simpl in H; [|discriminate].
  destruct (column "insert" "p50" _) as [i50|] eqn:E4; simpl in H; [|discriminate].
  destruct (column "find" "p50" _) as [f50|] eqn:E5; simpl in H; [|discriminate].
  destruct (column "erase" "p50" _) as [e50|] eqn:E6; simpl in H; [|discriminate].
  injection H as <-.
  intros op pct Hop Hpct. simpl in Hop, Hpct.
  destruct Hop as [<-|[<-|[<-|[]]]]; destruct Hpct as [<-|[<-|[]]];
    assumption.
Qed.

(** What the dictionary literal of one configuration holds. *)
Lemma aggregate_record_inv (pass_results : list document) (v : tracked_values)
    (record : stats_dict) :
  extract_values pass_results = Ok v ->
  aggregate_record pass_results v = Ok record ->
  (exists r perf,
      nth_error pass_results (List.length pass_results / 2)%nat = Some r
      /\ get "performance" r = Some perf
      /\ get "median_run" record = Some (VPerf perf))
  /\ get "passes" record = Some (VInt (Z.of_nat (List.length pass_results)))
  /\ forall op pct, In op operations -> In pct tracked_percentiles ->
     let values := values_of v op pct in
     exists med lo hi,
       column op pct pass_results = Ok values
       /\ median values = Ok med /\ py_min values = Ok lo
       /\ py_max values = Ok hi
       /\ get (metric_prefix op pct ++ "_median")%string record = Some (VNum med)
       /\ get (metric_prefix op pct ++ "_min")%string record = Some (VNum lo)
       /\ get (metric_prefix op pct ++ "_max")%string record = Some (VNum hi)
       /\ get (metric_prefix op pct ++ "_stdev")%string record
          = Some (stdev_entry values)
       /\ get (metric_prefix op pct ++ "_values")%string record
          = Some (VList values).
Proof.
  intros Hv H. unfold aggregate_record in H.
  destruct (metric_entries "insert_p99_9" _) as [e1|] eqn:E1; simpl in H; [|discriminate].
  destruct (metric_entries "insert_p50" _) as [e2|] eqn:E2; simpl in H; [|discriminate].
  destruct (metric_entries "find_p99_9" _) as [e3|] eqn:E3; simpl in H; [|discriminate].
  destruct (metric_entries "find_p50" _) as [e4|] eqn:E4; simpl in H; [|discriminate].
  destruct (metric_entries "erase_p99_9" _) as [e5|] eqn:E5; simpl in H; [|discriminate].
  destruct (metric_entries "erase_p50" _) as [e6|] eqn:E6; simpl in H; [|discriminate].
  destruct (nth_error pass_results _) as [r|] eqn:Hr; simpl in H; [|discriminate].
  unfold getitem in H.
  destruct (get "performance" r) as [perf|] eqn:Hperf; simpl in H; [|discriminate].
  injection H as <-.
  apply metric_entries_inv in E1, E2, E3, E4, E5, E6.
  destruct E1 as (m1 & l1 & h1 & Hm1 & Hl1 & Hh1 & ->).
  destruct E2 as (m2 & l2 & h2 & Hm2 & Hl2 & Hh2 & ->).
  destruct E3 as (m3 & l3 & h3 & Hm3 & Hl3 & Hh3 & ->).
  destruct E4 as (m4 & l4 & h4 & Hm4 & Hl4 & Hh4 & ->).
  destruct E5 as (m5 & l5 & h5 & Hm5 & Hl5 & Hh5 & ->).
  destruct E6 as (m6 & l6 & h6 & Hm6 & Hl6 & Hh6 & ->).
  split; [|split].
  - exists r, perf. repeat split; auto.
  - reflexivity.
  - intros op pct Hop Hpct values. subst values.
    pose proof (extract_values_inv _ _ Hv op pct Hop Hpct) as Hcol.
    simpl in Hop, Hpct.
    destruct Hop as [<-|[<-|[<-|[]]]]; destruct Hpct as [<-|[<-|[]]];
      [ exists m2, l2, h2 | exists m1, l1, h1
      | exists m4, l4, h4 | exists m3, l3, h3
      | exists m6, l6, h6 | exists m5, l5, h5 ];
      repeat split; assumption || reflexivity.
Qed.

Lemma aggregate_config_Ok (config : string) (pass_results : list document)
    (acc acc' : dict stats_dict) (w w' : world) :
  aggregate_config (config, pass_results) acc w = (Ok acc', w') ->
  (pass_results = [] /\ acc' = acc)
  \/ (pass_results <> []
      /\ exists v record,
           extract_values pass_results = Ok v
           /\ aggregate_record pass_results v = Ok record
           /\ acc' = setitem config record acc).
Proof.
  unfold aggregate_config.
  destruct pass_results as [|first rest].
  - unfold bind, print, ret. intros [= <- _]. now left.
  - destruct (extract_values (first :: rest)) as [v|e] eqn:Hv.
    + unfold bind, lift, ret.
      destruct (aggregate_record (first :: rest) v) as [record|e] eqn:Hr;
        [|discriminate].
      intros [= <- _]. right. split; [discriminate|]. now exists v, record.
    + destruct e; unfold bind, print, sys_exit, raise; discriminate.
Qed.

Lemma aggregate_loop (results : dict (list document)) :
  forall (acc aggregated : dict stats_dict) (w w1 : world),
    for_each results aggregate_config acc w = (Ok aggregated, w1) ->
    NoDup (keys results) ->
    (forall config pass_results,
        In (config, pass_results) results -> pass_results <> [] ->
        exists v record,
          extract_values pass_results = Ok v
          /\ aggregate_record pass_results v = Ok record
          /\ get config aggregated = Some record)
    /\ (forall k, ~ In k (keys results) -> get k aggregated = get k acc).
Proof.
  induction results as [|[c pr] rest IH]; intros acc aggregated w w1 Hrun Hnd.
  - cbn [for_each] in Hrun. unfold ret in Hrun. injection Hrun as <- _.
    split; [intros ? ? []|reflexivity].
  - cbn [for_each] in Hrun. unfold bind in Hrun.
    destruct (aggregate_config (c, pr) acc w) as [[acc'|e] w'] eqn:Hstep;
      [|discriminate].
    unfold keys in Hnd. simpl in Hnd. inversion Hnd as [|? ? Hc Hnd']; subst.
    destruct (IH acc' aggregated w' w1 Hrun Hnd') as [IH1 IH2].
    apply aggregate_config_Ok in Hstep.
    split.
    + intros config pass_results [Heq|Hin] Hne; [|now apply IH1].
      injection Heq as -> ->.
      destruct Hstep as [[Hnil _]|(_ & v & record & Hv & Hr & ->)];
        [contradiction|].
      exists v, record. repeat split; try assumption.
      rewrite (IH2 config Hc). apply get_setitem_same.
    + intros k Hk. unfold keys in Hk. simpl in Hk.
      rewrite IH2 by tauto.
      destruct Hstep as [[_ ->]|(_ & v & record & _ & _ & ->)]; [reflexivity|].
      apply get_setitem_other. intros ->. tauto.
Qed.

(** Every configuration with results gets its dictionary. *)
Lemma aggregated_entry (results : dict (list document))
    (aggregated : dict stats_dict) (w0 w1 : world)
    (config : string) (pass_results : list document) :
  dict_wf results ->
  aggregate_results results w0 = (Ok aggregated, w1) ->
  get config results = Some pass_results ->
  pass_results <> [] ->
  exists v record,
    extract_values pass_results = Ok v
    /\ aggregate_record pass_results v = Ok record
    /\ get config aggregated = Some record.
Proof.
  intros Hwf Hrun Hget Hne. rewrite aggregate_results_unfold in Hrun.
  destruct (aggregate_loop results [] aggregated w0 w1 Hrun Hwf) as [H _].
  apply H; [now apply get_In|exact Hne].
Qed.

Lemma column_total (op pct : string) (pass_results : list document) :
  In op operations -> In pct tracked_percentiles ->
  Forall complete pass_results ->
  exists values, column op pct pass_results = Ok values.
Proof.
  intros Hop Hpct. induction 1 as [|r l Hr _ [values IH]].
  - now exists [].
  - destruct (Hr op pct Hop Hpct) as [q Hq].
    unfold column in *.
    match goal with
    | H : mapM ?g l = _ |- _ => set (f := g) in *
    end.
    cbn [mapM] in *. destruct (f r) as [q'|]; simpl in *; [|discriminate].
    rewrite IH. simpl. eauto.
Qed.

Lemma aggregate_config_total (config : string) (pass_results : list document)
    (acc : dict stats_dict) (w : world) :
  Forall complete pass_results ->
  exists acc' w', aggregate_config (config, pass_results) acc w = (Ok acc', w').
Proof.
  intros Hall. unfold aggregate_config.
  destruct pass_results as [|first rest] eqn:Hpr.
  - unfold bind, print, ret. eauto.
  - rewrite <- Hpr in *.
    assert (Hcol : forall op pct, In op operations -> In pct tracked_percentiles ->
              exists values, column op pct pass_results = Ok values
                             /\ values <> []).
    { intros op pct Hop Hpct.
      destruct (column_total op pct pass_results Hop Hpct Hall) as [values Hv].
      exists values. split; [exact Hv|].
      apply mapM_length in Hv. rewrite Hpr in Hv. destruct values; [discriminate|congruence]. }
    unfold extract_values.
    destruct (Hcol "insert" "p99_9") as (i999 & -> & Hi999); [simpl; tauto..|].
    destruct (Hcol "find" "p99_9") as (f999 & -> & Hf999); [simpl; tauto..|].
    destruct (Hcol "erase" "p99_9") as (e999 & -> & He999); [simpl; tauto..|].
    destruct (Hcol "insert" "p50") as (i50 & -> & Hi50); [simpl; tauto..|].
    destruct (Hcol "find" "p50") as (f50 & -> & Hf50); [simpl; tauto..|].
    destruct (Hcol "erase" "p50") as (e50 & -> & He50); [simpl; tauto..|].
    cbn [obind]. unfold aggregate_record.
    cbn [insert_p99_9_values find_p99_9_values erase_p99_9_values
         insert_p50_values find_p50_values erase_p50_values].
    destruct (metric_entries_total "insert_p99_9" i999 Hi999) as [e1 ->].
    destruct (metric_entries_total "insert_p50" i50 Hi50) as [e2 ->].
    destruct (metric_entries_total "find_p99_9" f999 Hf999) as [e3 ->].
    destruct (metric_entries_total "find_p50" f50 Hf50) as [e4 ->].
    destruct (metric_entries_total "erase_p99_9" e999 He999) as [e5 ->].
    destruct (metric_entries_total "erase_p50" e50 He50) as [e6 ->].
    cbn [obind].
    destruct (nth_error pass_results (List.length pass_results / 2)%nat)
      as [r|] eqn:Hr.
    + assert (Hc : complete r).
      { rewrite Forall_forall in Hall. apply Hall. eapply nth_error_In; eauto. }
      destruct (Hc "insert" "p50") as [q Hq]; [simpl; tauto..|].
      unfold column in Hq. cbn [mapM] in Hq. unfold getitem at 1 in Hq.
      unfold getitem at 1.
      unfold document, performance, percentiles in *.
      destruct (get "performance" r) as [perf|]; [|simpl in Hq; discriminate].
      unfold obind, bind, lift, ret. eauto.
    + apply nth_error_None in Hr. rewrite Hpr in Hr. simpl in Hr.
      pose proof (Nat.div_lt (S (List.length rest)) 2 ltac:(lia) ltac:(lia)).
      simpl in H. lia.
Qed.

(** Aggregation succeeds on complete documents. *)
Lemma aggregate_results_total (results : dict (list document)) (w0 : world) :
  (forall config pass_results,
      In (config, pass_results) results -> Forall complete pass_results) ->
  exists aggregated w1, aggregate_results results w0 = (Ok aggregated, w1).
Proof.
  rewrite aggregate_results_unfold. generalize (@nil (string * stats_dict)).
  revert w0. induction results as [|[c pr] rest IH]; intros w0 acc Hall.
  - cbn [for_each]. unfold ret. eauto.
  - cbn [for_each]. unfold bind.
    destruct (aggregate_config_total c pr acc w0) as (acc' & w' & ->).
    { apply (Hall c pr). now left. }
    apply IH. intros config pass_results Hin. apply (Hall config pass_results).
    now right.
Qed.

Lemma aggregate_loop_empty (results : dict (list document)) :
  forall (acc aggregated : dict stats_dict) (w w1 : world),
    for_each results aggregate_config acc w = (Ok aggregated, w1) ->
    NoDup (keys results) ->
    forall config, In (config, []) results ->
      get config aggregated = get config acc.
Proof.
  induction results as [|[c pr] rest IH]; intros acc aggregated w w1 Hrun Hnd;
    [intros ? []|].
  cbn [for_each] in Hrun. unfold bind in Hrun.
  destruct (aggregate_config (c, pr) acc w) as [[acc'|e] w'] eqn:Hstep;
    [|discriminate].
  unfold keys in Hnd. simpl in Hnd. inversion Hnd as [|? ? Hc Hnd']; subst.
  destruct (aggregate_loop rest acc' aggregated w' w1 Hrun Hnd') as [_ Hframe].
  apply aggregate_config_Ok in Hstep.
  intros config [Heq|Hin].
  - injection Heq as -> ->. rewrite (Hframe config Hc).
    destruct Hstep as [[_ ->]|[Hne _]]; [reflexivity|congruence].
  - rewrite (IH acc' aggregated w' w1 Hrun Hnd' config Hin).
    destruct Hstep as [[_ ->]|(_ & v & record & _ & _ & ->)]; [reflexivity|].
    apply get_setitem_other. intros ->. apply Hc.
    change c with (fst (c, @nil document)). now apply in_map.
Qed.

(** Every dictionary of [aggregated] comes from a configuration with results. *)
Lemma aggregated_entry_inv (results : dict (list document))
    (aggregated : dict stats_dict) (w0 w1 : world)
    (config : string) (record : stats_dict) :
  dict_wf results ->
  aggregate_results results w0 = (Ok aggregated, w1) ->
  get config aggregated = Some record ->
  exists pass_results v,
    get config results = Some pass_results
    /\ pass_results <> []
    /\ extract_values pass_results = Ok v
    /\ aggregate_record pass_results v = Ok record.
Proof.
  intros Hwf Hrun Hget. rewrite aggregate_results_unfold in Hrun.
  destruct (aggregate_loop results [] aggregated w0 w1 Hrun Hwf) as [Hin Hout].
  destruct (get config results) as [pr|] eqn:Hres.
  - destruct pr as [|first rest].
    + apply get_In in Hres.
      rewrite (aggregate_loop_empty results [] aggregated w0 w1 Hrun Hwf config Hres)
        in Hget.
      discriminate.
    + destruct (Hin config (first :: rest)) as (v & record' & Hv & Hr & Hg);
        [now apply get_In|discriminate|].
      exists (first :: rest), v. repeat split; try assumption; [discriminate|].
      congruence.
  - apply get_None_keys in Hres. rewrite (Hout config Hres) in Hget.
    discriminate.
Qed.

Lemma scenario_results_wf : dict_wf scenario_results.
Proof.
  unfold dict_wf, keys. simpl.
  repeat constructor; simpl; intuition discriminate.
Defined.

Lemma scenario_aggregation :
  aggregate_results scenario_results empty_world
  = (Ok scenario_aggregated, empty_world).
Proof. reflexivity. Defined.

Lemma in_keys_setitem {V} (k x : string) (v : V) (d : dict V) :
  In x (keys (setitem k v d)) -> x = k \/ In x (keys d).
Proof.
  unfold keys. induction d as [|[k' v'] d IH]; simpl.
  - intros [<-|[]]. now left.
  - destruct (String.eqb_spec k' k) as [->|Hne]; simpl; [tauto|].
    intros [<-|H]; [tauto|]. destruct (IH H); tauto.
Qed.

Lemma setitem_wf {V} (k : string) (v : V) (d : dict V) :
  dict_wf d -> dict_wf (setitem k v d).
Proof.
  unfold dict_wf. induction d as [|[k' v'] d IH]; simpl; intros Hwf.
  - repeat constructor. intros [].
  - unfold keys in Hwf. simpl in Hwf. inversion Hwf as [|? ? Hnot Hwf']; subst.
    destruct (String.eqb_spec k' k) as [->|Hne].
    + unfold keys. simpl. now constructor.
    + unfold keys. simpl. constructor; [|now apply IH].
      intros Hin. apply in_keys_setitem in Hin. destruct Hin; [congruence|].
      now apply Hnot.
Qed.

(** The result of the aggregation is a dictionary. *)
Lemma aggregate_results_wf (results : dict (list document))
    (aggregated : dict stats_dict) (w0 w1 : world) :
  aggregate_results results w0 = (Ok aggregated, w1) -> dict_wf aggregated.
Proof.
  rewrite aggregate_results_unfold.
  assert (Hnil : dict_wf (@nil (string * stats_dict))) by constructor.
  revert Hnil. generalize (@nil (string * stats_dict)). revert w0.
  induction results as [|[c pr] rest IH]; intros w0 acc Hacc Hrun.
  - cbn [for_each] in Hrun. unfold ret in Hrun. now injection Hrun as <- _.
  - cbn [for_each] in Hrun. unfold bind in Hrun.
    destruct (aggregate_config (c, pr) acc w0) as [[acc'|e] w'] eqn:Hstep;
      [|discriminate].
    apply (IH w' acc'); [|exact Hrun].
    apply aggregate_config_Ok in Hstep.
    destruct Hstep as [[_ ->]|(_ & v & record & _ & _ & ->)];
      [exact Hacc|now apply setitem_wf].
Qed.

Lemma column_metric_values (op pct : string) (pass_results : list document)
    (values : list Q) :
  column op pct pass_results = Ok values <->
  Forall2 (metric_value op pct) pass_results values.
Proof.
  unfold column. split.
  - intros H. apply mapM_Ok_inv in H.
    eapply Forall2_impl; [|exact H]. intros r q Hq. unfold metric_value.
    unfold getitem in Hq. unfold document, performance, percentiles in *.
    destruct (get "performance" r) as [perf|] eqn:Hp; simpl in Hq; [|discriminate].
    destruct (get op perf) as [o|] eqn:Ho; simpl in Hq; [|discriminate].
    destruct (get pct o) as [q'|] eqn:Hq'; [|discriminate].
    injection Hq as ->. now exists perf, o.
  - intros H. apply mapM_Ok.
    eapply Forall2_impl; [|exact H]. intros r q (perf & o & Hp & Ho & Hq).
    unfold getitem. unfold document, performance, percentiles in *.
    rewrite Hp. simpl. rewrite Ho. simpl. now rewrite Hq.
Qed.

(** C3. For a configuration with a non-empty result sequence and a tracked
    metric, [aggregate_results] stores the median, minimum and maximum of the
    metric's values taken in pass order; under [<metric>_stdev] it stores the
    sample standard deviation when there are two or more values and the
    integer 0 otherwise. For the values 100, 100, 100, 400 the stored
    standard deviation is 150. *)
Theorem aggregate_stores_statistics :
  forall (results : dict (list document)) (aggregated : dict stats_dict)
         (w0 w1 : world) (config : string) (pass_results : list document)
         (op pct : string),
    dict_wf results ->
    aggregate_results results w0 = (Ok aggregated, w1) ->
    get config results = Some pass_results ->
    pass_results <> [] ->
    In op operations -> In pct tracked_percentiles ->
    exists record values med lo hi,
      get config aggregated = Some record
      /\ Forall2 (metric_value op pct) pass_results values
      /\ median values = Ok med
      /\ py_min values = Ok lo
      /\ py_max values = Ok hi
      /\ get (metric_prefix op pct ++ "_median")%string record = Some (VNum med)
      /\ get (metric_prefix op pct ++ "_min")%string record = Some (VNum lo)
      /\ get (metric_prefix op pct ++ "_max")%string record = Some (VNum hi)
      /\ ((2 <= List.length values)%nat ->
          stdev values = Ok (sqrt (Q2R (variance values)))
          /\ get (metric_prefix op pct ++ "_stdev")%string record
             = Some (VReal (sqrt (Q2R (variance values)))))
      /\ ((List.length values < 2)%nat ->
          get (metric_prefix op pct ++ "_stdev")%string record = Some (VInt 0))
      /\ (values = [100; 100; 100; 400]%Q ->
          get (metric_prefix op pct ++ "_stdev")%string record
          = Some (VReal 150%R)).
Proof.
  intros results aggregated w0 w1 config pass_results op pct
         Hwf Hrun Hget Hne Hop Hpct.
  destruct (aggregated_entry results aggregated w0 w1 config pass_results
              Hwf Hrun Hget Hne) as (v & record & Hv & Hr & Hrec).
  destruct (aggregate_record_inv pass_results v record Hv Hr) as (_ & _ & Hm).
  destruct (Hm op pct Hop Hpct)
    as (med & lo & hi & Hcol & Hmed & Hlo & Hhi & Gmed & Glo & Ghi & Gsd & _).
  exists record, (values_of v op pct), med, lo, hi.
  repeat (split; [first [assumption | now apply column_metric_values]|]).
  unfold stdev_entry in Gsd.
  split; [|split].
  - intros Hlen. split; [now apply stdev_sqrt_variance|].
    rewrite Gsd. destruct (Nat.ltb_spec 1 (List.length (values_of v op pct)));
      [reflexivity|lia].
  - intros Hlen. rewrite Gsd.
    destruct (Nat.ltb_spec 1 (List.length (values_of v op pct)));
      [lia|reflexivity].
  - intros Hvals. rewrite Gsd, Hvals. simpl.
    destruct stdev_100_100_100_400 as [_ Hsd].
    rewrite stdev_sqrt_variance in Hsd by (simpl; lia).
    now injection Hsd as ->.
Qed.

Lemma aggregate_stores_statistics_witness :
  exists record values med lo hi,
    get "A" scenario_aggregated = Some record
    /\ Forall2 (metric_value "insert" "p50")
         [measurement 100; measurement 104] values
    /\ median values = Ok med
    /\ py_min values = Ok lo
    /\ py_max values = Ok hi
    /\ get "insert_p50_median" record = Some (VNum med)
    /\ get "insert_p50_min" record = Some (VNum lo)
    /\ get "insert_p50_max" record = Some (VNum hi)
    /\ ((2 <= List.length values)%nat ->
        stdev values = Ok (sqrt (Q2R (variance values)))
        /\ get "insert_p50_stdev" record
           = Some (VReal (sqrt (Q2R (variance values)))))
    /\ ((List.length values < 2)%nat ->
        get "insert_p50_stdev" record = Some (VInt 0))
    /\ (values = [100; 100; 100; 400]%Q ->
        get "insert_p50_stdev" record = Some (VReal 150%R)).
Proof.
  apply (aggregate_stores_statistics scenario_results scenario_aggregated
           empty_world empty_world "A" [measurement 100; measurement 104]
           "insert" "p50").
  - exact scenario_results_wf.
  - exact scenario_aggregation.
  - reflexivity.
  - discriminate.
  - simpl. tauto.
  - simpl. tauto.
Defined.

(** C5. The representative run stored under ["median_run"] is the
    ["performance"] section of the document at position [len // 2] of the
    configuration's result sequence, in pass order. *)
Theorem median_run_is_positional :
  forall (results : dict (list document)) (aggregated : dict stats_dict)
         (w0 w1 : world) (config : string) (pass_results : list document),
    dict_wf results ->
    aggregate_results results w0 = (Ok aggregated, w1) ->
    get config results = Some pass_results ->
    pass_results <> [] ->
    exists record r perf,
      get config aggregated = Some record
      /\ nth_error pass_results (List.length pass_results / 2)%nat = Some r
      /\ get "performance" r = Some perf
      /\ get "median_run" record = Some (VPerf perf).
Proof.
  intros results aggregated w0 w1 config pass_results Hwf Hrun Hget Hne.
  destruct (aggregated_entry results aggregated w0 w1 config pass_results
              Hwf Hrun Hget Hne) as (v & record & Hv & Hr & Hrec).
  destruct (aggregate_record_inv pass_results v record Hv Hr)
    as ((r & perf & Hnth & Hperf & Hrun') & _).
  now exists record, r, perf.
Qed.

Lemma median_run_is_positional_witness :
  exists record r perf,
    get "B" scenario_aggregated = Some record
    /\ nth_error [measurement 110; measurement 108] 1%nat = Some r
    /\ get "performance" r = Some perf
    /\ get "median_run" record = Some (VPerf perf).
Proof.
  apply (median_run_is_positional scenario_results scenario_aggregated
           empty_world empty_world "B" [measurement 110; measurement 108]).
  - exact scenario_results_wf.
  - exact scenario_aggregation.
  - reflexivity.
  - discriminate.
Defined.

(** C10. In every dictionary of [aggregated] and for every tracked metric the
    stored minimum, median and maximum are ordered, and ["passes"] is the
    length of the stored value sequence. *)
Theorem aggregate_record_invariant :
  forall (results : dict (list document)) (aggregated : dict stats_dict)
         (w0 w1 : world) (config : string) (record : stats_dict)
         (op pct : string),
    dict_wf results ->
    aggregate_results results w0 = (Ok aggregated, w1) ->
    get config aggregated = Some record ->
    In op operations -> In pct tracked_percentiles ->
    exists med lo hi values,
      get (metric_prefix op pct ++ "_median")%string record = Some (VNum med)
      /\ get (metric_prefix op pct ++ "_min")%string record = Some (VNum lo)
      /\ get (metric_prefix op pct ++ "_max")%string record = Some (VNum hi)
      /\ get (metric_prefix op pct ++ "_values")%string record
         = Some (VList values)
      /\ (lo <= med <= hi)%Q
      /\ get "passes" record = Some (VInt (Z.of_nat (List.length values))).
Proof.
  intros results aggregated w0 w1 config record op pct Hwf Hrun Hget Hop Hpct.
  destruct (aggregated_entry_inv results aggregated w0 w1 config record
              Hwf Hrun Hget) as (pass_results & v & _ & _ & Hv & Hr).
  destruct (aggregate_record_inv pass_results v record Hv Hr)
    as (_ & Hpasses & Hm).
  destruct (Hm op pct Hop Hpct)
    as (med & lo & hi & Hcol & Hmed & Hlo & Hhi & Gmed & Glo & Ghi & _ & Gvals).
  exists med, lo, hi, (values_of v op pct).
  repeat (split; [assumption|]).
  split.
  - apply py_min_spec in Hlo. apply py_max_spec in Hhi.
    eapply median_between; [exact Hmed|apply Hlo|apply Hhi].
  - rewrite Hpasses. apply mapM_length in Hcol. now rewrite Hcol.
Qed.

Lemma aggregate_record_invariant_witness :
  exists med lo hi values,
    get "find_p99_9_median" (snd (nth 0 scenario_aggregated ("", [])))
    = Some (VNum med)
    /\ get "find_p99_9_min" (snd (nth 0 scenario_aggregated ("", [])))
       = Some (VNum lo)
    /\ get "find_p99_9_max" (snd (nth 0 scenario_aggregated ("", [])))
       = Some (VNum hi)
    /\ get "find_p99_9_values" (snd (nth 0 scenario_aggregated ("", [])))
       = Some (VList values)
    /\ (lo <= med <= hi)%Q
    /\ get "passes" (snd (nth 0 scenario_aggregated ("", [])))
       = Some (VInt (Z.of_nat (List.length values))).
Proof.
  apply (aggregate_record_invariant scenario_results scenario_aggregated
           empty_world empty_world "A"
           (snd (nth 0 scenario_aggregated ("", []))) "find" "p99_9").
  - exact scenario_results_wf.
  - exact scenario_aggregation.
  - reflexivity.
  - simpl. tauto.
  - simpl. tauto.
Defined.

(** ** Ranking *)

Lemma add_lines_app (w : world) (l1 l2 : list value) :
  add_lines (add_lines w l1) l2 = add_lines w (l1 ++ l2).
Proof. unfold add_lines. simpl. now rewrite <- app_assoc. Qed.

Lemma add_lines_nil (w : world) : add_lines w [] = w.
Proof. destruct w. unfold add_lines. simpl. now rewrite app_nil_r. Qed.

Lemma print_run (v : value) (w : world) : print v w = (Ok tt, add_lines w [v]).
Proof. reflexivity. Qed.

Lemma bind_print {B} (v : value) (k : M B) (w : world) :
  bind (print v) (fun _ => k) w = k (add_lines w [v]).
Proof. reflexivity. Qed.

Lemma bind_lift {A B} (a : A) (f : A -> M B) (w : world) :
  bind (lift (Ok a)) f w = f a w.
Proof. reflexivity. Qed.

Lemma bind_run {A B} (m : M A) (f : A -> M B) (w w' : world) (a : A) :
  m w = (Ok a, w') -> bind m f w = f a w'.
Proof. intros H. unfold bind. now rewrite H. Qed.

Lemma bind_raise {A B} (m : M A) (f : A -> M B) (w w' : world) (e : exn) :
  m w = (Raise e, w') -> bind m f w = (Raise e, w').
Proof. intros H. unfold bind. now rewrite H. Qed.

Lemma bind_bind {A B C} (m : M A) (f : A -> M B) (g : B -> M C) (w : world) :
  bind (bind m f) g w = bind m (fun a => bind (f a) g) w.
Proof. unfold bind. now destruct (m w) as [[a|e] w']. Qed.

Lemma getitem_Some {V} (d : dict V) (k : string) (v : V) :
  get k d = Some v -> getitem d k = Ok v.
Proof. intros H. unfold getitem. now rewrite H. Qed.

Lemma has_metric_median (metric_key : string) (item : string * stats_dict) :
  has_metric metric_key (snd item) ->
  median_of (metric_key ++ "_median")%string item
  = Ok (median_at (metric_key ++ "_median")%string item)
  /\ get (metric_key ++ "_median")%string (snd item)
     = Some (VNum (median_at (metric_key ++ "_median")%string item)).
Proof.
  intros (med & lo & hi & sd & sdr & passes & Hmed & _).
  unfold median_at, key_of, median_of, getitem. rewrite Hmed. simpl. auto.
Qed.

(** The ranking the table and the reports are printed from. *)
Lemma ranking_sorted (median_key : string) (aggregated : dict stats_dict) :
  (forall item, In item aggregated ->
     median_of median_key item = Ok (median_at median_key item)) ->
  sorted (median_of median_key) aggregated
  = Ok (sort_by (median_at median_key) aggregated).
Proof. intros H. now apply sorted_sort_by. Qed.

Lemma ranking_keys_NoDup (median_key : string) (aggregated : dict stats_dict) :
  dict_wf aggregated ->
  NoDup (keys (sort_by (median_at median_key) aggregated)).
Proof.
  unfold dict_wf, keys. intros H.
  eapply Permutation_NoDup; [|exact H].
  apply Permutation_map. symmetry. apply sort_by_perm.
Qed.

Lemma print_comparison_table_unfold (aggregated : dict stats_dict)
    (title metric_key metric_label : string) (show_variance : bool) :
  print_comparison_table aggregated title metric_key metric_label show_variance
  = (print rule ;;
     print (VStr title) ;;
     print rule ;;
     sorted_configs <-
       lift (sorted (median_of (metric_key ++ "_median")%string) aggregated) ;;
     match sorted_configs with
     | [] => print (VFormat "ERROR: No configs to compare for {}" [VStr title])
     | (winner_config, winner_stats) :: _ =>
         baseline <- lift (median_of (metric_key ++ "_median")%string
                             (winner_config, winner_stats)) ;;
         if Qeq_bool baseline 0 then
           for_each (zero_baseline_report metric_key winner_config winner_stats)
             (fun line _ => print line) tt ;;
           sys_exit 1
         else
           print (table_header metric_label show_variance) ;;
           print dashes ;;
           for_each sorted_configs
             (table_line metric_key show_variance winner_config baseline) tt ;;
           print rule ;;
           if show_variance
           then variance_analysis metric_key winner_config winner_stats
           else ret tt
     end).
Proof. destruct show_variance; reflexivity. Qed.

Lemma table_line_run (metric_key : string) (show_variance : bool)
    (winner_config : string) (baseline : Q) (item : string * stats_dict)
    (w : world) :
  has_metric metric_key (snd item) ->
  Qeq_bool baseline 0 = false ->
  table_line metric_key show_variance winner_config baseline item tt w
  = (Ok tt,
     add_lines w
       [if String.eqb (fst item) winner_config
        then table_row metric_key show_variance "⭐" (VStr "baseline") item
        else table_row metric_key show_variance "  "
               (deviation baseline
                  (median_at (metric_key ++ "_median")%string item)) item]).
Proof.
  intros Hm Hb.
  destruct (has_metric_median metric_key item Hm) as [_ Hmedian].
  destruct item as [config stats].
  destruct Hm as (med & lo & hi & sd & sdr & passes
                  & Hmed & Hlo & Hhi & Hsd & _ & Hpasses).
  cbn [snd fst] in *.
  rewrite Hmed in Hmedian. injection Hmedian as Hmedian.
  unfold table_line, table_row, deviation, field.
  rewrite <- Hmedian.
  rewrite (getitem_Some _ _ _ Hmed), (getitem_Some _ _ _ Hsd),
    (getitem_Some _ _ _ Hlo), (getitem_Some _ _ _ Hhi),
    (getitem_Some _ _ _ Hpasses).
  rewrite Hmed, Hsd, Hlo, Hhi, Hpasses, Hb.
  destruct show_variance, (String.eqb config winner_config); reflexivity.
Qed.

Lemma table_lines_run (metric_key : string) (show_variance : bool)
    (winner_config : string) (baseline : Q) (l : dict stats_dict) :
  forall w : world,
    Forall (fun item => has_metric metric_key (snd item)) l ->
    ~ In winner_config (keys l) ->
    Qeq_bool baseline 0 = false ->
    for_each l (table_line metric_key show_variance winner_config baseline) tt w
    = (Ok tt,
       add_lines w
         (map (fun item =>
                 table_row metric_key show_variance "  "
                   (deviation baseline
                      (median_at (metric_key ++ "_median")%string item)) item)
              l)).
Proof.
  induction l as [|item l IH]; intros w Hall Hnot Hb.
  - cbn [for_each map]. now rewrite add_lines_nil.
  - inversion Hall as [|? ? Hitem Hall']; subst.
    unfold keys in Hnot. cbn [map In] in Hnot.
    cbn [for_each].
    rewrite (bind_run _ _ _ _ _ (table_line_run metric_key show_variance
                                   winner_config baseline item w Hitem Hb)).
    destruct (String.eqb_spec (fst item) winner_config) as [Heq|_]; [tauto|].
    rewrite IH by (try assumption; tauto).
    now rewrite add_lines_app.
Qed.

Lemma variance_analysis_run (metric_key winner_config : string)
    (winner_stats : stats_dict) (w : world) :
  has_metric metric_key winner_stats ->
  exists trailer,
    variance_analysis metric_key winner_config winner_stats w
    = (Ok tt, add_lines w trailer).
Proof.
  intros (med & lo & hi & sd & sdr & passes
          & Hmed & Hlo & Hhi & Hsd & Hreal & _).
  unfold variance_analysis.
  rewrite (getitem_Some _ _ _ Hmed), (getitem_Some _ _ _ Hsd),
    (getitem_Some _ _ _ Hlo), (getitem_Some _ _ _ Hhi).
  cbn [obind number]. rewrite Hreal.
  rewrite !bind_print, !bind_lift, bind_print, print_run, !add_lines_app.
  eauto.
Qed.

(** The dictionaries of [aggregate_results] hold every tracked metric. *)
Lemma aggregated_has_metric (results : dict (list document))
    (aggregated : dict stats_dict) (w0 w1 : world) (op pct : string) :
  dict_wf results ->
  aggregate_results results w0 = (Ok aggregated, w1) ->
  In op operations -> In pct tracked_percentiles ->
  Forall (fun item => has_metric (metric_prefix op pct) (snd item)) aggregated.
Proof.
  intros Hwf Hrun Hop Hpct. apply Forall_forall. intros [config record] Hin.
  cbn [snd].
  apply In_get in Hin; [|exact (aggregate_results_wf _ _ _ _ Hrun)].
  destruct (aggregated_entry_inv results aggregated w0 w1 config record
              Hwf Hrun Hin) as (pass_results & v & _ & _ & Hv & Hr).
  destruct (aggregate_record_inv pass_results v record Hv Hr)
    as (_ & Hpasses & Hm).
  destruct (Hm op pct Hop Hpct)
    as (med & lo & hi & _ & _ & _ & _ & Gmed & Glo & Ghi & Gsd & _).
  exists med, lo, hi, (stdev_entry (values_of v op pct)).
  exists (match stdev_entry (values_of v op pct) with
          | VReal r => r
          | _ => 0%R
          end).
  eexists. repeat split; try eassumption.
  unfold stdev_entry. now destruct (Nat.ltb 1 _).
Qed.

(** C4. For the metric of the table, [print_comparison_table] prints the
    configurations in ascending order of their median, by a stable sort that
    keeps input order among equal medians. The first configuration is the
    baseline; its row carries the label ["baseline"], and the row of every
    other configuration carries the signed percentage
    [(median - baseline) / baseline * 100]. *)
Theorem comparison_table_ranking :
  forall (aggregated : dict stats_dict)
         (title metric_key metric_label : string) (show_variance : bool)
         (w0 : world),
    let median := median_at (metric_key ++ "_median")%string in
    dict_wf aggregated ->
    aggregated <> [] ->
    Forall (fun item => has_metric metric_key (snd item)) aggregated ->
    (forall item, In item aggregated ->
       (forall other, In other aggregated -> median item <= median other)%Q ->
       ~ median item == 0) ->
    exists winner rest trailer,
      let ranking := winner :: rest in
      let baseline := median winner in
      Permutation ranking aggregated
      /\ StronglySorted (fun a b => median a <= median b)%Q ranking
      /\ (forall q,
             filter (fun item => Qeq_bool (median item) q) ranking
             = filter (fun item => Qeq_bool (median item) q) aggregated)
      /\ print_comparison_table aggregated title metric_key metric_label
           show_variance w0
         = (Ok tt,
            add_lines w0
              ([rule; VStr title; rule;
                table_header metric_label show_variance; dashes]
               ++ table_row metric_key show_variance "⭐" (VStr "baseline")
                    winner
               :: map (fun item =>
                         table_row metric_key show_variance "  "
                           (deviation baseline (median item)) item)
                    rest
               ++ rule :: trailer)).
Proof.
  intros aggregated title metric_key metric_label show_variance w0 median
         Hwf Hne Hall Hnz.
  pose proof (sort_by_perm median aggregated) as Hperm.
  pose proof (ranking_keys_NoDup (metric_key ++ "_median")%string aggregated Hwf)
    as Hnd.
  fold median in Hnd.
  destruct (sort_by median aggregated) as [|[wc ws] rest] eqn:Hsort.
  { apply Permutation_nil in Hperm. contradiction. }
  assert (Hall' : Forall (fun item => has_metric metric_key (snd item))
                    ((wc, ws) :: rest)).
  { eapply Permutation_Forall; [symmetry; exact Hperm|exact Hall]. }
  inversion Hall' as [|? ? Hw Hrest]; subst.
  destruct (variance_analysis_run metric_key wc ws
              (add_lines w0
                 ([rule; VStr title; rule;
                   table_header metric_label show_variance; dashes]
                  ++ table_row metric_key show_variance "⭐" (VStr "baseline")
                       (wc, ws)
                  :: map (fun item =>
                            table_row metric_key show_variance "  "
                              (deviation (median (wc, ws)) (median item)) item)
                       rest
                  ++ [rule])) Hw) as [trailer Htrailer].
  exists (wc, ws), rest, (if show_variance then trailer else []).
  cbn zeta.
  split; [exact Hperm|].
  split; [rewrite <- Hsort; apply (sort_by_sorted median)|].
  split; [intros q; rewrite <- Hsort; apply (sort_by_stable median)|].
  assert (Hb : Qeq_bool (median (wc, ws)) 0 = false).
  { destruct (Qeq_bool (median (wc, ws)) 0) eqn:E; [|reflexivity].
    apply Qeq_bool_iff in E. exfalso.
    apply (Hnz (wc, ws)); [| |exact E].
    - eapply Permutation_in; [exact Hperm|now left].
    - intros other Hother.
      now apply (sort_by_head_least median (wc, ws) rest aggregated). }
  rewrite print_comparison_table_unfold.
  rewrite !bind_print.
  rewrite ranking_sorted.
  2:{ intros item Hin. apply has_metric_median.
      rewrite Forall_forall in Hall. now apply Hall. }
  fold median. rewrite Hsort, bind_lift. cbv beta iota.
  destruct (has_metric_median metric_key (wc, ws) Hw) as [-> _].
  fold median. rewrite bind_lift, Hb, !bind_print.
  unfold keys in Hnd. cbn [map] in Hnd. inversion Hnd as [|? ? Hwc Hnd']; subst.
  cbn [for_each]. rewrite bind_bind.
  rewrite (bind_run _ _ _ _ _ (table_line_run metric_key show_variance
                                 wc (median (wc, ws)) (wc, ws) _ Hw Hb)).
  cbn [fst]. rewrite String.eqb_refl.
  erewrite bind_run.
  2:{ fold median. apply table_lines_run; assumption. }
  rewrite bind_print, !add_lines_app.
  destruct show_variance.
  - refine (eq_trans Htrailer _). rewrite add_lines_app. do 2 f_equal.
    cbn [app]. now rewrite <- app_assoc.
  - reflexivity.
Qed.

Lemma comparison_table_ranking_witness :
  exists winner rest trailer,
    Permutation (winner :: rest) scenario_aggregated
    /\ StronglySorted
         (fun a b => median_at "insert_p50_median" a
                     <= median_at "insert_p50_median" b)%Q (winner :: rest)
    /\ (forall q,
           filter (fun item => Qeq_bool (median_at "insert_p50_median" item) q)
             (winner :: rest)
           = filter (fun item => Qeq_bool (median_at "insert_p50_median" item) q)
               scenario_aggregated)
    /\ print_comparison_table scenario_aggregated "INSERT P50" "insert_p50"
         "P50 Median (ns)" false empty_world
       = (Ok tt,
          add_lines empty_world
            ([rule; VStr "INSERT P50"; rule;
              table_header "P50 Median (ns)" false; dashes]
             ++ table_row "insert_p50" false "⭐" (VStr "baseline") winner
             :: map (fun item =>
                       table_row "insert_p50" false "  "
                         (deviation (median_at "insert_p50_median" winner)
                            (median_at "insert_p50_median" item)) item)
                  rest
             ++ rule :: trailer)).
Proof.
  apply (comparison_table_ranking scenario_aggregated "INSERT P50" "insert_p50"
           "P50 Median (ns)" false empty_world).
  - unfold dict_wf, keys. simpl.
    repeat constructor; simpl; intuition discriminate.
  - discriminate.
  - repeat constructor;
      (eexists _, _, _, _, _, _; repeat split; reflexivity).
  - intros item [<-|[<-|[]]] _; discriminate.
Defined.

(** The scenario of the specification: insert p50 samples 100, 104 for A and
    110, 108 for B give medians 102 and 109, and B is reported at +6.86%. *)
Example scenario_insert_p50_deviation :
  median_at "insert_p50_median" (nth 0 scenario_aggregated ("", [])) == 102
  /\ median_at "insert_p50_median" (nth 1 scenario_aggregated ("", [])) == 109
  /\ deviation 102 109 = VFormat "{:+.2f}%" [VNum ((109 - 102) / 102 * 100)%Q]
  /\ (6855 # 1000 <= (109 - 102) / 102 * 100 < 6865 # 1000)%Q.
Proof.
  split; [reflexivity|]. split; [reflexivity|]. split; [reflexivity|].
  split; [discriminate|reflexivity].
Qed.

(** C7. When the lowest median of the metric is zero,
    [print_comparison_table] reports the error and exits with status 1; no
    table header and no row has been printed. *)
Theorem zero_baseline_is_fatal :
  forall (aggregated : dict stats_dict)
         (title metric_key metric_label : string) (show_variance : bool)
         (w0 : world) (winner_config : string) (winner_stats : stats_dict)
         (rest : dict stats_dict),
    sorted (median_of (metric_key ++ "_median")%string) aggregated
    = Ok ((winner_config, winner_stats) :: rest) ->
    median_at (metric_key ++ "_median")%string (winner_config, winner_stats)
    == 0 ->
    (forall item, In item aggregated ->
       (median_at (metric_key ++ "_median")%string (winner_config, winner_stats)
        <= median_at (metric_key ++ "_median")%string item)%Q)
    /\ print_comparison_table aggregated title metric_key metric_label
         show_variance w0
       = (Raise (SystemExit 1),
          add_lines w0
            ([rule; VStr title; rule]
             ++ zero_baseline_report metric_key winner_config winner_stats))
    /\ 1 <> 0.
Proof.
  intros aggregated title metric_key metric_label show_variance w0
         winner_config winner_stats rest Hsorted Hzero.
  destruct (sorted_inv _ _ _ Hsorted) as [Hkeys Hsort0].
  assert (Hsort : sort_by (median_at (metric_key ++ "_median")%string) aggregated
                  = (winner_config, winner_stats) :: rest)
    by (symmetry; exact Hsort0).
  assert (Hwin : In (winner_config, winner_stats) aggregated).
  { apply (sort_by_In (median_at (metric_key ++ "_median")%string)).
    rewrite Hsort. now left. }
  split; [|split; [|discriminate]].
  - intros item Hin.
    now apply (sort_by_head_least _ _ _ _ Hsort).
  - rewrite print_comparison_table_unfold, !bind_print, Hsorted, bind_lift.
    cbv beta iota. rewrite (Hkeys _ Hwin), bind_lift.
    change (key_of (median_of (metric_key ++ "_median")%string)
              (winner_config, winner_stats))
      with (median_at (metric_key ++ "_median")%string
              (winner_config, winner_stats)).
    apply Qeq_bool_iff in Hzero. rewrite Hzero.
    unfold zero_baseline_report. cbn [for_each].
    unfold bind, print, ret, sys_exit, raise, add_lines.
    cbn [spawned printed files]. rewrite <- !app_assoc. reflexivity.
Qed.

Lemma zero_baseline_is_fatal_witness :
  (forall item, In item idle_aggregated ->
     (median_at "insert_p50_median" (nth 0 idle_aggregated ("", []))
      <= median_at "insert_p50_median" item)%Q)
  /\ print_comparison_table idle_aggregated "INSERT P50" "insert_p50"
       "P50 Median (ns)" true empty_world
     = (Raise (SystemExit 1),
        add_lines empty_world
          ([rule; VStr "INSERT P50"; rule]
           ++ zero_baseline_report "insert_p50" "idle"
                (snd (nth 0 idle_aggregated ("", [])))))
  /\ 1 <> 0.
Proof.
  apply (zero_baseline_is_fatal idle_aggregated "INSERT P50" "insert_p50"
           "P50 Median (ns)" true empty_world "idle"
           (snd (nth 0 idle_aggregated ("", [])))
           [nth 1 idle_aggregated ("", [])]).
  - reflexivity.
  - reflexivity.
Defined.

(** ** Detailed percentiles *)

(** C9. The detailed report of an operation ranks the configurations by the
    median of the operation's p99_9 (stable, ascending), takes the first, and
    prints p0, p50, p95, p99, p99_9 and p99_99 as stored in that
    configuration's representative run. *)
Theorem detailed_percentiles_report :
  forall (aggregated : dict stats_dict) (operation : string) (w0 : world)
         (winner : string * stats_dict) (rest : dict stats_dict)
         (p0 p50 p95 p99 p99_9 p99_99 : Q),
    let median := median_at (operation ++ "_p99_9_median")%string in
    (forall item, In item aggregated ->
       exists m, get (operation ++ "_p99_9_median")%string (snd item)
                 = Some (VNum m)) ->
    sort_by median aggregated = winner :: rest ->
    has_ladder operation (snd winner) p0 p50 p95 p99 p99_9 p99_99 ->
    (forall item, In item aggregated -> median winner <= median item)%Q
    /\ (forall q,
           filter (fun item => Qeq_bool (median item) q) (winner :: rest)
           = filter (fun item => Qeq_bool (median item) q) aggregated)
    /\ print_detailed_percentiles aggregated operation w0
       = (Ok tt,
          add_lines w0
            ([rule;
              VFormat "DETAILED PERCENTILES - {} (P99.9 Winner for {})"
                [VStr (fst winner); VStr (upper operation)];
              rule;
              VFormat "{} latencies (from median run):"
                [VStr (capitalize operation)]]
             ++ ladder_lines p0 p50 p95 p99 p99_9 p99_99
             ++ [rule])).
Proof.
  intros aggregated operation w0 winner rest p0 p50 p95 p99 p99_9 p99_99 median
         Hkeys Hsort Hladder.
  split; [|split].
  - intros item Hin. now apply (sort_by_head_least median winner rest aggregated).
  - intros q. rewrite <- Hsort. apply sort_by_stable.
  - destruct winner as [winner_config winner_stats].
    destruct Hladder as (perf & median_run & Hrun & Hop
                         & H0 & H50 & H95 & H99 & H999 & H9999).
    cbn [fst snd] in *.
    unfold print_detailed_percentiles.
    rewrite (ranking_sorted (operation ++ "_p99_9_median")%string).
    2:{ intros item Hin. destruct (Hkeys item Hin) as [m Hm].
        unfold median_at, key_of, median_of, getitem. now rewrite Hm. }
    fold median. rewrite Hsort, bind_lift. cbv beta iota.
    rewrite !bind_print, (getitem_Some _ _ _ Hrun), bind_lift.
    cbv beta iota.
    rewrite (getitem_Some _ _ _ Hop), bind_lift, bind_print.
    rewrite (getitem_Some _ _ _ H0), bind_lift, bind_print.
    rewrite (getitem_Some _ _ _ H50), bind_lift, bind_print.
    rewrite (getitem_Some _ _ _ H95), bind_lift, bind_print.
    rewrite (getitem_Some _ _ _ H99), bind_lift, bind_print.
    rewrite (getitem_Some _ _ _ H999), bind_lift, bind_print.
    rewrite (getitem_Some _ _ _ H9999), bind_lift, bind_print.
    rewrite print_run, !add_lines_app. reflexivity.
Qed.

Lemma detailed_percentiles_report_witness :
  (forall item, In item scenario_aggregated ->
     median_at "insert_p99_9_median" (nth 0 scenario_aggregated ("", []))
     <= median_at "insert_p99_9_median" item)%Q
  /\ (forall q,
         filter (fun item => Qeq_bool (median_at "insert_p99_9_median" item) q)
           scenario_aggregated
         = filter (fun item => Qeq_bool (median_at "insert_p99_9_median" item) q)
             scenario_aggregated)
  /\ print_detailed_percentiles scenario_aggregated "insert" empty_world
     = (Ok tt,
        add_lines empty_world
          ([rule;
            VFormat "DETAILED PERCENTILES - {} (P99.9 Winner for {})"
              [VStr "A"; VStr "INSERT"];
            rule;
            VFormat "{} latencies (from median run):" [VStr "Insert"]]
           ++ ladder_lines 52 104 109 113 124 154
           ++ [rule])).
Proof.
  apply (detailed_percentiles_report scenario_aggregated "insert" empty_world
           (nth 0 scenario_aggregated ("", []))
           [nth 1 scenario_aggregated ("", [])]
           52 104 109 113 124 154).
  - intros item [<-|[<-|[]]]; eexists; reflexivity.
  - reflexivity.
  - eexists _, _. repeat split; reflexivity.
Defined.

(** ** CSV export *)

Lemma export_csv_unfold (aggregated : dict stats_dict) (output_file : string) :
  export_csv aggregated output_file
  = (open_csv output_file ;;
     writerow output_file (map VStr csv_header) ;;
     rows <- lift (sorted (median_of "insert_p99_9_median") aggregated) ;;
     for_each rows (csv_line output_file) tt ;;
     print (VFormat "✓ Exported CSV to {}" [VStr output_file])).
Proof. reflexivity. Qed.

Lemma setitem_setitem {V} (k : string) (v v' : V) (d : dict V) :
  setitem k v' (setitem k v d) = setitem k v' d.
Proof.
  induction d as [|[k0 v0] d IH]; simpl.
  - now rewrite String.eqb_refl.
  - destruct (String.eqb k0 k) eqn:E; simpl; rewrite E; [reflexivity|].
    now rewrite IH.
Qed.

Lemma open_csv_run (path : string) (w : world) :
  open_csv path w = (Ok tt, with_csv w path []).
Proof. reflexivity. Qed.

Lemma writerow_run (path : string) (row : list value)
    (rows : list (list value)) (w : world) :
  writerow path row (with_csv w path rows)
  = (Ok tt, with_csv w path (rows ++ [row])).
Proof.
  unfold writerow, with_csv. cbn [spawned printed files].
  now rewrite get_setitem_same, setitem_setitem.
Qed.

Lemma csv_lines_run (path : string) (l : dict stats_dict) :
  forall (rows : list (list value)) (w : world),
    Forall (fun item => has_csv_fields (snd item)) l ->
    for_each l (csv_line path) tt (with_csv w path rows)
    = (Ok tt, with_csv w path (rows ++ map csv_row l)).
Proof.
  induction l as [|[config stats] l IH]; intros rows w Hall.
  - cbn [for_each map]. now rewrite app_nil_r.
  - inversion Hall as [|? ? Hitem Hall']; subst. cbn [snd] in Hitem.
    cbn [for_each]. unfold csv_line at 1.
    rewrite (mapM_map _ (fun k => field k stats)).
    2:{ intros k Hk. unfold getitem, field.
        specialize (Hitem k Hk). now destruct (get k stats). }
    rewrite bind_bind, bind_lift.
    erewrite bind_run by apply writerow_run.
    rewrite IH by assumption.
    cbn [map]. now rewrite <- app_assoc.
Qed.

(** C6, as the code has it. The CSV file holds the header and one row per
    configuration, in ascending order of the median of insert p99_9; a row
    holds the configuration name, the pass count and the median, minimum,
    maximum and standard deviation of the p99_9 percentile of insert, find and
    erase. The p50 statistics are not exported. *)
Theorem csv_export_rows :
  forall (aggregated : dict stats_dict) (output_file : string) (w0 : world),
    let median := median_at "insert_p99_9_median" in
    Forall (fun item => has_csv_fields (snd item)) aggregated ->
    (forall item, In item aggregated ->
       median_of "insert_p99_9_median" item = Ok (median item)) ->
    exists ranking,
      Permutation ranking aggregated
      /\ StronglySorted (fun a b => median a <= median b)%Q ranking
      /\ csv_header = "config" :: "passes" :: metric_columns "p99_9"
      /\ csv_stat_keys = "passes" :: metric_columns "p99_9"
      /\ export_csv aggregated output_file w0
         = (Ok tt,
            add_lines
              (with_csv w0 output_file
                 (map VStr csv_header :: map csv_row ranking))
              [VFormat "✓ Exported CSV to {}" [VStr output_file]]).
Proof.
  intros aggregated output_file w0 median Hall Hkeys.
  exists (sort_by median aggregated).
  split; [apply sort_by_perm|].
  split; [apply (sort_by_sorted median)|].
  split; [reflexivity|]. split; [reflexivity|].
  rewrite export_csv_unfold.
  erewrite bind_run by apply open_csv_run.
  erewrite bind_run by apply writerow_run.
  rewrite (ranking_sorted "insert_p99_9_median") by exact Hkeys.
  rewrite bind_lift. fold median.
  erewrite bind_run.
  2:{ apply csv_lines_run.
      eapply Permutation_Forall; [symmetry; apply sort_by_perm|exact Hall]. }
  reflexivity.
Qed.

Lemma csv_export_rows_witness :
  exists ranking,
    Permutation ranking scenario_aggregated
    /\ StronglySorted
         (fun a b => median_at "insert_p99_9_median" a
                     <= median_at "insert_p99_9_median" b)%Q ranking
    /\ csv_header = "config" :: "passes" :: metric_columns "p99_9"
    /\ csv_stat_keys = "passes" :: metric_columns "p99_9"
    /\ export_csv scenario_aggregated "results.csv" empty_world
       = (Ok tt,
          add_lines
            (with_csv empty_world "results.csv"
               (map VStr csv_header :: map csv_row ranking))
            [VFormat "✓ Exported CSV to {}" [VStr "results.csv"]]).
Proof.
  apply (csv_export_rows scenario_aggregated "results.csv" empty_world).
  - repeat constructor; intros k Hk; simpl in Hk;
      repeat (destruct Hk as [<-|Hk]; [discriminate|]); contradiction.
  - intros item [<-|[<-|[]]]; reflexivity.
Defined.

(** C6 as stated fails: the exported file has no column for any p50
    statistic, in the header or in the rows. *)
Lemma csv_export_omits_p50 :
  exists header rows,
    get "results.csv"
      (files (snd (export_csv scenario_aggregated "results.csv" empty_world)))
    = Some (Csv (header :: rows))
    /\ header = map VStr csv_header
    /\ ~ incl both_percentile_columns csv_header
    /\ (forall column, In column (metric_columns "p50") ->
          ~ In column csv_header)
    /\ Forall (fun row => List.length row = 14%nat) (header :: rows)
    /\ List.length both_percentile_columns = 26%nat.
Proof.
  eexists _, _. split; [reflexivity|].
  split; [reflexivity|].
  assert (Hp50 : forall column, In column (metric_columns "p50") ->
                   ~ In column csv_header).
  { intros column Hin Hhead. simpl in Hin, Hhead.
    repeat (destruct Hin as [<-|Hin];
            [repeat (destruct Hhead as [Hhead|Hhead]; [discriminate|]);
             contradiction|]).
    contradiction. }
  split; [|split; [exact Hp50|split; [|reflexivity]]].
  - intros Hincl. apply (Hp50 "insert_p50_median").
    + simpl. tauto.
    + apply Hincl. simpl. tauto.
  - repeat constructor.
Qed.

(** ** The interleaved sampler *)

Section Sampler.
Variable subprocess_run :
  list (list string * CompletedProcess) -> list string -> CompletedProcess.
Variable json_loads : string -> option document.
Variables (binary : string) (iterations tree_size batches batch_size : Z)
          (record_rampup : bool) (seed taskset_core : Z).

Local Abbreviation this_command :=
  (command_for binary iterations tree_size batches batch_size record_rampup
     seed taskset_core).
Local Abbreviation this_visit :=
  (visit subprocess_run json_loads binary iterations tree_size batches
     batch_size record_rampup seed taskset_core).
Local Abbreviation this_pass :=
  (run_pass subprocess_run json_loads binary iterations tree_size batches
     batch_size record_rampup seed taskset_core).
Local Abbreviation this_spec :=
  (visits_spec json_loads binary iterations tree_size batches batch_size
     record_rampup seed taskset_core).

Lemma interleaved_benchmark_unfold (configs : list string) (num_passes : Z) :
  interleaved_benchmark subprocess_run json_loads binary configs num_passes
    iterations tree_size batches batch_size record_rampup seed taskset_core
  = for_each (range 1 (num_passes + 1)) (this_pass configs num_passes) [].
Proof. reflexivity. Qed.

Lemma run_benchmark_run (config : string) (w : world) :
  let p := subprocess_run (spawned w) (this_command config) in
  run_benchmark subprocess_run json_loads binary config iterations tree_size
    batches batch_size record_rampup seed taskset_core w
  = match parsed json_loads p with
    | Some data =>
        (Ok data,
         add_lines (spawn_world w (this_command config) p)
           [running_line config; VStr " ✓"])
    | None =>
        (Raise (SystemExit 1),
         add_lines (spawn_world w (this_command config) p)
           (running_line config :: failure_report p))
    end.
Proof.
  intros p. unfold run_benchmark, parsed, failure_report.
  fold (this_command config).
  unfold bind, print, spawn, ret, sys_exit, raise. cbn [spawned printed files].
  fold p. destruct (returncode p =? 0); cbn [negb].
  - destruct (json_loads (stdout p));
      unfold add_lines, spawn_world, running_line; cbn [spawned printed files];
      rewrite <- ?app_assoc; reflexivity.
  - unfold add_lines, spawn_world, running_line; cbn [spawned printed files];
      rewrite <- ?app_assoc; reflexivity.
Qed.

Lemma visits_nil (results : dict (list document)) (w : world) :
  this_spec [] results w (Ok results) w.
Proof.
  split; [reflexivity|]. exists []. split; [now rewrite app_nil_r|].
  now exists [].
Qed.

Lemma visit_spec (config : string) (results : dict (list document))
    (w : world) :
  this_spec [config] results w (fst (this_visit config results w))
    (snd (this_visit config results w)).
Proof.
  unfold this_visit, bind. rewrite run_benchmark_run.
  set (p := subprocess_run (spawned w) (this_command config)).
  destruct (parsed json_loads p) as [data|] eqn:Hp; cbn [fst snd ret].
  - split; [reflexivity|]. exists [(this_command config, p)].
    split; [reflexivity|]. exists [data]. cbn [map snd]. rewrite Hp.
    repeat split.
  - split; [reflexivity|]. exists [(this_command config, p)].
    split; [reflexivity|]. split; [reflexivity|].
    exists [], config, p, [], [], (printed w).
    repeat split; auto.
Qed.

Lemma parsed_all_Some (tr : list (list string * CompletedProcess))
    (docs : list document) :
  map (fun e => parsed json_loads (snd e)) tr = map Some docs ->
  Forall (fun e => parsed json_loads (snd e) <> None) tr.
Proof.
  revert docs. induction tr as [|e tr IH]; intros [|d docs] H;
    try discriminate; constructor.
  - cbn [map] in H. injection H as H _. congruence.
  - cbn [map] in H. injection H as _ H. eauto.
Qed.

Lemma combine_app_same {A B} (l1 l2 : list A) (d1 d2 : list B) :
  List.length l1 = List.length d1 ->
  combine (l1 ++ l2) (d1 ++ d2) = combine l1 d1 ++ combine l2 d2.
Proof.
  revert d1. induction l1 as [|x l1 IH]; intros [|y d1] H;
    try discriminate; [reflexivity|].
  cbn [app combine]. f_equal. apply IH. now injection H.
Qed.

Lemma visits_app (o1 o2 : list string) (results r1 : dict (list document))
    (w w1 w1' w2 : world) (r : outcome (dict (list document))) :
  this_spec o1 results w (Ok r1) w1 ->
  spawned w1' = spawned w1 -> files w1' = files w1 ->
  this_spec o2 r1 w1' r w2 ->
  this_spec (o1 ++ o2) results w r w2.
Proof.
  intros (Hf1 & tr1 & Hs1 & docs1 & Hc1 & Hp1 & ->) Hs Hf (Hf2 & tr2 & Hs2 & H2).
  split; [congruence|].
  exists (tr1 ++ tr2).
  split; [rewrite Hs2, Hs, Hs1; now rewrite app_assoc|].
  assert (Hlen : List.length o1 = List.length docs1).
  { apply (f_equal (@List.length _)) in Hc1, Hp1.
    rewrite !length_map in Hc1, Hp1. congruence. }
  destruct r as [r2|e].
  - destruct H2 as (docs2 & Hc2 & Hp2 & ->).
    exists (docs1 ++ docs2). rewrite !map_app, Hc1, Hc2, Hp1, Hp2.
    repeat split. rewrite combine_app_same by exact Hlen.
    unfold collect. now rewrite fold_left_app.
  - destruct H2 as (-> & tr0 & config & p & visited & rest & shown
                    & -> & Hok & Hfail & -> & Hv & Hprinted).
    split; [reflexivity|].
    exists (tr1 ++ tr0), config, p, (o1 ++ visited), rest, shown.
    repeat split; try assumption.
    + now rewrite app_assoc.
    + apply Forall_app. split; [now apply (parsed_all_Some tr1 docs1)|exact Hok].
    + now rewrite app_assoc.
    + now rewrite !map_app, Hc1, Hv.
Qed.

Lemma visits_raise_app (o1 o2 : list string) (results : dict (list document))
    (w w1 : world) (e : exn) :
  this_spec o1 results w (Raise e) w1 ->
  this_spec (o1 ++ o2) results w (Raise e) w1.
Proof.
  intros (Hf & tr & Hs & -> & tr0 & config & p & visited & rest & shown
          & -> & Hok & Hfail & -> & Hv & Hprinted).
  split; [exact Hf|]. exists (tr0 ++ [(this_command config, p)]).
  split; [exact Hs|]. split; [reflexivity|].
  exists tr0, config, p, visited, (rest ++ o2), shown.
  repeat split; try assumption.
  now rewrite <- app_assoc.
Qed.

Lemma visits_spec_from (order : list string) (results : dict (list document))
    (w w0 w' : world) (r : outcome (dict (list document))) :
  spawned w = spawned w0 -> files w = files w0 ->
  this_spec order results w r w' -> this_spec order results w0 r w'.
Proof.
  intros Hs Hf H.
  apply (visits_app [] order results results w0 w0 w w' r);
    [apply visits_nil|assumption..].
Qed.

Lemma for_each_cons {A S} (x : A) (l : list A) (body : A -> S -> M S)
    (s : S) (w : world) :
  for_each (x :: l) body s w
  = match body x s w with
    | (Ok s', w') => for_each l body s' w'
    | (Raise e, w') => (Raise e, w')
    end.
Proof. reflexivity. Qed.

Lemma inner_loop_spec (order : list string) :
  forall (results : dict (list document)) (w : world),
    this_spec order results w
      (fst (for_each order this_visit results w))
      (snd (for_each order this_visit results w)).
Proof.
  induction order as [|config order IH]; intros results w.
  - apply visits_nil.
  - rewrite for_each_cons.
    pose proof (visit_spec config results w) as Hstep.
    destruct (this_visit config results w) as [[r1|e] w1]; cbn [fst snd] in *.
    + apply (visits_app [config] order results r1 w w1 w1);
        [exact Hstep|reflexivity|reflexivity|apply IH].
    + apply (visits_raise_app [config] order). exact Hstep.
Qed.

Lemma run_pass_spec (configs : list string) (num_passes pass_num : Z)
    (results : dict (list document)) (w : world) :
  this_spec (pass_order pass_num configs) results w
    (fst (this_pass configs num_passes pass_num results w))
    (snd (this_pass configs num_passes pass_num results w)).
Proof.
  unfold this_pass, pass_order.
  destruct (pass_num mod 2 =? 1);
    rewrite bind_bind, bind_print; unfold bind at 1, ret at 1;
    (eapply visits_spec_from; [| |apply inner_loop_spec]; reflexivity).
Qed.

Lemma outer_loop_spec (configs : list string) (num_passes : Z)
    (passes : list Z) :
  forall (results : dict (list document)) (w : world),
    this_spec
      (List.concat (map (fun pass_num => pass_order pass_num configs) passes))
      results w
      (fst (for_each passes (this_pass configs num_passes) results w))
      (snd (for_each passes (this_pass configs num_passes) results w)).
Proof.
  induction passes as [|pass_num passes IH]; intros results w.
  - apply visits_nil.
  - rewrite for_each_cons. cbn [map List.concat].
    pose proof (run_pass_spec configs num_passes pass_num results w) as Hstep.
    destruct (this_pass configs num_passes pass_num results w) as [[r1|e] w1];
      cbn [fst snd] in *.
    + eapply visits_app; [exact Hstep|reflexivity|reflexivity|apply IH].
    + now apply visits_raise_app.
Qed.

(** The run of the sampler against its schedule. *)
Lemma interleaved_benchmark_spec (configs : list string) (num_passes : Z)
    (w : world) (r : outcome (dict (list document))) (w' : world) :
  interleaved_benchmark subprocess_run json_loads binary configs num_passes
    iterations tree_size batches batch_size record_rampup seed taskset_core w
  = (r, w') ->
  this_spec (List.concat (schedule num_passes configs)) [] w r w'.
Proof.
  rewrite interleaved_benchmark_unfold. intros H.
  pose proof (outer_loop_spec configs num_passes (range 1 (num_passes + 1)) [] w)
    as Hspec.
  rewrite H in Hspec. exact Hspec.
Qed.
End Sampler.

(** ** The schedule *)

Lemma range_length (a b : Z) : List.length (range a b) = Z.to_nat (b - a).
Proof. unfold range. now rewrite length_map, length_seq. Qed.

Lemma range_nth (a b : Z) (i : nat) :
  (i < Z.to_nat (b - a))%nat ->
  nth_error (range a b) i = Some (a + Z.of_nat i).
Proof.
  intros Hi. unfold range. rewrite nth_error_map.
  rewrite nth_error_nth' with (d := 0%nat) by now rewrite length_seq.
  now rewrite seq_nth.
Qed.

Lemma pass_order_odd (pass_num : Z) (configs : list string) :
  pass_order pass_num configs = if Z.odd pass_num then configs else rev configs.
Proof.
  unfold pass_order. rewrite Zmod_odd. now destruct (Z.odd pass_num).
Qed.

Lemma pass_order_perm (pass_num : Z) (configs : list string) :
  Permutation (pass_order pass_num configs) configs.
Proof.
  unfold pass_order. destruct (pass_num mod 2 =? 1); [reflexivity|].
  symmetry. apply Permutation_rev.
Qed.

Lemma schedule_length (num_passes : Z) (configs : list string) :
  List.length (schedule num_passes configs) = Z.to_nat num_passes.
Proof.
  unfold schedule. rewrite length_map, range_length.
  now replace (num_passes + 1 - 1) with num_passes by lia.
Qed.

Lemma schedule_nth (num_passes : Z) (configs : list string) (i : Z) :
  1 <= i <= num_passes ->
  nth_error (schedule num_passes configs) (Z.to_nat (i - 1))
  = Some (if Z.odd i then configs else rev configs).
Proof.
  intros Hi. unfold schedule. rewrite nth_error_map, range_nth by lia.
  cbn [option_map]. rewrite pass_order_odd.
  now replace (1 + Z.of_nat (Z.to_nat (i - 1))) with i by lia.
Qed.

Lemma schedule_count (num_passes : Z) (configs : list string) (c : string) :
  count_occ string_dec (List.concat (schedule num_passes configs)) c
  = (Z.to_nat num_passes * count_occ string_dec configs c)%nat.
Proof.
  rewrite <- schedule_length with (configs := configs). unfold schedule.
  induction (range 1 (num_passes + 1)) as [|p ps IH]; [reflexivity|].
  cbn [map List.concat List.length]. rewrite count_occ_app, IH.
  rewrite (proj1 (Permutation_count_occ string_dec _ _)
             (pass_order_perm p configs) c).
  lia.
Qed.

Lemma schedule_visits_configs (num_passes : Z) (configs : list string) :
  map snd (schedule_visits num_passes configs)
  = List.concat (schedule num_passes configs).
Proof.
  unfold schedule_visits, schedule.
  induction (range 1 (num_passes + 1)) as [|p ps IH]; [reflexivity|].
  cbn [flat_map map List.concat]. rewrite map_app, IH, map_map. cbn [snd].
  now rewrite map_id.
Qed.

Lemma command_injective (binary : string)
    (iterations tree_size batches batch_size : Z) (record_rampup : bool)
    (seed taskset_core : Z) (c c' : string) :
  command binary c iterations tree_size batches batch_size record_rampup seed
    taskset_core
  = command binary c' iterations tree_size batches batch_size record_rampup
      seed taskset_core ->
  c = c'.
Proof.
  unfold command. intros H. apply app_inv_head in H.
  cbn [app] in H. now injection H.
Qed.

Section Schedule.
Variable subprocess_run :
  list (list string * CompletedProcess) -> list string -> CompletedProcess.
Variable json_loads : string -> option document.
Variables (binary : string) (iterations tree_size batches batch_size : Z)
          (record_rampup : bool) (seed taskset_core : Z).

Local Abbreviation command_of :=
  (command_for binary iterations tree_size batches batch_size record_rampup
     seed taskset_core).

(** C1, as the code has it. A completed run with [N >= 2] passes invokes
    the measurement process along the schedule: pass [i] (from 1) visits the
    configurations in input order when [i] is odd and in reverse order when
    [i] is even. A configuration is visited [N] times for each of its
    occurrences in the input list: exactly [N] times when the names of the
    list are distinct. *)
Theorem schedule_alternates :
  forall (configs : list string) (num_passes : Z) (w0 w1 : world)
         (results : dict (list document)),
    2 <= num_passes ->
    interleaved_benchmark subprocess_run json_loads binary configs num_passes
      iterations tree_size batches batch_size record_rampup seed taskset_core
      w0
    = (Ok results, w1) ->
    exists tr,
      spawned w1 = spawned w0 ++ tr
      /\ map fst tr
         = map command_of (List.concat (schedule num_passes configs))
      /\ List.length (schedule num_passes configs) = Z.to_nat num_passes
      /\ (forall i, 1 <= i <= num_passes ->
            nth_error (schedule num_passes configs) (Z.to_nat (i - 1))
            = Some (if Z.odd i then configs else rev configs))
      /\ (forall c,
            count_occ command_dec (map fst tr) (command_of c)
            = (Z.to_nat num_passes * count_occ string_dec configs c)%nat)
      /\ (NoDup configs -> forall c, In c configs ->
            count_occ command_dec (map fst tr) (command_of c)
            = Z.to_nat num_passes).
Proof.
  intros configs num_passes w0 w1 results HN Hrun.
  apply interleaved_benchmark_spec in Hrun.
  destruct Hrun as (_ & tr & Hs & docs & Hc & _ & _).
  exists tr.
  assert (Hcount : forall c,
    count_occ command_dec (map fst tr) (command_of c)
    = (Z.to_nat num_passes * count_occ string_dec configs c)%nat).
  { intros c. rewrite Hc.
    rewrite <- (count_occ_map command_of string_dec command_dec).
    - apply schedule_count.
    - intros x y. apply command_injective. }
  repeat split.
  - exact Hs.
  - exact Hc.
  - apply schedule_length.
  - intros i Hi. now apply schedule_nth.
  - exact Hcount.
  - intros Hnd c Hin. rewrite Hcount.
    rewrite (proj1 (NoDup_count_occ' string_dec configs) Hnd c Hin). lia.
Qed.
End Schedule.

Lemma scenario_run_completes : scenario_run = (Ok scenario_results, snd scenario_run).
Proof. reflexivity. Defined.

Lemma schedule_alternates_witness :
  exists tr,
    spawned (snd scenario_run) = spawned empty_world ++ tr
    /\ map fst tr
       = map (command_for "bin" 1 1000 100 1000 false 42 (-1))
           (List.concat (schedule 2 ["A"; "B"]))
    /\ List.length (schedule 2 ["A"; "B"]) = Z.to_nat 2
    /\ (forall i, 1 <= i <= 2 ->
          nth_error (schedule 2 ["A"; "B"]) (Z.to_nat (i - 1))
          = Some (if Z.odd i then ["A"; "B"] else rev ["A"; "B"]))
    /\ (forall c,
          count_occ command_dec (map fst tr)
            (command_for "bin" 1 1000 100 1000 false 42 (-1) c)
          = (Z.to_nat 2 * count_occ string_dec ["A"; "B"] c)%nat)
    /\ (NoDup ["A"; "B"] -> forall c, In c ["A"; "B"] ->
          count_occ command_dec (map fst tr)
            (command_for "bin" 1 1000 100 1000 false 42 (-1) c)
          = Z.to_nat 2).
Proof.
  apply (schedule_alternates scenario_process scenario_loads "bin" 1 1000 100
           1000 false 42 (-1) ["A"; "B"] 2 empty_world (snd scenario_run)
           scenario_results).
  - lia.
  - exact scenario_run_completes.
Defined.

(** C1 as stated fails for a list that names a configuration twice: with two
    passes over ["A"; "A"] the configuration is visited four times. *)
Lemma duplicate_configuration_visits :
  let run :=
    interleaved_benchmark scenario_process scenario_loads "bin" ["A"; "A"] 2
      1 1000 100 1000 false 42 (-1) empty_world in
  (exists results, run = (Ok results, snd run))
  /\ In "A" ["A"; "A"]
  /\ count_occ command_dec (map fst (spawned (snd run)))
       (command_for "bin" 1 1000 100 1000 false 42 (-1) "A")
     = 4%nat
  /\ 4%nat <> Z.to_nat 2.
Proof.
  intros run. split; [|split; [now left|split]].
  - eexists. vm_compute. reflexivity.
  - vm_compute. reflexivity.
  - simpl. lia.
Qed.

(** ** The result sequences *)

Lemma get_append_result_same (c : string) (d : document)
    (results : dict (list document)) :
  get c (append_result c d results) = Some (result_sequence c results ++ [d]).
Proof.
  unfold result_sequence. induction results as [|[k l] rest IH]; simpl.
  - now rewrite String.eqb_refl.
  - destruct (String.eqb k c) eqn:E; simpl; rewrite E; [reflexivity|exact IH].
Qed.

Lemma get_append_result_other (c c' : string) (d : document)
    (results : dict (list document)) :
  c <> c' -> get c (append_result c' d results) = get c results.
Proof.
  intros Hne. induction results as [|[k l] rest IH]; simpl.
  - destruct (String.eqb_spec c' c); [congruence|reflexivity].
  - destruct (String.eqb_spec k c') as [->|Hk]; simpl.
    + destruct (String.eqb_spec c' c); [congruence|reflexivity].
    + now rewrite IH.
Qed.

Lemma result_sequence_collect (c : string) (arrivals : list (string * document)) :
  forall results,
    result_sequence c (collect arrivals results)
    = result_sequence c results ++ arrivals_for c arrivals.
Proof.
  unfold collect, arrivals_for.
  induction arrivals as [|[c' d] arrivals IH]; intros results; cbn [fold_left].
  - cbn [filter map]. now rewrite app_nil_r.
  - rewrite IH. cbn [filter fst snd].
    destruct (String.eqb_spec c' c) as [->|Hne].
    + unfold result_sequence at 1. rewrite get_append_result_same.
      cbn [map snd]. now rewrite <- app_assoc.
    + unfold result_sequence.
      now rewrite get_append_result_other by congruence.
Qed.

Lemma arrivals_length (c : string) (order : list string) :
  forall docs : list document,
    List.length docs = List.length order ->
    List.length (arrivals_for c (combine order docs))
    = count_occ string_dec order c.
Proof.
  unfold arrivals_for.
  induction order as [|x order IH]; intros [|d docs] Hlen; try discriminate;
    [reflexivity|].
  cbn [combine filter fst count_occ]. injection Hlen as Hlen.
  destruct (String.eqb_spec x c) as [->|Hne].
  - destruct (string_dec c c); [|congruence]. cbn [map List.length].
    now rewrite IH.
  - destruct (string_dec x c); [congruence|]. now apply IH.
Qed.

Lemma arrivals_produced (c : string) (visits : list (Z * string)) :
  forall docs : list document,
    arrivals_for c (combine (map snd visits) docs)
    = map snd (filter (fun e => String.eqb (snd (fst e)) c)
                      (combine visits docs)).
Proof.
  unfold arrivals_for.
  induction visits as [|[p x] visits IH]; intros [|d docs]; try reflexivity.
  cbn [map combine filter fst snd].
  destruct (String.eqb x c); cbn [map snd]; now rewrite IH.
Qed.

Lemma filter_combine_fst {A B} (f : A -> bool) (l : list A) :
  forall d : list B,
    List.length d = List.length l ->
    map fst (filter (fun e => f (fst e)) (combine l d)) = filter f l.
Proof.
  induction l as [|x l IH]; intros [|y d] Hlen; try discriminate;
    [reflexivity|].
  cbn [combine filter fst]. injection Hlen as Hlen.
  destruct (f x); cbn [map fst]; now rewrite IH.
Qed.

Lemma filter_pass_NoDup (c : string) (p : Z) (l : list string) :
  NoDup l -> In c l ->
  filter (fun v : Z * string => String.eqb (snd v) c) (map (pair p) l)
  = [(p, c)].
Proof.
  induction 1 as [|x l Hx Hnd IH]; intros Hin; [contradiction|].
  cbn [map filter snd].
  destruct (String.eqb_spec x c) as [->|Hne].
  - f_equal. clear IH Hin Hnd. induction l as [|y l IH]; [reflexivity|].
    cbn [map filter snd]. destruct (String.eqb_spec y c) as [->|_].
    + exfalso. apply Hx. now left.
    + apply IH. intros H. apply Hx. now right.
  - apply IH. destruct Hin; [congruence|assumption].
Qed.

Lemma filter_schedule_visits (c : string) (num_passes : Z)
    (configs : list string) :
  NoDup configs -> In c configs ->
  filter (fun v => String.eqb (snd v) c) (schedule_visits num_passes configs)
  = map (fun p => (p, c)) (range 1 (num_passes + 1)).
Proof.
  intros Hnd Hin. unfold schedule_visits.
  induction (range 1 (num_passes + 1)) as [|p ps IH]; [reflexivity|].
  cbn [flat_map map]. rewrite filter_app, IH, filter_pass_NoDup; [reflexivity| |].
  - eapply Permutation_NoDup; [symmetry; apply pass_order_perm|exact Hnd].
  - eapply Permutation_in; [symmetry; apply pass_order_perm|exact Hin].
Qed.

Section ResultSequences.
Variable subprocess_run :
  list (list string * CompletedProcess) -> list string -> CompletedProcess.
Variable json_loads : string -> option document.
Variables (binary : string) (iterations tree_size batches batch_size : Z)
          (record_rampup : bool) (seed taskset_core : Z).

(** C2, as the code has it. After a completed run with [N >= 0] passes the
    result sequence of a configuration holds, in order, the documents of its
    invocations: [N] times the number of its occurrences in the input list.
    When the names of the list are distinct, the sequence of every listed
    configuration has length [N] and its [i]-th entry is the document
    produced in pass [i]. *)
Theorem result_sequence_in_pass_order :
  forall (configs : list string) (num_passes : Z) (w0 w1 : world)
         (results : dict (list document)) (c : string),
    0 <= num_passes ->
    interleaved_benchmark subprocess_run json_loads binary configs num_passes
      iterations tree_size batches batch_size record_rampup seed taskset_core
      w0
    = (Ok results, w1) ->
    exists tr docs,
      spawned w1 = spawned w0 ++ tr
      /\ map (fun e => parsed json_loads (snd e)) tr = map Some docs
      /\ List.length docs = List.length (schedule_visits num_passes configs)
      /\ let produced := combine (schedule_visits num_passes configs) docs in
         let of_c :=
           filter (fun e => String.eqb (snd (fst e)) c) produced in
         result_sequence c results = map snd of_c
         /\ Z.of_nat (List.length (result_sequence c results))
            = num_passes * Z.of_nat (count_occ string_dec configs c)
         /\ (NoDup configs -> In c configs ->
               Z.of_nat (List.length (result_sequence c results)) = num_passes
               /\ map (fun e => fst (fst e)) of_c
                  = range 1 (num_passes + 1)).
Proof.
  intros configs num_passes w0 w1 results c HN Hrun.
  apply interleaved_benchmark_spec in Hrun.
  destruct Hrun as (_ & tr & Hs & docs & Hc & Hp & ->).
  assert (Hlen : List.length docs
                 = List.length (schedule_visits num_passes configs)).
  { apply (f_equal (@List.length _)) in Hc, Hp.
    rewrite !length_map in Hc, Hp.
    rewrite <- (length_map snd), schedule_visits_configs. congruence. }
  exists tr, docs. split; [exact Hs|]. split; [exact Hp|].
  split; [exact Hlen|]. cbn zeta.
  assert (Hseq : result_sequence c
                   (collect (combine (List.concat (schedule num_passes configs))
                               docs) [])
                 = map snd (filter (fun e => String.eqb (snd (fst e)) c)
                              (combine (schedule_visits num_passes configs)
                                 docs))).
  { rewrite result_sequence_collect. cbn [result_sequence get app].
    rewrite <- schedule_visits_configs. apply arrivals_produced. }
  assert (Hcount : Z.of_nat (List.length
                     (result_sequence c
                        (collect (combine
                                    (List.concat (schedule num_passes configs))
                                    docs) [])))
                   = num_passes * Z.of_nat (count_occ string_dec configs c)).
  { rewrite result_sequence_collect. cbn [result_sequence get app].
    rewrite arrivals_length
      by (rewrite <- schedule_visits_configs, length_map; exact Hlen).
    rewrite schedule_count. lia. }
  split; [exact Hseq|]. split; [exact Hcount|].
  intros Hnd Hin. split.
  - rewrite Hcount.
    rewrite (proj1 (NoDup_count_occ' string_dec configs) Hnd c Hin). lia.
  - rewrite <- (map_map fst fst).
    rewrite (filter_combine_fst (fun v => String.eqb (snd v) c)) by exact Hlen.
    rewrite filter_schedule_visits by assumption.
    rewrite map_map. cbn [fst]. apply map_id.
Qed.
End ResultSequences.

Lemma result_sequence_in_pass_order_witness :
  exists tr docs,
    spawned (snd scenario_run) = spawned empty_world ++ tr
    /\ map (fun e => parsed scenario_loads (snd e)) tr = map Some docs
    /\ List.length docs = List.length (schedule_visits 2 ["A"; "B"])
    /\ let produced := combine (schedule_visits 2 ["A"; "B"]) docs in
       let of_c := filter (fun e => String.eqb (snd (fst e)) "B") produced in
       result_sequence "B" scenario_results = map snd of_c
       /\ Z.of_nat (List.length (result_sequence "B" scenario_results))
          = 2 * Z.of_nat (count_occ string_dec ["A"; "B"] "B")
       /\ (NoDup ["A"; "B"] -> In "B" ["A"; "B"] ->
             Z.of_nat (List.length (result_sequence "B" scenario_results)) = 2
             /\ map (fun e => fst (fst e)) of_c = range 1 (2 + 1)).
Proof.
  apply (result_sequence_in_pass_order scenario_process scenario_loads "bin" 1
           1000 100 1000 false 42 (-1) ["A"; "B"] 2 empty_world
           (snd scenario_run) scenario_results "B").
  - lia.
  - exact scenario_run_completes.
Defined.

(** C2 as stated fails for a list that names a configuration twice: after two
    passes over ["A"; "A"] its result sequence holds four documents. *)
Lemma duplicate_configuration_sequence :
  let run :=
    interleaved_benchmark scenario_process scenario_loads "bin" ["A"; "A"] 2
      1 1000 100 1000 false 42 (-1) empty_world in
  exists results seq,
    run = (Ok results, snd run)
    /\ In "A" ["A"; "A"]
    /\ get "A" results = Some seq
    /\ List.length seq = 4%nat
    /\ 4%nat <> Z.to_nat 2.
Proof.
  intros run. eexists _, _.
  split; [vm_compute; reflexivity|].
  split; [now left|]. split; [vm_compute; reflexivity|].
  split; [reflexivity|]. simpl. lia.
Qed.

(** ** Failed invocations *)

Lemma quiet_ret {A} (a : A) : quiet (ret a).
Proof. intros w. reflexivity. Qed.

Lemma quiet_raise {A} (e : exn) : quiet (@raise A e).
Proof. intros w. reflexivity. Qed.

Lemma quiet_sys_exit {A} (code : Z) : quiet (@sys_exit A code).
Proof. intros w. reflexivity. Qed.

Lemma quiet_lift {A} (o : outcome A) : quiet (lift o).
Proof. intros w. reflexivity. Qed.

Lemma quiet_print (v : value) : quiet (print v).
Proof. intros w. reflexivity. Qed.

Lemma quiet_bind {A B} (m : M A) (f : A -> M B) :
  quiet m -> (forall a, quiet (f a)) -> quiet (bind m f).
Proof.
  intros Hm Hf w. unfold bind. specialize (Hm w).
  destruct (m w) as [[a|e] w']; cbn [snd] in *; [|exact Hm].
  now rewrite Hf.
Qed.

Lemma quiet_for_each {A S} (l : list A) (body : A -> S -> M S) :
  (forall x s, quiet (body x s)) -> forall s, quiet (for_each l body s).
Proof.
  intros Hbody. induction l as [|x l IH]; intros s.
  - apply quiet_ret.
  - cbn [for_each]. apply quiet_bind; [apply Hbody|exact IH].
Qed.

Lemma quiet_open_csv (path : string) : quiet (open_csv path).
Proof. intros w. reflexivity. Qed.

Lemma quiet_writerow (path : string) (row : list value) :
  quiet (writerow path row).
Proof. intros w. reflexivity. Qed.

Create HintDb quiet.
#[export] Hint Resolve quiet_ret quiet_raise quiet_sys_exit quiet_lift
  quiet_print quiet_open_csv quiet_writerow : quiet.

Ltac quiet_step :=
  cbv beta;
  match goal with
  | |- quiet (bind _ _) => apply quiet_bind; [|intros]
  | |- quiet (for_each _ _ _) => apply quiet_for_each; intros
  | |- quiet (if ?b then _ else _) => destruct b
  | |- quiet (match ?x with _ => _ end) => destruct x
  | |- quiet (match ?x with _ => _ end _) => destruct x
  | |- quiet _ => solve [auto with quiet]
  end.

Lemma quiet_aggregate_results (results : dict (list document)) :
  quiet (aggregate_results results).
Proof.
  rewrite aggregate_results_unfold. apply quiet_for_each.
  intros [config pass_results] aggregated. unfold aggregate_config.
  repeat quiet_step.
Qed.

Lemma quiet_print_comparison_table (aggregated : dict stats_dict)
    (title metric_key metric_label : string) (show_variance : bool) :
  quiet (print_comparison_table aggregated title metric_key metric_label
           show_variance).
Proof. unfold print_comparison_table. repeat quiet_step. Qed.

Lemma quiet_print_detailed_percentiles (aggregated : dict stats_dict)
    (operation : string) :
  quiet (print_detailed_percentiles aggregated operation).
Proof. unfold print_detailed_percentiles. repeat quiet_step. Qed.

Lemma quiet_report (aggregated : dict stats_dict) : quiet (report aggregated).
Proof.
  unfold report.
  repeat first
    [ apply quiet_print_comparison_table
    | apply quiet_print_detailed_percentiles
    | quiet_step ].
Qed.

Lemma quiet_export_csv (aggregated : dict stats_dict) (path : string) :
  quiet (export_csv aggregated path).
Proof. unfold export_csv. repeat quiet_step. Qed.

Lemma quiet_export_json (results : dict (list document)) (path : string) :
  quiet (export_json results path).
Proof.
  unfold export_json. apply quiet_bind; [|intros; apply quiet_print].
  intros w. reflexivity.
Qed.

Lemma last_failure {A} (P : A -> Prop) (pre post tr0 : list A) (x last : A) :
  pre ++ x :: post = tr0 ++ [last] -> Forall P tr0 -> ~ P x ->
  pre = tr0 /\ x = last /\ post = [].
Proof.
  revert tr0. induction pre as [|a pre IH]; intros [|y tr0] Heq Hall Hx;
    cbn [app] in Heq.
  - injection Heq as -> ->. auto.
  - injection Heq as -> _. inversion Hall; subst. contradiction.
  - injection Heq as _ Heq. now destruct pre.
  - injection Heq as -> Heq. inversion Hall; subst.
    destruct (IH tr0 Heq) as (-> & -> & ->); auto.
Qed.

Lemma parsed_None (json_loads : string -> option document)
    (p : CompletedProcess) :
  returncode p <> 0 \/ json_loads (stdout p) = None ->
  parsed json_loads p = None.
Proof.
  unfold parsed. intros [H|H].
  - destruct (Z.eqb_spec (returncode p) 0); [contradiction|reflexivity].
  - now destruct (returncode p =? 0).
Qed.

Section Failure.
Variable subprocess_run :
  list (list string * CompletedProcess) -> list string -> CompletedProcess.
Variable json_loads : string -> option document.
Variable path_exists : string -> bool.

(** The part of [main] that follows the sampler starts no process. *)
Lemma quiet_after_sampling (args : arguments)
    (results : dict (list document)) :
  quiet (aggregated <- aggregate_results results ;;
         report aggregated ;;
         match arg_csv args with
         | Some path => export_csv aggregated path
         | None => ret tt
         end ;;
         match arg_json args with
         | Some path => export_json results path
         | None => ret tt
         end ;;
         print (VStr "✓ Benchmark complete!")).
Proof.
  apply quiet_bind; [apply quiet_aggregate_results|intros aggregated].
  apply quiet_bind; [apply quiet_report|intros _].
  apply quiet_bind;
    [destruct (arg_csv args); [apply quiet_export_csv|apply quiet_ret]|intros _].
  apply quiet_bind;
    [destruct (arg_json args); [apply quiet_export_json|apply quiet_ret]|intros _].
  apply quiet_print.
Qed.

(** C8, as the code has it. A failed invocation (non-zero exit status, or
    standard output that is not valid JSON, which [json.loads] rejects) makes
    [run_benchmark] exit with status 1: the visit yields no updated results,
    the failed invocation is the last one of the run, every earlier one had
    succeeded, nothing is printed after the two lines of the failure report,
    and no file is written. The shape of a parsed document is not examined
    here: missing fields surface in [aggregate_results]. *)
Theorem invocation_failure_is_fatal :
  forall (args : arguments) (w0 w1 : world) (r : outcome unit)
         (pre post : list (list string * CompletedProcess))
         (cmd : list string) (p : CompletedProcess),
    main subprocess_run json_loads path_exists args w0 = (r, w1) ->
    spawned w1 = spawned w0 ++ pre ++ (cmd, p) :: post ->
    returncode p <> 0 \/ json_loads (stdout p) = None ->
    (forall config results w,
        parsed json_loads
          (subprocess_run (spawned w)
             (command_for (arg_binary args) (arg_iterations args)
                (arg_tree_size args) (arg_batches args) (arg_batch_size args)
                (negb (arg_no_record_rampup args)) (arg_seed args)
                (arg_taskset args) config))
        = None ->
        fst (visit subprocess_run json_loads (arg_binary args)
               (arg_iterations args) (arg_tree_size args) (arg_batches args)
               (arg_batch_size args) (negb (arg_no_record_rampup args))
               (arg_seed args) (arg_taskset args) config results w)
        = Raise (SystemExit 1))
    /\ post = []
    /\ Forall (fun e => parsed json_loads (snd e) <> None) pre
    /\ r = Raise (SystemExit 1)
    /\ 1 <> 0
    /\ files w1 = files w0
    /\ exists shown config,
         cmd = command_for (arg_binary args) (arg_iterations args)
                 (arg_tree_size args) (arg_batches args) (arg_batch_size args)
                 (negb (arg_no_record_rampup args)) (arg_seed args)
                 (arg_taskset args) config
         /\ printed w1 = shown ++ running_line config :: failure_report p.
Proof.
  intros args w0 w1 r pre post cmd p Hmain Hspawned Hfail.
  apply parsed_None in Hfail.
  split.
  { intros config results w Hp. unfold visit, bind.
    rewrite run_benchmark_run. unfold command_for in Hp |- *.
    now rewrite Hp. }
  assert (Hno : forall w : world,
            spawned w = spawned w0 -> w1 = w -> False).
  { intros w Hw ->. rewrite Hw in Hspawned.
    rewrite <- (app_nil_r (spawned w0)) in Hspawned at 1.
    apply app_inv_head in Hspawned. now destruct pre. }
  unfold main in Hmain.
  destruct (negb (path_exists (arg_binary args))).
  { rewrite bind_print in Hmain. injection Hmain as _ Hw.
    exfalso. eapply Hno; [|symmetry; exact Hw]. reflexivity. }
  destruct (arg_passes args <? 2).
  { rewrite bind_print in Hmain. injection Hmain as _ Hw.
    exfalso. eapply Hno; [|symmetry; exact Hw]. reflexivity. }
  rewrite !bind_print in Hmain.
  match type of Hmain with
  | bind ?m _ ?w = _ =>
      assert (Hpin : exists wp, m w = (Ok tt, wp)
                                /\ spawned wp = spawned w0
                                /\ files wp = files w0)
  end.
  { destruct (arg_taskset args >=? 0); eexists; repeat split. }
  destruct Hpin as (wp & Hpin & Hsp & Hfp).
  rewrite (bind_run _ _ _ _ _ Hpin), bind_print in Hmain.
  match type of Hmain with
  | bind ?m _ ?w = _ => destruct (m w) as [[results|e] w'] eqn:Hib
  end.
  - (* the sampler completed: every invocation had succeeded *)
    exfalso.
    pose proof (quiet_after_sampling args results w') as Hq.
    rewrite (bind_run _ _ _ _ _ Hib) in Hmain. rewrite Hmain in Hq.
    cbn [snd] in Hq.
    apply interleaved_benchmark_spec in Hib.
    destruct Hib as (_ & tr & Hs & docs & _ & Hp & _).
    cbn [spawned add_lines] in Hs. rewrite Hsp in Hs.
    rewrite Hq, Hs in Hspawned. apply app_inv_head in Hspawned.
    apply parsed_all_Some in Hp. rewrite Hspawned in Hp.
    apply Forall_app in Hp. destruct Hp as [_ Hp].
    inversion Hp as [|? ? Hx _]; subst. now apply Hx.
  - (* the sampler exited *)
    rewrite (bind_raise _ _ _ _ _ Hib) in Hmain. injection Hmain as <- <-.
    apply interleaved_benchmark_spec in Hib.
    destruct Hib as (Hf & tr & Hs & -> & tr0 & config & p' & visited & rest
                     & shown & -> & Hok & Hp' & _ & _ & Hprinted).
    cbn [spawned files add_lines] in Hs, Hf. rewrite Hsp in Hs.
    rewrite Hs in Hspawned. apply app_inv_head in Hspawned.
    symmetry in Hspawned.
    destruct (last_failure (fun e => parsed json_loads (snd e) <> None)
                pre post tr0 (cmd, p) _ Hspawned Hok) as (-> & Heq & ->).
    { cbn [snd]. congruence. }
    injection Heq as -> ->.
    repeat split; try assumption; try congruence; try discriminate.
    exists shown, config. split; [reflexivity|exact Hprinted].
Qed.
End Failure.

Lemma invocation_failure_is_fatal_witness :
  (forall config results w,
      parsed scenario_loads
        (crashing_process (spawned w)
           (command_for "bin" 1 1000 100 1000 false 42 (-1) config))
      = None ->
      fst (visit crashing_process scenario_loads "bin" 1 1000 100 1000 false 42
             (-1) config results w)
      = Raise (SystemExit 1))
  /\ @nil (list string * CompletedProcess) = []
  /\ Forall (fun e => parsed scenario_loads (snd e) <> None)
       (firstn 2 (spawned (snd crashing_run)))
  /\ fst crashing_run = Raise (SystemExit 1)
  /\ 1 <> 0
  /\ files (snd crashing_run) = files empty_world
  /\ exists shown config,
       fst crashing_invocation
       = command_for "bin" 1 1000 100 1000 false 42 (-1) config
       /\ printed (snd crashing_run)
          = shown ++ running_line config
                     :: failure_report (snd crashing_invocation).
Proof.
  apply (invocation_failure_is_fatal crashing_process scenario_loads
           (fun _ => true) scenario_args empty_world (snd crashing_run)
           (fst crashing_run) (firstn 2 (spawned (snd crashing_run))) []
           (fst crashing_invocation) (snd crashing_invocation)).
  - vm_compute. reflexivity.
  - vm_compute. reflexivity.
  - left. vm_compute. discriminate.
Defined.

(** C8 as stated fails for output that is valid JSON but not a measurement
    document: the invocation counts as successful, its document is appended,
    and the remaining invocations run. *)
Lemma hollow_document_is_accepted :
  hollow_loads (stdout (hollow_process [] [])) = Some []
  /\ ~ complete []
  /\ (exists results,
        hollow_run = (Ok results, snd hollow_run)
        /\ get "A" results = Some [[]; []]
        /\ get "B" results = Some [[]; []])
  /\ List.length (spawned (snd hollow_run)) = 4%nat
  /\ fst (aggregate_results
            (match fst hollow_run with Ok results => results | Raise _ => [] end)
            (snd hollow_run))
     = Raise (SystemExit 1).
Proof.
  split; [reflexivity|]. split.
  - intros H. destruct (H "insert" "p50") as [q Hq]; simpl; [tauto..|].
    discriminate.
  - split; [|split].
    + exists [("A", [[]; []]); ("B", [[]; []])].
      split; [|split]; vm_compute; reflexivity.
    + vm_compute. reflexivity.
    + vm_compute. reflexivity.
Qed.

(** * Further properties *)

(** ** Aggregation: order, warnings and missing fields *)

Lemma for_each_app {A S} (l1 l2 : list A) (body : A -> S -> M S) (s : S)
    (w : world) :
  for_each (l1 ++ l2) body s w
  = match for_each l1 body s w with
    | (Ok s', w') => for_each l2 body s' w'
    | (Raise e, w') => (Raise e, w')
    end.
Proof.
  revert s w. induction l1 as [|x l1 IH]; intros s w; [reflexivity|].
  cbn [app for_each]. unfold bind.
  destruct (body x s w) as [[s'|e] w']; [apply IH|reflexivity].
Qed.

Lemma aggregate_config_run (config : string) (pass_results : list document)
    (acc acc' : dict stats_dict) (w w' : world) :
  aggregate_config (config, pass_results) acc w = (Ok acc', w') ->
  (pass_results = [] /\ acc' = acc
   /\ w' = add_lines w (empty_warnings [(config, pass_results)]))
  \/ (pass_results <> [] /\ w' = w
      /\ exists v record,
           extract_values pass_results = Ok v
           /\ aggregate_record pass_results v = Ok record
           /\ acc' = setitem config record acc).
Proof.
  unfold aggregate_config.
  destruct pass_results as [|first rest].
  - unfold bind, print, ret. intros [= <- <-]. left. repeat split.
  - destruct (extract_values (first :: rest)) as [v|e] eqn:Hv.
    + unfold bind, lift, ret.
      destruct (aggregate_record (first :: rest) v) as [record|e] eqn:Hr;
        [|discriminate].
      intros [= <- <-]. right. split; [discriminate|]. split; [reflexivity|].
      now exists v, record.
    + destruct e; unfold bind, print, sys_exit, raise; discriminate.
Qed.

Lemma empty_warnings_cons (item : string * list document)
    (results : dict (list document)) :
  empty_warnings (item :: results)
  = empty_warnings [item] ++ empty_warnings results.
Proof.
  unfold empty_warnings. cbn [filter].
  now destruct (negb (has_results item)).
Qed.

Lemma aggregate_loop_order (results : dict (list document)) :
  forall (acc aggregated : dict stats_dict) (w w1 : world),
    for_each results aggregate_config acc w = (Ok aggregated, w1) ->
    NoDup (keys results) ->
    (forall k, In k (keys results) -> ~ In k (keys acc)) ->
    keys aggregated = keys acc ++ keys (filter has_results results)
    /\ w1 = add_lines w (empty_warnings results).
Proof.
  induction results as [|[c pr] rest IH]; intros acc aggregated w w1 Hrun Hnd Hfresh.
  - cbn [for_each] in Hrun. unfold ret in Hrun. injection Hrun as <- <-.
    cbn [filter]. unfold keys at 3. cbn [map].
    now rewrite app_nil_r, add_lines_nil.
  - cbn [for_each] in Hrun. unfold bind in Hrun.
    destruct (aggregate_config (c, pr) acc w) as [[acc'|e] w'] eqn:Hstep;
      [|discriminate].
    unfold keys in Hnd. cbn [map fst] in Hnd.
    inversion Hnd as [|? ? Hc Hnd']; subst.
    apply aggregate_config_run in Hstep.
    rewrite empty_warnings_cons.
    destruct Hstep as [(-> & -> & ->)|(Hne & -> & v & record & _ & _ & ->)].
    + destruct (IH acc aggregated _ w1 Hrun Hnd') as [Hk ->].
      { intros k Hk. apply Hfresh. unfold keys. cbn [map]. now right. }
      split; [exact Hk|]. now rewrite add_lines_app.
    + assert (Hnew : ~ In c (keys acc)).
      { apply Hfresh. unfold keys. cbn [map fst]. now left. }
      destruct (IH (setitem c record acc) aggregated w w1 Hrun Hnd') as [Hk ->].
      { intros k Hk Hin. apply in_keys_setitem in Hin.
        destruct Hin as [->|Hin]; [contradiction|].
        apply (Hfresh k); [|exact Hin]. unfold keys. cbn [map]. now right. }
      split.
      * rewrite Hk, keys_setitem_new by exact Hnew.
        unfold keys. rewrite map_app. cbn [filter has_results snd map fst].
        destruct pr; [congruence|]. cbn [map fst]. now rewrite <- app_assoc.
      * unfold empty_warnings at 2. cbn [filter has_results snd].
        destruct pr; [congruence|]. cbn [negb map app]. reflexivity.
Qed.

(** X1. A successful aggregation keeps the iteration order of [results]: the
    keys of [aggregated] are the configurations that have results, in the
    order of [results]; the configurations without results are left out, and
    one warning is printed for each of them and nothing else. *)
Theorem aggregate_results_order :
  forall (results : dict (list document)) (aggregated : dict stats_dict)
         (w0 w1 : world),
    dict_wf results ->
    aggregate_results results w0 = (Ok aggregated, w1) ->
    keys aggregated = keys (filter has_results results)
    /\ w1 = add_lines w0 (empty_warnings results).
Proof.
  intros results aggregated w0 w1 Hwf Hrun.
  rewrite aggregate_results_unfold in Hrun.
  apply (aggregate_loop_order results [] aggregated w0 w1 Hrun Hwf).
  intros k _ [].
Qed.

Lemma column_item (op pct : string) (pass_results : list document)
    (values : list Q) (r : document) :
  column op pct pass_results = Ok values -> In r pass_results ->
  exists q, column op pct [r] = Ok [q].
Proof.
  unfold column. intros H Hin. apply mapM_Ok_inv in H.
  induction H as [|r' q l qs Hq _ IH]; [contradiction|].
  destruct Hin as [->|Hin]; [|auto].
  exists q. cbn [mapM]. now rewrite Hq.
Qed.

Lemma extract_values_complete (pass_results : list document)
    (v : tracked_values) :
  extract_values pass_results = Ok v -> Forall complete pass_results.
Proof.
  intros Hv. apply Forall_forall. intros r Hin op pct Hop Hpct.
  eapply column_item; [|exact Hin].
  now apply (extract_values_inv pass_results v Hv).
Qed.

Lemma column_raises (op pct : string) (pass_results : list document) (e : exn) :
  column op pct pass_results = Raise e ->
  e = KeyError "performance" \/ e = KeyError op \/ e = KeyError pct.
Proof.
  unfold column. induction pass_results as [|r l IH]; [discriminate|].
  cbn [mapM]. unfold getitem at 1 2 3.
  unfold document, performance, percentiles in *.
  destruct (get "performance" r) as [perf|]; cbn [obind];
    [|intros [= <-]; now left].
  destruct (get op perf) as [o|]; cbn [obind];
    [|intros [= <-]; right; now left].
  destruct (get pct o) as [q|]; cbn [obind];
    [|intros [= <-]; right; now right].
  destruct (mapM _ l) as [ys|e']; cbn [obind]; [discriminate|].
  intros [= <-]. now apply IH.
Qed.

Lemma extract_values_raises (pass_results : list document) (e : exn) :
  extract_values pass_results = Raise e ->
  exists key, e = KeyError key /\ In key tracked_keys.
Proof.
  unfold extract_values, tracked_keys. intros H.
  assert (Hk : forall op pct, In op operations -> In pct tracked_percentiles ->
            column op pct pass_results = Raise e ->
            exists key, e = KeyError key
                        /\ In key ("performance" :: operations ++ tracked_percentiles)).
  { intros op pct Hop Hpct Hc. apply column_raises in Hc.
    destruct Hc as [->|[->| ->]]; eexists; (split; [reflexivity|]).
    - now left.
    - right. apply in_or_app. now left.
    - right. apply in_or_app. now right. }
  destruct (column "insert" "p99_9" _) eqn:E1; cbn [obind] in H;
    [|injection H as <-; eapply Hk; [| |exact E1]; simpl; tauto].
  destruct (column "find" "p99_9" _) eqn:E2; cbn [obind] in H;
    [|injection H as <-; eapply Hk; [| |exact E2]; simpl; tauto].
  destruct (column "erase" "p99_9" _) eqn:E3; cbn [obind] in H;
    [|injection H as <-; eapply Hk; [| |exact E3]; simpl; tauto].
  destruct (column "insert" "p50" _) eqn:E4; cbn [obind] in H;
    [|injection H as <-; eapply Hk; [| |exact E4]; simpl; tauto].
  destruct (column "find" "p50" _) eqn:E5; cbn [obind] in H;
    [|injection H as <-; eapply Hk; [| |exact E5]; simpl; tauto].
  destruct (column "erase" "p50" _) eqn:E6; cbn [obind] in H;
    [discriminate|injection H as <-; eapply Hk; [| |exact E6]; simpl; tauto].
Qed.

Lemma aggregate_loop_complete (results : dict (list document)) :
  forall (acc : dict stats_dict) (w : world),
    Forall (fun item => Forall complete (snd item)) results ->
    exists acc',
      for_each results aggregate_config acc w
      = (Ok acc', add_lines w (empty_warnings results)).
Proof.
  induction results as [|[c pr] rest IH]; intros acc w Hall.
  - exists acc. cbn [for_each]. unfold ret. now rewrite add_lines_nil.
  - inversion Hall as [|? ? Hpr Hrest]; subst. cbn [snd] in Hpr.
    destruct (aggregate_config_total c pr acc w Hpr) as (acc' & w' & Hstep).
    cbn [for_each]. rewrite (bind_run _ _ _ _ _ Hstep).
    rewrite empty_warnings_cons.
    apply aggregate_config_run in Hstep.
    destruct Hstep as [(-> & -> & ->)|(Hne & -> & _)].
    + destruct (IH acc (add_lines w (empty_warnings [(c, [])])) Hrest)
        as [acc'' ->].
      exists acc''. now rewrite add_lines_app.
    + destruct (IH acc' w Hrest) as [acc'' ->]. exists acc''.
      unfold empty_warnings at 2. cbn [filter has_results snd].
      destruct pr; [congruence|]. reflexivity.
Qed.

(** X2. When the first configuration whose documents are not all complete is
    reached, [aggregate_results] prints the missing key with the
    configuration and the keys of its first document, and exits with status
    1; before that it has printed only the warnings of the configurations
    without results. *)
Theorem aggregate_results_missing_key :
  forall (before after : dict (list document)) (config : string)
         (pass_results : list document) (w0 : world),
    Forall (fun item => Forall complete (snd item)) before ->
    ~ Forall complete pass_results ->
    exists key,
      In key tracked_keys
      /\ extract_values pass_results = Raise (KeyError key)
      /\ aggregate_results (before ++ (config, pass_results) :: after) w0
         = (Raise (SystemExit 1),
            add_lines w0
              (empty_warnings before
               ++ missing_key_report key config pass_results)).
Proof.
  intros before after config pass_results w0 Hbefore Hbad.
  destruct (extract_values pass_results) as [v|e] eqn:Hv.
  { exfalso. apply Hbad. now apply (extract_values_complete _ v). }
  destruct (extract_values_raises _ _ Hv) as (key & -> & Hkey).
  exists key. split; [exact Hkey|]. split; [reflexivity|].
  rewrite aggregate_results_unfold, for_each_app.
  destruct (aggregate_loop_complete before [] w0 Hbefore) as [acc ->].
  cbn [for_each]. unfold bind at 1.
  destruct pass_results as [|first rest]; [exfalso; apply Hbad; constructor|].
  unfold aggregate_config. rewrite Hv.
  unfold missing_key_report. cbn [hd].
  rewrite !bind_print. unfold sys_exit, raise.
  now rewrite !add_lines_app.
Qed.

Lemma aggregate_results_Ok_complete (results : dict (list document))
    (aggregated : dict stats_dict) (w0 w1 : world) :
  aggregate_results results w0 = (Ok aggregated, w1) ->
  Forall (fun item => Forall complete (snd item)) results.
Proof.
  rewrite aggregate_results_unfold.
  generalize (@nil (string * stats_dict)). revert w0.
  induction results as [|[c pr] rest IH]; intros w acc Hrun; [constructor|].
  cbn [for_each] in Hrun. unfold bind in Hrun.
  destruct (aggregate_config (c, pr) acc w) as [[acc'|e] w'] eqn:Hstep;
    [|discriminate].
  constructor; [|now apply (IH w' acc')].
  cbn [snd]. apply aggregate_config_run in Hstep.
  destruct Hstep as [(-> & _)|(_ & _ & v & record & Hv & _)]; [constructor|].
  now apply (extract_values_complete pr v).
Qed.

(** X3. [aggregate_results] succeeds exactly when every document of every
    result sequence has the six tracked fields. *)
Theorem aggregate_results_succeeds_iff :
  forall (results : dict (list document)) (w0 : world),
    (exists aggregated w1, aggregate_results results w0 = (Ok aggregated, w1))
    <-> Forall (fun item => Forall complete (snd item)) results.
Proof.
  intros results w0. split.
  - intros (aggregated & w1 & Hrun).
    now apply (aggregate_results_Ok_complete results aggregated w0 w1).
  - intros Hall. rewrite aggregate_results_unfold.
    destruct (aggregate_loop_complete results [] w0 Hall) as [acc Hacc].
    eauto.
Qed.


Lemma measurement_complete (x : Z) : complete (measurement x).
Proof.
  intros op pct Hop Hpct. simpl in Hop, Hpct.
  destruct Hop as [<-|[<-|[<-|[]]]]; destruct Hpct as [<-|[<-|[]]];
    eexists; reflexivity.
Defined.

Lemma hollow_incomplete : ~ complete [].
Proof.
  intros H. destruct (H "insert" "p50") as [q Hq]; simpl; [tauto..|].
  discriminate.
Defined.

Lemma aggregate_results_order_witness :
  keys sparse_aggregated = keys (filter has_results sparse_results)
  /\ snd (aggregate_results sparse_results empty_world)
     = add_lines empty_world (empty_warnings sparse_results).
Proof.
  apply (aggregate_results_order sparse_results sparse_aggregated empty_world
           (snd (aggregate_results sparse_results empty_world))).
  - unfold dict_wf, keys. simpl.
    repeat constructor; simpl; intuition discriminate.
  - reflexivity.
Defined.

Lemma aggregate_results_missing_key_witness :
  exists key,
    In key tracked_keys
    /\ extract_values [measurement 104; []] = Raise (KeyError key)
    /\ aggregate_results
         ([("A", [measurement 100]); ("idle", [])]
          ++ ("B", [measurement 104; []]) :: [("C", [measurement 7])])
         empty_world
       = (Raise (SystemExit 1),
          add_lines empty_world
            (empty_warnings [("A", [measurement 100]); ("idle", [])]
             ++ missing_key_report key "B" [measurement 104; []])).
Proof.
  apply (aggregate_results_missing_key
           [("A", [measurement 100]); ("idle", [])] [("C", [measurement 7])]
           "B" [measurement 104; []] empty_world).
  - repeat constructor. apply measurement_complete.
  - intros H. inversion H as [|? ? _ H']; subst.
    inversion H' as [|? ? Hbad _]; subst. exact (hollow_incomplete Hbad).
Defined.


(** ** Reports: empty input, missing keys, sign and order *)

(** X4. With no results at all, the aggregation returns the empty dictionary
    after one warning per configuration; on the empty dictionary a comparison
    table prints its banner and one error line and returns, while the
    detailed report raises [IndexError] before printing anything. *)
Theorem no_results_at_all :
  forall (results : dict (list document)) (w0 : world),
    Forall (fun item => snd item = []) results ->
    aggregate_results results w0
    = (Ok [], add_lines w0 (empty_warnings results))
    /\ (forall title metric_key metric_label show_variance w,
           print_comparison_table [] title metric_key metric_label
             show_variance w
           = (Ok tt,
              add_lines w
                [rule; VStr title; rule;
                 VFormat "ERROR: No configs to compare for {}" [VStr title]]))
    /\ (forall operation w,
           print_detailed_percentiles [] operation w = (Raise IndexError, w)).
Proof.
  intros results w0 Hall. split; [|split].
  - rewrite aggregate_results_unfold. revert w0.
    induction Hall as [|[c pr] rest Hpr _ IH]; intros w0.
    + cbn [for_each]. unfold ret. now rewrite add_lines_nil.
    + cbn [snd] in Hpr. subst pr. cbn [for_each].
      unfold aggregate_config at 1. rewrite bind_bind, bind_print.
      unfold bind at 1, ret at 1. rewrite IH, empty_warnings_cons.
      now rewrite add_lines_app.
  - intros title metric_key metric_label show_variance w.
    rewrite print_comparison_table_unfold, !bind_print.
    unfold sorted. cbn [mapM obind sort_by map]. rewrite bind_lift.
    now rewrite print_run, !add_lines_app.
  - reflexivity.
Qed.

Lemma no_results_at_all_witness :
  aggregate_results [("A", []); ("B", [])] empty_world
  = (Ok [], add_lines empty_world (empty_warnings [("A", []); ("B", [])]))
  /\ (forall title metric_key metric_label show_variance w,
         print_comparison_table [] title metric_key metric_label
           show_variance w
         = (Ok tt,
            add_lines w
              [rule; VStr title; rule;
               VFormat "ERROR: No configs to compare for {}" [VStr title]]))
  /\ (forall operation w,
         print_detailed_percentiles [] operation w = (Raise IndexError, w)).
Proof.
  apply (no_results_at_all [("A", []); ("B", [])] empty_world).
  repeat constructor.
Defined.

Lemma mapM_raises {A B} (f : A -> outcome B) (before after : list A) (x : A)
    (e : exn) :
  (forall y, In y before -> exists b, f y = Ok b) ->
  f x = Raise e ->
  mapM f (before ++ x :: after) = Raise e.
Proof.
  intros Hbefore Hx. induction before as [|y before IH]; cbn [app mapM].
  - now rewrite Hx.
  - destruct (Hbefore y) as [b ->]; [now left|]. cbn [obind].
    rewrite IH; [reflexivity|]. intros z Hz. apply Hbefore. now right.
Qed.

Lemma sorted_raises {A} (key : A -> outcome Q) (before after : list A) (x : A)
    (e : exn) :
  (forall y, In y before -> exists q, key y = Ok q) ->
  key x = Raise e ->
  sorted key (before ++ x :: after) = Raise e.
Proof.
  intros Hbefore Hx. unfold sorted. rewrite (mapM_raises _ before after x e).
  - reflexivity.
  - intros y Hy. destruct (Hbefore y Hy) as [q ->]. cbn [obind]. eauto.
  - now rewrite Hx.
Qed.

Lemma median_of_missing (key : string) (config : string) (stats : stats_dict) :
  get key stats = None -> median_of key (config, stats) = Raise (KeyError key).
Proof. intros H. unfold median_of, getitem. cbn [snd]. now rewrite H. Qed.

(** X5. If a dictionary lacks the median the table is ranked by, and the
    dictionaries before it have theirs, [print_comparison_table] raises
    [KeyError] for that key right after its banner: no header and no row is
    printed. *)
Theorem comparison_table_missing_key :
  forall (before after : dict stats_dict) (config : string)
         (stats : stats_dict) (title metric_key metric_label : string)
         (show_variance : bool) (w0 : world),
    (forall item, In item before ->
       exists q, median_of (metric_key ++ "_median")%string item = Ok q) ->
    get (metric_key ++ "_median")%string stats = None ->
    print_comparison_table (before ++ (config, stats) :: after) title
      metric_key metric_label show_variance w0
    = (Raise (KeyError (metric_key ++ "_median")%string),
       add_lines w0 [rule; VStr title; rule]).
Proof.
  intros before after config stats title metric_key metric_label show_variance
         w0 Hbefore Hmissing.
  rewrite print_comparison_table_unfold, !bind_print.
  rewrite (sorted_raises _ before after (config, stats)
             (KeyError (metric_key ++ "_median")%string) Hbefore
             (median_of_missing _ config stats Hmissing)).
  unfold bind, lift. now rewrite !add_lines_app.
Qed.

Lemma comparison_table_missing_key_witness :
  print_comparison_table
    (scenario_aggregated ++ ("C", [("passes", VInt 2)]) :: [])
    "INSERT P50" "insert_p50" "P50 Median (ns)" true empty_world
  = (Raise (KeyError "insert_p50_median"),
     add_lines empty_world [rule; VStr "INSERT P50"; rule]).
Proof.
  apply (comparison_table_missing_key scenario_aggregated [] "C"
           [("passes", VInt 2)] "INSERT P50" "insert_p50" "P50 Median (ns)"
           true empty_world).
  - intros item [<-|[<-|[]]]; eexists; reflexivity.
  - reflexivity.
Defined.

(** X6. The rows after the first never show a negative percentage when the
    baseline is positive: every configuration after the first of
    [sorted_configs] has a median at least the baseline, so its deviation
    [(median - baseline) / baseline * 100] is non-negative, and it is zero
    for a median equal to the baseline. *)
Theorem deviation_is_nonnegative :
  forall (aggregated : dict stats_dict) (median_key : string)
         (winner : string * stats_dict) (rest : dict stats_dict)
         (item : string * stats_dict),
    sorted (median_of median_key) aggregated = Ok (winner :: rest) ->
    (0 < median_at median_key winner)%Q ->
    In item rest ->
    let baseline := median_at median_key winner in
    let m := median_at median_key item in
    (baseline <= m)%Q
    /\ deviation baseline m
       = VFormat "{:+.2f}%" [VNum ((m - baseline) / baseline * 100)%Q]
    /\ (0 <= (m - baseline) / baseline * 100)%Q
    /\ (m == baseline -> (m - baseline) / baseline * 100 == 0)%Q.
Proof.
  intros aggregated median_key winner rest item Hsorted Hpos Hin baseline m.
  destruct (sorted_inv _ _ _ Hsorted) as [_ Hsort].
  assert (Hle : (baseline <= m)%Q).
  { apply (sort_by_head_least (median_at median_key) winner rest aggregated).
    - symmetry. exact Hsort.
    - apply (sort_by_In (median_at median_key)).
      change (In item (sort_by (key_of (median_of median_key)) aggregated)).
      rewrite <- Hsort. now right. }
  split; [exact Hle|]. split; [reflexivity|]. split.
  - apply Qmult_le_0_compat; [|discriminate].
    apply Qmult_le_0_compat; [lra|].
    apply Qlt_le_weak, Qinv_lt_0_compat. exact Hpos.
  - intros Heq. rewrite Heq. unfold Qminus. rewrite Qplus_opp_r.
    unfold Qdiv. now rewrite !Qmult_0_l.
Qed.

Lemma deviation_is_nonnegative_witness :
  let baseline :=
    median_at "insert_p50_median" (nth 0 scenario_aggregated ("", [])) in
  let m :=
    median_at "insert_p50_median" (nth 1 scenario_aggregated ("", [])) in
  (baseline <= m)%Q
  /\ deviation baseline m
     = VFormat "{:+.2f}%" [VNum ((m - baseline) / baseline * 100)%Q]
  /\ (0 <= (m - baseline) / baseline * 100)%Q
  /\ (m == baseline -> (m - baseline) / baseline * 100 == 0)%Q.
Proof.
  apply (deviation_is_nonnegative scenario_aggregated "insert_p50_median"
           (nth 0 scenario_aggregated ("", []))
           [nth 1 scenario_aggregated ("", [])]
           (nth 1 scenario_aggregated ("", []))).
  - reflexivity.
  - reflexivity.
  - now left.
Defined.

Lemma sorted_perm_unique {A} (key : A -> Q) (l1 : list A) :
  forall l2 : list A,
    StronglySorted (key_le key) l1 -> StronglySorted (key_le key) l2 ->
    Permutation l1 l2 ->
    (forall a b, In a l1 -> In b l1 -> key a == key b -> a = b) ->
    l1 = l2.
Proof.
  induction l1 as [|a l1 IH]; intros l2 Hs1 Hs2 Hperm Hinj.
  - apply Permutation_nil in Hperm. now subst.
  - destruct l2 as [|b l2].
    { symmetry in Hperm. apply Permutation_nil in Hperm. discriminate. }
    inversion Hs1 as [|? ? Hs1' Ha]; subst.
    inversion Hs2 as [|? ? Hs2' Hb]; subst.
    rewrite Forall_forall in Ha, Hb.
    assert (Hab : a = b).
    { assert (Hina : In a (b :: l2))
        by (eapply Permutation_in; [exact Hperm|now left]).
      assert (Hinb : In b (a :: l1))
        by (eapply Permutation_in; [symmetry; exact Hperm|now left]).
      destruct Hina as [->|Hina]; [reflexivity|].
      destruct Hinb as [->|Hinb]; [reflexivity|].
      apply Hinj; [now left|now right|].
      apply Qle_antisym; [now apply Ha|now apply Hb]. }
    subst b. f_equal. apply IH; try assumption.
    + now apply Permutation_cons_inv with a.
    + intros x y Hx Hy. apply Hinj; now right.
Qed.

(** X7. The comparison table does not depend on the order of [aggregated]
    when no two configurations have the same median: two dictionaries with
    the same entries in different order are printed alike. *)
Theorem comparison_table_order_independent :
  forall (aggregated permuted : dict stats_dict)
         (title metric_key metric_label : string) (show_variance : bool)
         (w0 : world),
    let median := median_at (metric_key ++ "_median")%string in
    Permutation aggregated permuted ->
    (forall item, In item aggregated ->
       median_of (metric_key ++ "_median")%string item = Ok (median item)) ->
    (forall a b, In a aggregated -> In b aggregated ->
       median a == median b -> a = b) ->
    print_comparison_table permuted title metric_key metric_label
      show_variance w0
    = print_comparison_table aggregated title metric_key metric_label
        show_variance w0.
Proof.
  intros aggregated permuted title metric_key metric_label show_variance w0
         median Hperm Hkeys Hinj.
  assert (Hsame : sort_by median aggregated = sort_by median permuted).
  { apply (sorted_perm_unique median).
    - apply sort_by_sorted.
    - apply sort_by_sorted.
    - rewrite !sort_by_perm. exact Hperm.
    - intros a b Ha Hb. apply Hinj; now apply (sort_by_In median). }
  rewrite !print_comparison_table_unfold, !bind_print.
  rewrite (ranking_sorted _ aggregated) by exact Hkeys.
  rewrite (ranking_sorted _ permuted).
  - fold median. now rewrite Hsame.
  - intros item Hin. apply Hkeys.
    eapply Permutation_in; [symmetry; exact Hperm|exact Hin].
Qed.

Lemma comparison_table_order_independent_witness :
  print_comparison_table (rev scenario_aggregated) "INSERT P50" "insert_p50"
    "P50 Median (ns)" true empty_world
  = print_comparison_table scenario_aggregated "INSERT P50" "insert_p50"
      "P50 Median (ns)" true empty_world.
Proof.
  apply (comparison_table_order_independent scenario_aggregated
           (rev scenario_aggregated) "INSERT P50" "insert_p50"
           "P50 Median (ns)" true empty_world).
  - apply Permutation_rev.
  - intros item [<-|[<-|[]]]; reflexivity.
  - intros a b [<-|[<-|[]]] [<-|[<-|[]]] H; try reflexivity; discriminate H.
Defined.


(** ** The sampler: schedule, keys and composition with the aggregation *)

Lemma range_first (b : Z) : 1 <= b -> range 1 (b + 1) = 1 :: range 2 (b + 1).
Proof.
  intros Hb. unfold range.
  replace (Z.to_nat (b + 1 - 1)) with (S (Z.to_nat (b + 1 - 2))) by lia.
  cbn [seq map]. f_equal. rewrite <- seq_shift, map_map.
  apply map_ext. intros i. lia.
Qed.

Lemma schedule_first (num_passes : Z) (configs : list string) :
  1 <= num_passes ->
  List.concat (schedule num_passes configs)
  = configs
    ++ List.concat (map (fun pass_num => pass_order pass_num configs)
                        (range 2 (num_passes + 1))).
Proof.
  intros HN. unfold schedule. rewrite range_first by exact HN. reflexivity.
Qed.

Lemma visits_In (passes : list Z) (configs : list string) (c : string) :
  In c (List.concat (map (fun pass_num => pass_order pass_num configs) passes)) ->
  In c configs.
Proof.
  induction passes as [|p ps IH]; cbn [map List.concat]; [intros []|].
  intros H. apply in_app_or in H. destruct H as [H|H]; [|now apply IH].
  eapply Permutation_in; [apply pass_order_perm|exact H].
Qed.

Lemma keys_append_result_known (c : string) (d : document)
    (results : dict (list document)) :
  In c (keys results) -> keys (append_result c d results) = keys results.
Proof.
  unfold keys. induction results as [|[k l] rest IH]; cbn [map fst append_result];
    [intros []|].
  destruct (String.eqb_spec k c) as [->|Hne]; [reflexivity|].
  intros [Heq|Hin]; [congruence|]. cbn [map fst]. now rewrite IH.
Qed.

Lemma keys_append_result_new (c : string) (d : document)
    (results : dict (list document)) :
  ~ In c (keys results) ->
  keys (append_result c d results) = keys results ++ [c].
Proof.
  unfold keys. induction results as [|[k l] rest IH]; cbn [map fst append_result];
    [reflexivity|].
  intros Hnot. destruct (String.eqb_spec k c) as [->|Hne].
  { exfalso. apply Hnot. now left. }
  cbn [map fst app]. rewrite IH; [reflexivity|].
  intros H. apply Hnot. now right.
Qed.

Lemma keys_collect_known (arrivals : list (string * document)) :
  forall results,
    (forall cd, In cd arrivals -> In (fst cd) (keys results)) ->
    keys (collect arrivals results) = keys results.
Proof.
  unfold collect. induction arrivals as [|[c d] arrivals IH]; intros results H;
    [reflexivity|].
  cbn [fold_left fst snd].
  assert (Hc : In c (keys results)) by (apply (H (c, d)); now left).
  rewrite IH; [now apply keys_append_result_known|].
  intros cd Hcd. rewrite keys_append_result_known by exact Hc.
  apply H. now right.
Qed.

Lemma keys_collect_new (l : list string) :
  forall (docs : list document) results,
    NoDup l -> (forall c, In c l -> ~ In c (keys results)) ->
    List.length docs = List.length l ->
    keys (collect (combine l docs) results) = keys results ++ l.
Proof.
  unfold collect. induction l as [|c l IH]; intros [|d docs] results Hnd Hnew Hlen;
    try discriminate; [cbn; now rewrite app_nil_r|].
  cbn [combine fold_left fst snd]. inversion Hnd as [|? ? Hc Hnd']; subst.
  rewrite IH; try assumption.
  - rewrite keys_append_result_new by (apply Hnew; now left).
    now rewrite <- app_assoc.
  - intros x Hx Hin.
    rewrite keys_append_result_new in Hin by (apply Hnew; now left).
    apply in_app_or in Hin. destruct Hin as [Hin|[<-|[]]]; [|contradiction].
    apply (Hnew x); [now right|exact Hin].
  - now injection Hlen.
Qed.

Lemma keys_collect_subset (arrivals : list (string * document)) :
  forall results c,
    In c (keys (collect arrivals results)) ->
    In c (keys results) \/ In c (map fst arrivals).
Proof.
  unfold collect. induction arrivals as [|[x d] arrivals IH]; intros results c H;
    [now left|].
  cbn [fold_left fst snd] in H. apply IH in H. cbn [map fst].
  destruct H as [H|H]; [|right; now right].
  destruct (in_dec string_dec x (keys results)) as [Hx|Hx].
  - rewrite keys_append_result_known in H by exact Hx. now left.
  - rewrite keys_append_result_new in H by exact Hx.
    apply in_app_or in H. destruct H as [H|[<-|[]]]; [now left|].
    right. now left.
Qed.

Lemma collect_wf (arrivals : list (string * document)) :
  forall results, dict_wf results -> dict_wf (collect arrivals results).
Proof.
  unfold collect. induction arrivals as [|[c d] arrivals IH]; intros results Hwf;
    [exact Hwf|].
  cbn [fold_left fst snd]. apply IH. unfold dict_wf in *.
  destruct (in_dec string_dec c (keys results)) as [Hc|Hc].
  - now rewrite keys_append_result_known.
  - rewrite keys_append_result_new by exact Hc.
    apply NoDup_app; [exact Hwf|repeat constructor; intros []|].
    intros x Hx [<-|[]]. contradiction.
Qed.

Section SamplerKeys.
Variable subprocess_run :
  list (list string * CompletedProcess) -> list string -> CompletedProcess.
Variable json_loads : string -> option document.
Variables (binary : string) (iterations tree_size batches batch_size : Z)
          (record_rampup : bool) (seed taskset_core : Z).

Local Abbreviation the_command :=
  (command_for binary iterations tree_size batches batch_size record_rampup
     seed taskset_core).

(** X8. Whatever its outcome, the sampler never leaves its schedule: the
    commands it has spawned are an initial part of the schedule's commands,
    each for a configuration of the list with the same binary, sizes and
    seed; it writes no file, and it ends either with results or with exit
    status 1. *)
Theorem sampler_follows_schedule :
  forall (configs : list string) (num_passes : Z) (w0 w1 : world)
         (r : outcome (dict (list document))),
    interleaved_benchmark subprocess_run json_loads binary configs num_passes
      iterations tree_size batches batch_size record_rampup seed taskset_core
      w0
    = (r, w1) ->
    exists tr pending,
      spawned w1 = spawned w0 ++ tr
      /\ map the_command (List.concat (schedule num_passes configs))
         = map fst tr ++ pending
      /\ (forall cmd, In cmd (map fst tr) ->
            exists c, In c configs /\ cmd = the_command c)
      /\ files w1 = files w0
      /\ match r with
         | Ok _ => pending = []
         | Raise e => e = SystemExit 1
         end.
Proof.
  intros configs num_passes w0 w1 r Hrun.
  apply interleaved_benchmark_spec in Hrun.
  destruct Hrun as (Hf & tr & Hs & Hr).
  assert (Hcmds : forall visited rest,
            List.concat (schedule num_passes configs) = visited ++ rest ->
            forall cmd, In cmd (map the_command visited) ->
              exists c, In c configs /\ cmd = the_command c).
  { intros visited rest Heq cmd Hin. apply in_map_iff in Hin.
    destruct Hin as (c & <- & Hc). exists c. split; [|reflexivity].
    apply (visits_In (range 1 (num_passes + 1))). fold (schedule num_passes configs).
    rewrite Heq. apply in_or_app. now left. }
  destruct r as [results|e].
  - destruct Hr as (docs & Hc & _ & _).
    exists tr, []. rewrite app_nil_r.
    repeat split; try assumption; [now rewrite Hc|].
    intros cmd Hin. rewrite Hc in Hin.
    apply (Hcmds _ [] (eq_sym (app_nil_r _)) cmd Hin).
  - destruct Hr as (-> & tr0 & config & p & visited & rest & shown
                    & -> & _ & _ & Horder & Hv & _).
    exists (tr0 ++ [(the_command config, p)]), (map the_command rest).
    assert (Hfst : map fst (tr0 ++ [(the_command config, p)])
                   = map the_command (visited ++ [config])).
    { rewrite !map_app, Hv. reflexivity. }
    repeat split; try assumption.
    + rewrite Hfst, <- map_app, <- app_assoc. cbn [app]. now rewrite Horder.
    + intros cmd Hin. rewrite Hfst in Hin.
      apply (Hcmds (visited ++ [config]) rest); [|exact Hin].
      rewrite <- app_assoc. exact Horder.
Qed.

Lemma completed_run_results (configs : list string) (num_passes : Z)
    (w0 w1 : world) (results : dict (list document)) :
  interleaved_benchmark subprocess_run json_loads binary configs num_passes
    iterations tree_size batches batch_size record_rampup seed taskset_core w0
  = (Ok results, w1) ->
  exists docs,
    List.length docs = List.length (List.concat (schedule num_passes configs))
    /\ results
       = collect (combine (List.concat (schedule num_passes configs)) docs) [].
Proof.
  intros Hrun. apply interleaved_benchmark_spec in Hrun.
  destruct Hrun as (_ & tr & _ & docs & Hc & Hp & ->).
  exists docs. split; [|reflexivity].
  apply (f_equal (@List.length _)) in Hc, Hp.
  rewrite !length_map in Hc, Hp. congruence.
Qed.

Lemma completed_run_wf (configs : list string) (num_passes : Z)
    (w0 w1 : world) (results : dict (list document)) :
  interleaved_benchmark subprocess_run json_loads binary configs num_passes
    iterations tree_size batches batch_size record_rampup seed taskset_core w0
  = (Ok results, w1) ->
  dict_wf results.
Proof.
  intros Hrun.
  destruct (completed_run_results configs num_passes w0 w1 results Hrun)
    as (docs & _ & ->).
  apply collect_wf. constructor.
Qed.

Lemma completed_run_keys (configs : list string) (num_passes : Z)
    (w0 w1 : world) (results : dict (list document)) :
  1 <= num_passes -> NoDup configs ->
  interleaved_benchmark subprocess_run json_loads binary configs num_passes
    iterations tree_size batches batch_size record_rampup seed taskset_core w0
  = (Ok results, w1) ->
  keys results = configs.
Proof.
  intros HN Hnd Hrun.
  destruct (completed_run_results configs num_passes w0 w1 results Hrun)
    as (docs & Hlen & ->).
  rewrite schedule_first in Hlen |- * by exact HN.
  rewrite length_app in Hlen.
  rewrite <- (firstn_skipn (List.length configs) docs).
  rewrite combine_app_same by (rewrite length_firstn; lia).
  unfold collect. rewrite fold_left_app.
  match goal with
  | |- keys (fold_left ?f ?l (fold_left ?f ?l0 ?r)) = _ =>
      change (keys (collect l (collect l0 r)) = configs)
  end.
  assert (Hfirst : keys (collect (combine configs
                                    (firstn (List.length configs) docs)) [])
                   = configs).
  { rewrite keys_collect_new; [reflexivity|exact Hnd|intros ? _ []|].
    rewrite length_firstn. lia. }
  rewrite keys_collect_known; [exact Hfirst|].
  intros [x d] Hin. cbn [fst]. rewrite Hfirst.
  apply in_combine_l in Hin.
  now apply (visits_In (range 2 (num_passes + 1))).
Qed.

(** X9. The results of a completed run form a dictionary whose keys are
    configurations of the list; with at least one pass and distinct names the
    keys are the configurations in the order of the list, which is the order
    of the first, forward pass. *)
Theorem sampler_results_keys :
  forall (configs : list string) (num_passes : Z) (w0 w1 : world)
         (results : dict (list document)),
    interleaved_benchmark subprocess_run json_loads binary configs num_passes
      iterations tree_size batches batch_size record_rampup seed taskset_core
      w0
    = (Ok results, w1) ->
    dict_wf results
    /\ (forall c, In c (keys results) -> In c configs)
    /\ (1 <= num_passes -> NoDup configs -> keys results = configs).
Proof.
  intros configs num_passes w0 w1 results Hrun.
  split; [now apply (completed_run_wf configs num_passes w0 w1)|].
  split; [|intros HN Hnd; now apply (completed_run_keys configs num_passes w0 w1)].
  destruct (completed_run_results configs num_passes w0 w1 results Hrun)
    as (docs & Hlen & ->).
  intros c Hc. apply keys_collect_subset in Hc.
  destruct Hc as [[]|Hc].
  apply (visits_In (range 1 (num_passes + 1))). fold (schedule num_passes configs).
  apply in_map_iff in Hc. destruct Hc as ([x d] & <- & Hin).
  now apply in_combine_l in Hin.
Qed.
End SamplerKeys.


Lemma sampler_follows_schedule_witness :
  exists tr pending,
    spawned (snd crashing_sampling) = spawned empty_world ++ tr
    /\ map (command_for "bin" 1 1000 100 1000 false 42 (-1))
         (List.concat (schedule 2 ["A"; "B"]))
       = map fst tr ++ pending
    /\ (forall cmd, In cmd (map fst tr) ->
          exists c, In c ["A"; "B"]
                    /\ cmd = command_for "bin" 1 1000 100 1000 false 42 (-1) c)
    /\ files (snd crashing_sampling) = files empty_world
    /\ match fst crashing_sampling with
       | Ok _ => pending = []
       | Raise e => e = SystemExit 1
       end.
Proof.
  apply (sampler_follows_schedule crashing_process scenario_loads "bin" 1 1000
           100 1000 false 42 (-1) ["A"; "B"] 2 empty_world
           (snd crashing_sampling) (fst crashing_sampling)).
  vm_compute. reflexivity.
Defined.

Lemma sampler_results_keys_witness :
  dict_wf scenario_results
  /\ (forall c, In c (keys scenario_results) -> In c ["A"; "B"])
  /\ (1 <= 2 -> NoDup ["A"; "B"] -> keys scenario_results = ["A"; "B"]).
Proof.
  apply (sampler_results_keys scenario_process scenario_loads "bin" 1 1000 100
           1000 false 42 (-1) ["A"; "B"] 2 empty_world (snd scenario_run)).
  exact scenario_run_completes.
Defined.

Section Pipeline.
Variable subprocess_run :
  list (list string * CompletedProcess) -> list string -> CompletedProcess.
Variable json_loads : string -> option document.
Variables (binary : string) (iterations tree_size batches batch_size : Z)
          (record_rampup : bool) (seed taskset_core : Z).

Lemma completed_run_sequence_length (configs : list string) (num_passes : Z)
    (w0 w1 : world) (results : dict (list document)) (c : string) :
  0 <= num_passes ->
  interleaved_benchmark subprocess_run json_loads binary configs num_passes
    iterations tree_size batches batch_size record_rampup seed taskset_core w0
  = (Ok results, w1) ->
  Z.of_nat (List.length (result_sequence c results))
  = num_passes * Z.of_nat (count_occ string_dec configs c).
Proof.
  intros HN Hrun.
  destruct (completed_run_results _ _ _ _ _ _ _ _ _ _ configs num_passes w0 w1
              results Hrun) as (docs & Hlen & ->).
  rewrite result_sequence_collect. cbn [result_sequence get app].
  rewrite arrivals_length by exact Hlen.
  rewrite schedule_count. lia.
Qed.

Lemma filter_all {A} (f : A -> bool) (l : list A) :
  (forall x, In x l -> f x = true) -> filter f l = l.
Proof.
  induction l as [|x l IH]; intros H; [reflexivity|].
  cbn [filter]. rewrite (H x) by now left. f_equal. apply IH.
  intros y Hy. apply H. now right.
Qed.

Lemma filter_none {A} (f : A -> bool) (l : list A) :
  (forall x, In x l -> f x = false) -> filter f l = [].
Proof.
  induction l as [|x l IH]; intros H; [reflexivity|].
  cbn [filter]. rewrite (H x) by now left. apply IH.
  intros y Hy. apply H. now right.
Qed.

(** X10. Sampling and aggregation compose: after a completed run over
    distinct names with [N >= 1] passes, a successful aggregation prints
    nothing, lists the configurations in the order of the command line, and
    stores [N] as the pass count of each. *)
Theorem pipeline_keeps_configuration_order :
  forall (configs : list string) (num_passes : Z) (w0 w1 w2 : world)
         (results : dict (list document)) (aggregated : dict stats_dict),
    1 <= num_passes ->
    NoDup configs ->
    interleaved_benchmark subprocess_run json_loads binary configs num_passes
      iterations tree_size batches batch_size record_rampup seed taskset_core
      w0
    = (Ok results, w1) ->
    aggregate_results results w1 = (Ok aggregated, w2) ->
    keys aggregated = configs
    /\ w2 = w1
    /\ forall c, In c configs ->
         exists record,
           get c aggregated = Some record
           /\ get "passes" record = Some (VInt num_passes).
Proof.
  intros configs num_passes w0 w1 w2 results aggregated HN Hnd Hrun Hagg.
  pose proof (completed_run_wf _ _ _ _ _ _ _ _ _ _ configs num_passes w0 w1
                results Hrun) as Hwf.
  pose proof (completed_run_keys _ _ _ _ _ _ _ _ _ _ configs num_passes w0 w1
                results HN Hnd Hrun) as Hkeys.
  assert (Hlen : forall c pr, In (c, pr) results ->
            Z.of_nat (List.length pr) = num_passes).
  { intros c pr Hin.
    assert (Hc : In c configs).
    { rewrite <- Hkeys. unfold keys. change c with (fst (c, pr)).
      now apply in_map. }
    pose proof (completed_run_sequence_length configs num_passes w0 w1 results
                  c ltac:(lia) Hrun) as Hseq.
    unfold result_sequence in Hseq. rewrite (In_get c pr results Hwf Hin) in Hseq.
    rewrite (proj1 (NoDup_count_occ' string_dec configs) Hnd c Hc) in Hseq.
    lia. }
  assert (Hfull : forall item, In item results -> has_results item = true).
  { intros [c pr] Hin. specialize (Hlen c pr Hin). unfold has_results.
    cbn [snd]. destruct pr; [cbn in Hlen; lia|reflexivity]. }
  rewrite aggregate_results_unfold in Hagg.
  destruct (aggregate_loop_order results [] aggregated w1 w2 Hagg Hwf)
    as [Hk Hw]; [intros k _ []|].
  cbn [keys map app] in Hk.
  split; [|split].
  - rewrite Hk, filter_all by exact Hfull. exact Hkeys.
  - rewrite Hw. unfold empty_warnings. rewrite filter_none.
    + apply add_lines_nil.
    + intros item Hin. now rewrite Hfull.
  - intros c Hc. rewrite <- Hkeys in Hc.
    destruct (get c results) as [pr|] eqn:Hget;
      [|apply get_None_keys in Hget; contradiction].
    pose proof (Hlen c pr (get_In _ _ _ Hget)) as Hpr.
    rewrite <- aggregate_results_unfold in Hagg.
    destruct (aggregated_entry results aggregated w1 w2 c pr Hwf Hagg Hget)
      as (v & record & Hv & Hr & Hrec).
    { intros ->. cbn in Hpr. lia. }
    destruct (aggregate_record_inv pr v record Hv Hr) as (_ & Hpasses & _).
    exists record. split; [exact Hrec|]. now rewrite Hpasses, Hpr.
Qed.
End Pipeline.

Lemma pipeline_keeps_configuration_order_witness :
  keys scenario_aggregated = ["A"; "B"]
  /\ snd (aggregate_results scenario_results (snd scenario_run))
     = snd scenario_run
  /\ forall c, In c ["A"; "B"] ->
       exists record,
         get c scenario_aggregated = Some record
         /\ get "passes" record = Some (VInt 2).
Proof.
  apply (pipeline_keeps_configuration_order scenario_process scenario_loads
           "bin" 1 1000 100 1000 false 42 (-1) ["A"; "B"] 2 empty_world
           (snd scenario_run)
           (snd (aggregate_results scenario_results (snd scenario_run)))
           scenario_results scenario_aggregated).
  - lia.
  - repeat constructor; simpl; intuition discriminate.
  - exact scenario_run_completes.
  - reflexivity.
Defined.


(** ** [main]: validation, exports and what the reports leave alone *)

Section Main.
Variable subprocess_run :
  list (list string * CompletedProcess) -> list string -> CompletedProcess.
Variable json_loads : string -> option document.
Variable path_exists : string -> bool.

(** X11. [main] validates its input before anything else: when the binary
    does not exist or fewer than two passes are asked for, it prints one
    error line and exits with status 1; no process is started and no file is
    written. *)
Theorem main_rejects_bad_input :
  forall (args : arguments) (w0 : world),
    path_exists (arg_binary args) = false \/ arg_passes args < 2 ->
    exists line,
      main subprocess_run json_loads path_exists args w0
      = (Raise (SystemExit 1), add_lines w0 [line])
      /\ spawned (add_lines w0 [line]) = spawned w0
      /\ files (add_lines w0 [line]) = files w0
      /\ (path_exists (arg_binary args) = false ->
          line = VFormat "Error: Binary not found: {}" [VStr (arg_binary args)]).
Proof.
  intros args w0 Hbad. unfold main.
  destruct (path_exists (arg_binary args)) eqn:Hexists; cbn [negb].
  - destruct Hbad as [Hbad|Hbad]; [discriminate|].
    apply Z.ltb_lt in Hbad. rewrite Hbad. rewrite bind_print.
    eexists. repeat split. discriminate.
  - rewrite bind_print. eexists. repeat split.
Qed.

Lemma bind_Ok_inv {A B} (m : M A) (f : A -> M B) (w w1 : world) (b : B) :
  bind m f w = (Ok b, w1) ->
  exists a w', m w = (Ok a, w') /\ f a w' = (Ok b, w1).
Proof.
  unfold bind. destruct (m w) as [[a|e] w']; [eauto|discriminate].
Qed.

(** X12. When [main] completes and a JSON path was given, the file at that
    path holds the raw results exactly as the sampler returned them, whatever
    the CSV export wrote before; the binary existed, at least two passes were
    run, and every stored document is complete. *)
Theorem main_exports_raw_results :
  forall (args : arguments) (w0 : world) (path : string),
    let w1 := snd (main subprocess_run json_loads path_exists args w0) in
    fst (main subprocess_run json_loads path_exists args w0) = Ok tt ->
    arg_json args = Some path ->
    path_exists (arg_binary args) = true
    /\ 2 <= arg_passes args
    /\ exists results wp ws,
         spawned wp = spawned w0
         /\ interleaved_benchmark subprocess_run json_loads (arg_binary args)
              (arg_configs args) (arg_passes args) (arg_iterations args)
              (arg_tree_size args) (arg_batches args) (arg_batch_size args)
              (negb (arg_no_record_rampup args)) (arg_seed args)
              (arg_taskset args) wp
            = (Ok results, ws)
         /\ Forall (fun item => Forall complete (snd item)) results
         /\ get path (files w1) = Some (Json results).
Proof.
  intros args w0 path w1 Hfst Hjson.
  assert (Hmain : main subprocess_run json_loads path_exists args w0
                  = (Ok tt, w1)).
  { subst w1. destruct (main subprocess_run json_loads path_exists args w0).
    cbn [fst snd] in *. now subst. }
  clearbody w1. clear Hfst. unfold main in Hmain.
  destruct (path_exists (arg_binary args)); cbn [negb] in Hmain;
    [|rewrite bind_print in Hmain; discriminate].
  destruct (Z.ltb_spec (arg_passes args) 2) as [Hlt|Hge];
    [rewrite bind_print in Hmain; discriminate|].
  split; [reflexivity|]. split; [exact Hge|].
  rewrite !bind_print in Hmain.
  apply bind_Ok_inv in Hmain. destruct Hmain as ([] & wp & Hpin & Hmain).
  assert (Hwp : spawned wp = spawned w0).
  { destruct (arg_taskset args >=? 0); injection Hpin as <-; reflexivity. }
  rewrite bind_print in Hmain.
  apply bind_Ok_inv in Hmain. destruct Hmain as (results & ws & Hrun & Hmain).
  apply bind_Ok_inv in Hmain. destruct Hmain as (aggregated & wa & Hagg & Hmain).
  apply bind_Ok_inv in Hmain. destruct Hmain as ([] & wr & _ & Hmain).
  apply bind_Ok_inv in Hmain. destruct Hmain as ([] & wc & _ & Hmain).
  apply bind_Ok_inv in Hmain. destruct Hmain as ([] & wj & Hexport & Hmain).
  rewrite Hjson in Hexport. unfold export_json in Hexport.
  rewrite print_run in Hmain. injection Hmain as <-.
  unfold bind, print in Hexport. injection Hexport as <-.
  exists results, (add_lines wp [rule]), ws.
  split; [exact Hwp|]. split; [exact Hrun|].
  split; [now apply (aggregate_results_Ok_complete results aggregated ws wa)|].
  cbn [files add_lines]. apply get_setitem_same.
Qed.
End Main.

Lemma main_rejects_bad_input_witness :
  exists line,
    main scenario_process scenario_loads (fun _ => false) scenario_args
      empty_world
    = (Raise (SystemExit 1), add_lines empty_world [line])
    /\ spawned (add_lines empty_world [line]) = spawned empty_world
    /\ files (add_lines empty_world [line]) = files empty_world
    /\ ((fun _ : string => false) (arg_binary scenario_args) = false ->
        line = VFormat "Error: Binary not found: {}"
                 [VStr (arg_binary scenario_args)]).
Proof.
  apply (main_rejects_bad_input scenario_process scenario_loads
           (fun _ => false) scenario_args empty_world).
  now left.
Defined.

Lemma main_exports_raw_results_witness :
  (fun _ : string => true) (arg_binary export_args) = true
  /\ 2 <= arg_passes export_args
  /\ exists results wp ws,
       spawned wp = spawned empty_world
       /\ interleaved_benchmark scenario_process scenario_loads
            (arg_binary export_args) (arg_configs export_args)
            (arg_passes export_args) (arg_iterations export_args)
            (arg_tree_size export_args) (arg_batches export_args)
            (arg_batch_size export_args)
            (negb (arg_no_record_rampup export_args)) (arg_seed export_args)
            (arg_taskset export_args) wp
          = (Ok results, ws)
       /\ Forall (fun item => Forall complete (snd item)) results
       /\ get "raw.json"
            (files (snd (main scenario_process scenario_loads (fun _ => true)
                           export_args empty_world)))
          = Some (Json results).
Proof.
  apply (main_exports_raw_results scenario_process scenario_loads
           (fun _ => true) export_args empty_world "raw.json").
  - vm_compute. reflexivity.
  - reflexivity.
Defined.


(** ** What is written, and when *)

Lemma preserves_ret {T A} (view : dict file -> T) (a : A) :
  preserves view (ret a).
Proof. intros w. reflexivity. Qed.

Lemma preserves_raise {T A} (view : dict file -> T) (e : exn) :
  preserves view (@raise A e).
Proof. intros w. reflexivity. Qed.

Lemma preserves_sys_exit {T A} (view : dict file -> T) (code : Z) :
  preserves view (@sys_exit A code).
Proof. intros w. reflexivity. Qed.

Lemma preserves_lift {T A} (view : dict file -> T) (o : outcome A) :
  preserves view (lift o).
Proof. intros w. reflexivity. Qed.

Lemma preserves_print {T} (view : dict file -> T) (v : value) :
  preserves view (print v).
Proof. intros w. reflexivity. Qed.

Lemma preserves_bind {T A B} (view : dict file -> T) (m : M A) (f : A -> M B) :
  preserves view m -> (forall a, preserves view (f a)) ->
  preserves view (bind m f).
Proof.
  intros Hm Hf w. unfold bind. specialize (Hm w).
  destruct (m w) as [[a|e] w']; cbn [snd] in *; [|exact Hm].
  now rewrite Hf.
Qed.

Lemma preserves_for_each {T A S} (view : dict file -> T) (l : list A)
    (body : A -> S -> M S) :
  (forall x s, preserves view (body x s)) ->
  forall s, preserves view (for_each l body s).
Proof.
  intros Hbody. induction l as [|x l IH]; intros s.
  - apply preserves_ret.
  - cbn [for_each]. apply preserves_bind; [apply Hbody|exact IH].
Qed.

Lemma preserves_spawn {T} (view : dict file -> T)
    (subprocess_run :
       list (list string * CompletedProcess) -> list string -> CompletedProcess)
    (cmd : list string) :
  preserves view (spawn subprocess_run cmd).
Proof. intros w. reflexivity. Qed.

Lemma keeps_files_preserves {T A} (view : dict file -> T) (m : M A) :
  keeps_files m -> preserves view m.
Proof. intros H w. now rewrite (H w). Qed.

Create HintDb preserves.
#[export] Hint Resolve preserves_ret preserves_raise preserves_sys_exit
  preserves_lift preserves_print preserves_spawn : preserves.

Ltac preserves_step :=
  cbv beta zeta;
  match goal with
  | |- preserves _ (bind _ _) => apply preserves_bind; [|intros]
  | |- preserves _ (for_each _ _ _) => apply preserves_for_each; intros
  | |- preserves _ (if ?b then _ else _) => destruct b
  | |- preserves _ (match ?x with _ => _ end) => destruct x
  | |- preserves _ (match ?x with _ => _ end _) => destruct x
  | |- preserves _ _ => solve [auto with preserves]
  end.

Lemma keeps_files_interleaved_benchmark
    (subprocess_run :
       list (list string * CompletedProcess) -> list string -> CompletedProcess)
    (json_loads : string -> option document)
    (binary : string) (configs : list string)
    (num_passes iterations tree_size batches batch_size : Z)
    (record_rampup : bool) (seed taskset_core : Z) :
  keeps_files
    (interleaved_benchmark subprocess_run json_loads binary configs num_passes
       iterations tree_size batches batch_size record_rampup seed taskset_core).
Proof.
  unfold keeps_files, interleaved_benchmark, run_benchmark.
  repeat preserves_step.
Qed.

Lemma keeps_files_aggregate_results (results : dict (list document)) :
  keeps_files (aggregate_results results).
Proof.
  unfold keeps_files. rewrite aggregate_results_unfold.
  apply preserves_for_each.
  intros [config pass_results] aggregated. unfold aggregate_config.
  repeat preserves_step.
Qed.

Lemma keeps_files_print_comparison_table (aggregated : dict stats_dict)
    (title metric_key metric_label : string) (show_variance : bool) :
  keeps_files (print_comparison_table aggregated title metric_key metric_label
                 show_variance).
Proof. unfold keeps_files, print_comparison_table. repeat preserves_step. Qed.

Lemma keeps_files_print_detailed_percentiles (aggregated : dict stats_dict)
    (operation : string) :
  keeps_files (print_detailed_percentiles aggregated operation).
Proof. unfold keeps_files, print_detailed_percentiles. repeat preserves_step. Qed.

Lemma keeps_files_report (aggregated : dict stats_dict) :
  keeps_files (report aggregated).
Proof.
  unfold keeps_files, report.
  repeat match goal with
         | |- preserves _ (print_comparison_table _ _ _ _ _) =>
             apply keeps_files_print_comparison_table
         | |- preserves _ (print_detailed_percentiles _ _) =>
             apply keeps_files_print_detailed_percentiles
         | _ => preserves_step
         end.
Qed.

Lemma leaves_file_export_csv (aggregated : dict stats_dict)
    (path other : string) :
  other <> path -> leaves_file other (export_csv aggregated path).
Proof.
  intros Hne.
  assert (Hopen : preserves (get other) (open_csv path)).
  { intros w. cbn [open_csv snd files]. now apply get_setitem_other. }
  assert (Hrow : forall row, preserves (get other) (writerow path row)).
  { intros row w. cbn [writerow snd files]. now apply get_setitem_other. }
  unfold leaves_file, export_csv.
  repeat first [ exact Hopen | apply Hrow | preserves_step ].
Qed.

Lemma leaves_file_export_json (results : dict (list document))
    (path other : string) :
  other <> path -> leaves_file other (export_json results path).
Proof.
  intros Hne. unfold leaves_file, export_json.
  apply preserves_bind; [|intros; apply preserves_print].
  intros w. cbn [snd files]. now apply get_setitem_other.
Qed.


Lemma export_csv_run (aggregated : dict stats_dict) (output_file : string)
    (w0 : world) :
  Forall (fun item => has_csv_fields (snd item)) aggregated ->
  (forall item, In item aggregated ->
     median_of "insert_p99_9_median" item
     = Ok (median_at "insert_p99_9_median" item)) ->
  export_csv aggregated output_file w0
  = (Ok tt,
     add_lines
       (with_csv w0 output_file
          (map VStr csv_header
           :: map csv_row
                (sort_by (median_at "insert_p99_9_median") aggregated)))
       [VFormat "✓ Exported CSV to {}" [VStr output_file]]).
Proof.
  intros Hall Hkeys. rewrite export_csv_unfold.
  erewrite bind_run by apply open_csv_run.
  erewrite bind_run by apply writerow_run.
  rewrite (ranking_sorted "insert_p99_9_median") by exact Hkeys.
  rewrite bind_lift.
  erewrite bind_run.
  2:{ apply csv_lines_run.
      eapply Permutation_Forall; [symmetry; apply sort_by_perm|exact Hall]. }
  reflexivity.
Qed.

(** What [aggregate_results] builds can always be exported. *)
Lemma aggregated_exportable (results : dict (list document))
    (aggregated : dict stats_dict) (w0 w1 : world) :
  dict_wf results ->
  aggregate_results results w0 = (Ok aggregated, w1) ->
  Forall (fun item => has_csv_fields (snd item)) aggregated
  /\ forall item, In item aggregated ->
       median_of "insert_p99_9_median" item
       = Ok (median_at "insert_p99_9_median" item).
Proof.
  intros Hwf Hrun.
  pose proof (aggregated_has_metric results aggregated w0 w1 "insert" "p99_9"
                Hwf Hrun) as Hi.
  pose proof (aggregated_has_metric results aggregated w0 w1 "find" "p99_9"
                Hwf Hrun) as Hf.
  pose proof (aggregated_has_metric results aggregated w0 w1 "erase" "p99_9"
                Hwf Hrun) as He.
  specialize (Hi ltac:(simpl; tauto) ltac:(simpl; tauto)).
  specialize (Hf ltac:(simpl; tauto) ltac:(simpl; tauto)).
  specialize (He ltac:(simpl; tauto) ltac:(simpl; tauto)).
  rewrite Forall_forall in Hi, Hf, He.
  split.
  - apply Forall_forall. intros item Hin k Hk.
    destruct (Hi item Hin) as (? & ? & ? & ? & ? & ? & Hi1 & Hi2 & Hi3 & Hi4
                               & _ & Hp).
    destruct (Hf item Hin) as (? & ? & ? & ? & ? & ? & Hf1 & Hf2 & Hf3 & Hf4
                               & _ & _).
    destruct (He item Hin) as (? & ? & ? & ? & ? & ? & He1 & He2 & He3 & He4
                               & _ & _).
    cbn in Hi1, Hi2, Hi3, Hi4, Hf1, Hf2, Hf3, Hf4, He1, He2, He3, He4.
    cbn [csv_stat_keys In] in Hk.
    repeat (destruct Hk as [<-|Hk]; [congruence|]). contradiction.
  - intros item Hin.
    exact (proj1 (has_metric_median "insert_p99_9" item (Hi item Hin))).
Qed.

Lemma bind_all_or_nothing {A B} (m : M A) (f : A -> M B) (w : world) :
  keeps_files m ->
  (forall a w', m w = (Ok a, w') ->
     (exists b, fst (f a w') = Ok b) \/ files (snd (f a w')) = files w') ->
  (exists b, fst (bind m f w) = Ok b) \/ files (snd (bind m f w)) = files w.
Proof.
  intros Hm Hf. unfold bind. pose proof (Hm w) as Hw.
  destruct (m w) as [[a|e] w']; cbn [snd] in Hw.
  - destruct (Hf a w' eq_refl) as [H|H]; [now left|right; congruence].
  - right. exact Hw.
Qed.

Lemma schedule_size (configs : list string) (passes : list Z) :
  List.length
    (List.concat (map (fun pass_num => pass_order pass_num configs) passes))
  = (List.length passes * List.length configs)%nat.
Proof.
  induction passes as [|p ps IH]; [reflexivity|].
  cbn [map List.concat List.length]. rewrite length_app, IH.
  now rewrite (Permutation_length (pass_order_perm p configs)).
Qed.

Section Runs.
Variable subprocess_run :
  list (list string * CompletedProcess) -> list string -> CompletedProcess.
Variable json_loads : string -> option document.
Variable path_exists : string -> bool.

Local Abbreviation run_main := (main subprocess_run json_loads path_exists).

Local Abbreviation sampling args :=
  (interleaved_benchmark subprocess_run json_loads (arg_binary args)
     (arg_configs args) (arg_passes args) (arg_iterations args)
     (arg_tree_size args) (arg_batches args) (arg_batch_size args)
     (negb (arg_no_record_rampup args)) (arg_seed args) (arg_taskset args)).

Ltac main_frame_step :=
  cbv beta;
  match goal with
  | |- preserves _ (interleaved_benchmark _ _ _ _ _ _ _ _ _ _ _ _) =>
      apply keeps_files_preserves, keeps_files_interleaved_benchmark
  | |- preserves _ (aggregate_results _) =>
      apply keeps_files_preserves, keeps_files_aggregate_results
  | |- preserves _ (report _) =>
      apply keeps_files_preserves, keeps_files_report
  | |- preserves _ (export_csv _ _) => now apply leaves_file_export_csv
  | |- preserves _ (export_json _ _) => now apply leaves_file_export_json
  | _ => preserves_step
  end.

(** X13. Whatever its outcome, [main] leaves every file alone except the
    ones named by [--csv] and [--json]. *)
Theorem main_writes_only_exports :
  forall (args : arguments) (w0 : world) (other : string),
    arg_csv args <> Some other ->
    arg_json args <> Some other ->
    get other (files (snd (run_main args w0))) = get other (files w0).
Proof.
  intros args w0 other Hcsv Hjson.
  enough (H : preserves (get other) (run_main args)) by apply H.
  unfold main.
  destruct (arg_csv args) as [csv|], (arg_json args) as [json|];
    repeat match goal with
           | H : Some ?p <> Some other |- _ =>
               assert (other <> p) by congruence; clear H
           end;
    repeat main_frame_step.
Qed.

Lemma main_all_or_nothing (args : arguments) (w0 : world) :
  (exists u, fst (run_main args w0) = Ok u)
  \/ files (snd (run_main args w0)) = files w0.
Proof.
  unfold main.
  destruct (negb (path_exists (arg_binary args))).
  { right. rewrite bind_print. reflexivity. }
  destruct (arg_passes args <? 2).
  { right. rewrite bind_print. reflexivity. }
  do 13 (apply bind_all_or_nothing;
         [unfold keeps_files; repeat preserves_step|intros _ ? _]).
  apply bind_all_or_nothing;
    [apply keeps_files_interleaved_benchmark|intros results ws Hrun].
  apply bind_all_or_nothing;
    [apply keeps_files_aggregate_results|intros aggregated wa Hagg].
  apply bind_all_or_nothing; [apply keeps_files_report|intros [] wr _].
  left.
  apply completed_run_wf in Hrun.
  destruct (aggregated_exportable results aggregated ws wa Hrun Hagg)
    as [Hfields Hkeys].
  destruct (arg_csv args) as [csv|].
  - rewrite (bind_run _ _ _ _ _
               (export_csv_run aggregated csv wr Hfields Hkeys)).
    destruct (arg_json args); now eexists.
  - destruct (arg_json args); now eexists.
Qed.

(** X14. A run of [main] that does not complete writes nothing: the exports
    come last, and after a successful aggregation and report they cannot
    fail. *)
Theorem main_failure_writes_nothing :
  forall (args : arguments) (w0 : world) (e : exn),
    fst (run_main args w0) = Raise e ->
    files (snd (run_main args w0)) = files w0.
Proof.
  intros args w0 e Hfail.
  destruct (main_all_or_nothing args w0) as [[u Hu]|H]; [congruence|exact H].
Qed.

(** X15. A completed run of [main] has started exactly one process per
    scheduled visit, [passes * len(configs)] in all, in schedule order; every
    one of them delivered a document. The program started is the benchmark
    binary, or [taskset] when a core was given. *)
Theorem main_runs_whole_schedule :
  forall (args : arguments) (w0 : world),
    let w1 := snd (run_main args w0) in
    fst (run_main args w0) = Ok tt ->
    exists tr,
      spawned w1 = spawned w0 ++ tr
      /\ map fst tr
         = map (command_for (arg_binary args) (arg_iterations args)
                  (arg_tree_size args) (arg_batches args)
                  (arg_batch_size args) (negb (arg_no_record_rampup args))
                  (arg_seed args) (arg_taskset args))
             (List.concat (schedule (arg_passes args) (arg_configs args)))
      /\ List.length tr
         = (Z.to_nat (arg_passes args) * List.length (arg_configs args))%nat
      /\ Forall (fun e => parsed json_loads (snd e) <> None) tr
      /\ forall cmd, In cmd (map fst tr) ->
           hd "" cmd
           = if arg_taskset args >=? 0 then "taskset" else arg_binary args.
Proof.
  intros args w0 w1 Hfst.
  assert (Hmain : run_main args w0 = (Ok tt, w1)).
  { subst w1. destruct (run_main args w0). cbn [fst snd] in *. now subst. }
  clearbody w1. clear Hfst. unfold main in Hmain.
  destruct (negb (path_exists (arg_binary args)));
    [rewrite bind_print in Hmain; discriminate|].
  destruct (arg_passes args <? 2);
    [rewrite bind_print in Hmain; discriminate|].
  rewrite !bind_print in Hmain.
  apply bind_Ok_inv in Hmain. destruct Hmain as ([] & wp & Hpin & Hmain).
  assert (Hwp : spawned wp = spawned w0).
  { destruct (arg_taskset args >=? 0); injection Hpin as <-; reflexivity. }
  rewrite bind_print in Hmain.
  apply bind_Ok_inv in Hmain. destruct Hmain as (results & ws & Hrun & Hmain).
  pose proof (quiet_after_sampling args results ws) as Hq.
  rewrite Hmain in Hq. cbn [snd] in Hq.
  apply interleaved_benchmark_spec in Hrun.
  destruct Hrun as (_ & tr & Hs & docs & Hcmds & Hp & _).
  cbn [spawned add_lines] in Hs. rewrite Hwp in Hs.
  exists tr. split; [congruence|]. split; [exact Hcmds|].
  split; [|split].
  - rewrite <- (length_map fst tr), Hcmds, length_map.
    unfold schedule. rewrite schedule_size, range_length. f_equal. lia.
  - now apply parsed_all_Some in Hp.
  - intros cmd Hin. rewrite Hcmds in Hin. apply in_map_iff in Hin.
    destruct Hin as (config & <- & _). unfold command_for, command.
    now destruct (arg_taskset args >=? 0).
Qed.
End Runs.


Lemma main_writes_only_exports_witness :
  get "notes.txt"
    (files (snd (main scenario_process scenario_loads (fun _ => true)
                   export_args stocked_world)))
  = get "notes.txt" (files stocked_world).
Proof.
  apply (main_writes_only_exports scenario_process scenario_loads
           (fun _ => true) export_args stocked_world "notes.txt").
  - cbn. discriminate.
  - cbn. discriminate.
Defined.

Lemma main_failure_writes_nothing_witness :
  files (snd (main hollow_process hollow_loads (fun _ => true) export_args
                empty_world))
  = files empty_world.
Proof.
  apply (main_failure_writes_nothing hollow_process hollow_loads
           (fun _ => true) export_args empty_world (SystemExit 1)).
  vm_compute. reflexivity.
Defined.

Lemma main_runs_whole_schedule_witness :
  exists tr,
    spawned (snd (main scenario_process scenario_loads (fun _ => true)
                    export_args empty_world))
    = spawned empty_world ++ tr
    /\ map fst tr
       = map (command_for (arg_binary export_args) (arg_iterations export_args)
                (arg_tree_size export_args) (arg_batches export_args)
                (arg_batch_size export_args)
                (negb (arg_no_record_rampup export_args))
                (arg_seed export_args) (arg_taskset export_args))
           (List.concat (schedule (arg_passes export_args)
                           (arg_configs export_args)))
    /\ List.length tr
       = (Z.to_nat (arg_passes export_args)
          * List.length (arg_configs export_args))%nat
    /\ Forall (fun e => parsed scenario_loads (snd e) <> None) tr
    /\ forall cmd, In cmd (map fst tr) ->
         hd "" cmd
         = if arg_taskset export_args >=? 0 then "taskset"
           else arg_binary export_args.
Proof.
  apply (main_runs_whole_schedule scenario_process scenario_loads
           (fun _ => true) export_args empty_world).
  vm_compute. reflexivity.
Defined.

(** ** A dictionary the CSV export cannot rank *)

(** X16. If a dictionary lacks ["insert_p99_9_median"], the key the rows are
    ranked by, and the dictionaries before it have theirs, [export_csv]
    raises [KeyError] after the file has been created and the header
    written: the file is left with the header alone, and no confirmation is
    printed. *)
Theorem export_csv_missing_key :
  forall (before after : dict stats_dict) (config : string)
         (stats : stats_dict) (output_file : string) (w0 : world),
    (forall item, In item before ->
       exists q, median_of "insert_p99_9_median" item = Ok q) ->
    get "insert_p99_9_median" stats = None ->
    export_csv (before ++ (config, stats) :: after) output_file w0
    = (Raise (KeyError "insert_p99_9_median"),
       with_csv w0 output_file [map VStr csv_header]).
Proof.
  intros before after config stats output_file w0 Hbefore Hmissing.
  rewrite export_csv_unfold.
  erewrite bind_run by apply open_csv_run.
  erewrite bind_run by apply writerow_run.
  rewrite (sorted_raises _ before after (config, stats)
             (KeyError "insert_p99_9_median") Hbefore
             (median_of_missing _ config stats Hmissing)).
  reflexivity.
Qed.

Lemma export_csv_missing_key_witness :
  export_csv (scenario_aggregated ++ ("C", [("passes", VInt 2)]) :: [])
    "results.csv" empty_world
  = (Raise (KeyError "insert_p99_9_median"),
     with_csv empty_world "results.csv" [map VStr csv_header]).
Proof.
  apply (export_csv_missing_key scenario_aggregated [] "C"
           [("passes", VInt 2)] "results.csv" empty_world).
  - intros item [<-|[<-|[]]]; eexists; reflexivity.
  - reflexivity.
Defined.

(** ** The progress log of the sampler *)

Section Progress.
Variable subprocess_run :
  list (list string * CompletedProcess) -> list string -> CompletedProcess.
Variable json_loads : string -> option document.
Variables (binary : string) (iterations tree_size batches batch_size : Z)
          (record_rampup : bool) (seed taskset_core : Z).

Local Abbreviation a_visit :=
  (visit subprocess_run json_loads binary iterations tree_size batches
     batch_size record_rampup seed taskset_core).
Local Abbreviation a_pass :=
  (run_pass subprocess_run json_loads binary iterations tree_size batches
     batch_size record_rampup seed taskset_core).

Lemma visit_printed (config : string) (results results' : dict (list document))
    (w w' : world) :
  a_visit config results w = (Ok results', w') ->
  printed w' = printed w ++ visit_lines config.
Proof.
  unfold visit, bind. rewrite run_benchmark_run. cbv zeta.
  destruct (parsed json_loads _); [|discriminate].
  intros [= _ <-]. reflexivity.
Qed.

Lemma visits_printed (order : list string) :
  forall (results results' : dict (list document)) (w w' : world),
    for_each order a_visit results w = (Ok results', w') ->
    printed w' = printed w ++ flat_map visit_lines order.
Proof.
  induction order as [|config order IH]; intros results results' w w' Hrun.
  - injection Hrun as _ <-. cbn [flat_map]. now rewrite app_nil_r.
  - rewrite for_each_cons in Hrun.
    destruct (a_visit config results w) as [[r|e] w1] eqn:Hvisit;
      [|discriminate].
    apply visit_printed in Hvisit. apply IH in Hrun.
    cbn [flat_map]. now rewrite Hrun, Hvisit, <- app_assoc.
Qed.

Lemma run_pass_printed (configs : list string) (num_passes pass_num : Z)
    (results results' : dict (list document)) (w w' : world) :
  a_pass configs num_passes pass_num results w = (Ok results', w') ->
  printed w' = printed w
               ++ pass_banner configs num_passes pass_num
               :: flat_map visit_lines (pass_order pass_num configs).
Proof.
  unfold run_pass, pass_banner, pass_order.
  destruct (pass_num mod 2 =? 1); rewrite bind_bind, bind_print;
    unfold bind at 1, ret at 1; intros Hrun; apply visits_printed in Hrun;
    rewrite Hrun; cbn [printed add_lines]; now rewrite <- app_assoc.
Qed.

Lemma passes_printed (configs : list string) (num_passes : Z)
    (passes : list Z) :
  forall (results results' : dict (list document)) (w w' : world),
    for_each passes (a_pass configs num_passes) results w = (Ok results', w') ->
    printed w'
    = printed w
      ++ flat_map (fun pass_num =>
                     pass_banner configs num_passes pass_num
                     :: flat_map visit_lines (pass_order pass_num configs))
           passes.
Proof.
  induction passes as [|p passes IH]; intros results results' w w' Hrun.
  - injection Hrun as _ <-. cbn [flat_map]. now rewrite app_nil_r.
  - rewrite for_each_cons in Hrun.
    destruct (a_pass configs num_passes p results w) as [[r|e] w1] eqn:Hpass;
      [|discriminate].
    apply run_pass_printed in Hpass. apply IH in Hrun.
    cbn [flat_map]. now rewrite Hrun, Hpass, <- app_assoc.
Qed.

(** X17. A completed run of the sampler has printed, for each pass in turn,
    the banner of the pass (forward for odd passes, reverse for even ones)
    and then, for each configuration in the order of the pass, the line that
    announces the invocation followed by its tick; nothing else. *)
Theorem sampler_progress_log :
  forall (configs : list string) (num_passes : Z) (w0 w1 : world)
         (results : dict (list document)),
    interleaved_benchmark subprocess_run json_loads binary configs num_passes
      iterations tree_size batches batch_size record_rampup seed taskset_core
      w0
    = (Ok results, w1) ->
    printed w1 = printed w0 ++ progress_log configs num_passes
    /\ List.length (progress_log configs num_passes)
       = (Z.to_nat num_passes * (1 + 2 * List.length configs))%nat.
Proof.
  intros configs num_passes w0 w1 results Hrun.
  rewrite interleaved_benchmark_unfold in Hrun.
  split; [exact (passes_printed _ _ _ _ _ _ _ Hrun)|].
  unfold progress_log.
  assert (Hlen : forall passes : list Z,
            List.length
              (flat_map (fun pass_num =>
                           pass_banner configs num_passes pass_num
                           :: flat_map visit_lines
                                (pass_order pass_num configs))
                 passes)
            = (List.length passes * (1 + 2 * List.length configs))%nat).
  { induction passes as [|p passes IH]; [reflexivity|].
    cbn [flat_map List.length app]. rewrite length_app, IH.
    assert (Hv : forall l : list string,
              List.length (flat_map visit_lines l) = (2 * List.length l)%nat).
    { induction l as [|c l IHl]; [reflexivity|].
      cbn [flat_map visit_lines app List.length]. rewrite IHl. lia. }
    rewrite Hv, (Permutation_length (pass_order_perm p configs)). lia. }
  rewrite Hlen, range_length. f_equal. lia.
Qed.
End Progress.

Lemma sampler_progress_log_witness :
  printed (snd scenario_run)
  = printed empty_world ++ progress_log ["A"; "B"] 2
  /\ List.length (progress_log ["A"; "B"] 2)
     = (Z.to_nat 2 * (1 + 2 * List.length ["A"; "B"]))%nat.
Proof.
  apply (sampler_progress_log scenario_process scenario_loads "bin" 1 1000 100
           1000 false 42 (-1) ["A"; "B"] 2 empty_world (snd scenario_run)
           scenario_results).
  vm_compute. reflexivity.
Defined.


(** ** The variance analysis that closes a table *)

Lemma table_lines_total (metric_key : string) (show_variance : bool)
    (winner_config : string) (baseline : Q) (l : dict stats_dict) :
  Forall (fun item => has_metric metric_key (snd item)) l ->
  Qeq_bool baseline 0 = false ->
  exists lines,
    List.length lines = List.length l
    /\ forall w : world,
         for_each l (table_line metric_key show_variance winner_config baseline)
           tt w
         = (Ok tt, add_lines w lines).
Proof.
  intros Hall Hb. induction Hall as [|item l Hitem _ (lines & Hlen & IH)].
  - exists []. split; [reflexivity|]. intros w. cbn [for_each].
    now rewrite add_lines_nil.
  - eexists (_ :: lines). split; [cbn [List.length]; now rewrite Hlen|].
    intros w. cbn [for_each].
    rewrite (bind_run _ _ _ _ _ (table_line_run metric_key show_variance
                                   winner_config baseline item w Hitem Hb)).
    rewrite IH, add_lines_app. reflexivity.
Qed.

Lemma variance_analysis_lines (metric_key winner_config : string)
    (winner_stats : stats_dict) (med lo hi : Q) (v : value) (sd : R)
    (w : world) :
  get (metric_key ++ "_median")%string winner_stats = Some (VNum med) ->
  get (metric_key ++ "_min")%string winner_stats = Some (VNum lo) ->
  get (metric_key ++ "_max")%string winner_stats = Some (VNum hi) ->
  get (metric_key ++ "_stdev")%string winner_stats = Some v ->
  real v = Ok sd ->
  variance_analysis metric_key winner_config winner_stats w
  = (Ok tt, add_lines w (variance_lines winner_config med lo hi sd)).
Proof.
  intros Hmed Hlo Hhi Hsd Hreal. unfold variance_analysis, variance_lines.
  rewrite (getitem_Some _ _ _ Hmed), (getitem_Some _ _ _ Hsd),
    (getitem_Some _ _ _ Hlo), (getitem_Some _ _ _ Hhi).
  cbn [obind number]. rewrite Hreal.
  now rewrite !bind_print, !bind_lift, bind_print, print_run, !add_lines_app.
Qed.

(** X18. A table printed with [show_variance] ends, after the closing rule,
    with the variance analysis of the winner, the first configuration of the
    ranking: its name, the range [max - min] of the metric with its share of
    the median in percent, and the standard deviation with its share of the
    median in percent. Before the rule come the banner, the header, the
    dashes and one row per configuration. *)
Theorem variance_analysis_of_winner :
  forall (aggregated : dict stats_dict)
         (title metric_key metric_label : string) (w0 : world)
         (winner : string * stats_dict) (rest : dict stats_dict),
    let median := median_at (metric_key ++ "_median")%string in
    Forall (fun item => has_metric metric_key (snd item)) aggregated ->
    sort_by median aggregated = winner :: rest ->
    ~ median winner == 0 ->
    exists shown lo hi v sd,
      get (metric_key ++ "_median")%string (snd winner)
      = Some (VNum (median winner))
      /\ get (metric_key ++ "_min")%string (snd winner) = Some (VNum lo)
      /\ get (metric_key ++ "_max")%string (snd winner) = Some (VNum hi)
      /\ get (metric_key ++ "_stdev")%string (snd winner) = Some v
      /\ real v = Ok sd
      /\ List.length shown = (5 + List.length aggregated)%nat
      /\ print_comparison_table aggregated title metric_key metric_label true
           w0
         = (Ok tt,
            add_lines w0
              (shown ++ rule
               :: variance_lines (fst winner) (median winner) lo hi sd)).
Proof.
  intros aggregated title metric_key metric_label w0 [wc ws] rest median
         Hall Hsort Hnz.
  pose proof (sort_by_perm median aggregated) as Hperm.
  rewrite Hsort in Hperm.
  assert (Hall' : Forall (fun item => has_metric metric_key (snd item))
                    ((wc, ws) :: rest)).
  { eapply Permutation_Forall; [symmetry; exact Hperm|exact Hall]. }
  inversion Hall' as [|? ? Hw _]; subst.
  destruct (has_metric_median metric_key (wc, ws) Hw) as [Hkey Hmed].
  fold median in Hkey, Hmed.
  destruct Hw as (med & lo & hi & v & sd & passes
                  & _ & Hlo & Hhi & Hsd & Hreal & _).
  cbn [fst snd] in *.
  assert (Hb : Qeq_bool (median (wc, ws)) 0 = false).
  { destruct (Qeq_bool (median (wc, ws)) 0) eqn:E; [|reflexivity].
    apply Qeq_bool_iff in E. contradiction. }
  destruct (table_lines_total metric_key true wc (median (wc, ws))
              ((wc, ws) :: rest) Hall' Hb) as (lines & Hlen & Hlines).
  exists ([rule; VStr title; rule; table_header metric_label true; dashes]
          ++ lines), lo, hi, v, sd.
  repeat (split; [assumption|]).
  split.
  { now rewrite length_app, Hlen, (Permutation_length Hperm). }
  rewrite print_comparison_table_unfold, !bind_print.
  rewrite ranking_sorted.
  2:{ intros item Hin. apply has_metric_median.
      rewrite Forall_forall in Hall. now apply Hall. }
  fold median. rewrite Hsort, bind_lift. cbv beta iota.
  rewrite Hkey, bind_lift, Hb, !bind_print.
  rewrite (bind_run _ _ _ _ _ (Hlines _)), bind_print.
  rewrite (variance_analysis_lines metric_key wc ws (median (wc, ws)) lo hi v sd
             _ Hmed Hlo Hhi Hsd Hreal).
  rewrite !add_lines_app. cbn [app]. rewrite <- ?app_assoc. reflexivity.
Qed.

Lemma variance_analysis_of_winner_witness :
  exists shown lo hi v sd,
    get "insert_p50_median" (snd (nth 0 scenario_aggregated ("", [])))
    = Some (VNum (median_at "insert_p50_median"
                    (nth 0 scenario_aggregated ("", []))))
    /\ get "insert_p50_min" (snd (nth 0 scenario_aggregated ("", [])))
       = Some (VNum lo)
    /\ get "insert_p50_max" (snd (nth 0 scenario_aggregated ("", [])))
       = Some (VNum hi)
    /\ get "insert_p50_stdev" (snd (nth 0 scenario_aggregated ("", [])))
       = Some v
    /\ real v = Ok sd
    /\ List.length shown = (5 + List.length scenario_aggregated)%nat
    /\ print_comparison_table scenario_aggregated "INSERT P50" "insert_p50"
         "P50 Median (ns)" true empty_world
       = (Ok tt,
          add_lines empty_world
            (shown ++ rule
             :: variance_lines (fst (nth 0 scenario_aggregated ("", [])))
                  (median_at "insert_p50_median"
                     (nth 0 scenario_aggregated ("", [])))
                  lo hi sd)).
Proof.
  apply (variance_analysis_of_winner scenario_aggregated "INSERT P50"
           "insert_p50" "P50 Median (ns)" empty_world
           (nth 0 scenario_aggregated ("", []))
           [nth 1 scenario_aggregated ("", [])]).
  - repeat constructor;
      (eexists _, _, _, _, _, _; repeat split; reflexivity).
  - reflexivity.
  - discriminate.
Defined.


(** ** A report the aggregation does not protect *)

(** X19. The aggregation asks every document for p50 and p99_9 only, the
    detailed report reads the whole ladder of the winner's representative
    run. When that run (the document in the middle of the winner's sequence)
    has no ["p0"], the aggregation succeeds all the same and
    [print_detailed_percentiles] raises [KeyError] after its banner and the
    line that announces the latencies. *)
Theorem detailed_percentiles_missing_percentile :
  forall (results : dict (list document)) (aggregated : dict stats_dict)
         (w0 w1 w : world) (operation : string)
         (winner : string * stats_dict) (rest : dict stats_dict)
         (pass_results : list document) (r : document) (perf : performance)
         (median_run : percentiles),
    let median := median_at (operation ++ "_p99_9_median")%string in
    dict_wf results ->
    aggregate_results results w0 = (Ok aggregated, w1) ->
    In operation operations ->
    sort_by median aggregated = winner :: rest ->
    get (fst winner) results = Some pass_results ->
    nth_error pass_results (List.length pass_results / 2)%nat = Some r ->
    get "performance" r = Some perf ->
    get operation perf = Some median_run ->
    get "p0" median_run = None ->
    print_detailed_percentiles aggregated operation w
    = (Raise (KeyError "p0"),
       add_lines w
         [rule;
          VFormat "DETAILED PERCENTILES - {} (P99.9 Winner for {})"
            [VStr (fst winner); VStr (upper operation)];
          rule;
          VFormat "{} latencies (from median run):"
            [VStr (capitalize operation)]]).
Proof.
  intros results aggregated w0 w1 w operation [wc ws] rest pass_results r perf
         median_run median Hwf Hagg Hop Hsort Hres Hnth Hperf Hrun Hp0.
  cbn [fst] in *.
  assert (Hin : In (wc, ws) aggregated).
  { eapply Permutation_in; [apply (sort_by_perm median)|].
    rewrite Hsort. now left. }
  apply In_get in Hin; [|exact (aggregate_results_wf _ _ _ _ Hagg)].
  destruct (aggregated_entry_inv results aggregated w0 w1 wc ws Hwf Hagg Hin)
    as (pass_results' & v & Hres' & _ & Hv & Hrec).
  rewrite Hres in Hres'. injection Hres' as <-.
  destruct (aggregate_record_inv pass_results v ws Hv Hrec)
    as ((r' & perf' & Hnth' & Hperf' & Hmr) & _ & _).
  rewrite Hnth in Hnth'. injection Hnth' as <-.
  unfold document, performance, percentiles in *.
  rewrite Hperf in Hperf'. injection Hperf' as <-.
  pose proof (aggregated_has_metric results aggregated w0 w1 operation "p99_9"
                Hwf Hagg Hop ltac:(simpl; tauto)) as Hm.
  rewrite Forall_forall in Hm.
  assert (Hkeys : forall item, In item aggregated ->
            median_of (operation ++ "_p99_9_median")%string item
            = Ok (median item)).
  { intros item Hitem. cbn [operations In] in Hop.
    destruct Hop as [<-|[<-|[<-|[]]]];
      exact (proj1 (has_metric_median _ item (Hm item Hitem))). }
  unfold print_detailed_percentiles.
  unfold document, performance, percentiles in *.
  rewrite (ranking_sorted (operation ++ "_p99_9_median")%string) by exact Hkeys.
  fold median. rewrite Hsort, bind_lift. cbv beta iota.
  rewrite !bind_print, (getitem_Some _ _ _ Hmr), bind_lift. cbv beta iota.
  rewrite (getitem_Some _ _ _ Hrun), bind_lift, bind_print.
  unfold getitem. rewrite Hp0. unfold bind, lift.
  now rewrite !add_lines_app.
Qed.

Lemma bare_results_wf : dict_wf bare_results.
Proof.
  unfold dict_wf, keys. simpl.
  repeat constructor; simpl; intuition discriminate.
Defined.

Lemma detailed_percentiles_missing_percentile_witness :
  print_detailed_percentiles bare_aggregated "insert" empty_world
  = (Raise (KeyError "p0"),
     add_lines empty_world
       [rule;
        VFormat "DETAILED PERCENTILES - {} (P99.9 Winner for {})"
          [VStr (fst (nth 0 bare_aggregated ("", []))); VStr (upper "insert")];
        rule;
        VFormat "{} latencies (from median run):"
          [VStr (capitalize "insert")]]).
Proof.
  apply (detailed_percentiles_missing_percentile bare_results bare_aggregated
           empty_world empty_world empty_world "insert"
           (nth 0 bare_aggregated ("", [])) [nth 1 bare_aggregated ("", [])]
           [bare_measurement 100; bare_measurement 104]
           (bare_measurement 104)
           [("insert", bare_ladder 104); ("find", bare_ladder 105);
            ("erase", bare_ladder 106)]
           (bare_ladder 104)).
  - exact bare_results_wf.
  - reflexivity.
  - simpl. tauto.
  - reflexivity.
  - reflexivity.
  - reflexivity.
  - reflexivity.
  - reflexivity.
  - reflexivity.
Defined.
